(** * kube-hc-monitor: cleanup advisor and cluster health evaluator

    A shallow embedding of

    - [pkg/optimizer/optimizer.go]: [GenerateOptimizationReport] and
      [CleanupUnusedResources];
    - the health package appended to [internal/kubernetes/client.go]:
      [GetClusterHealth], [checkNodeHealth], [checkPodHealth],
      [checkControlPlaneHealth] and [checkNetworkHealth].

    Conventions.  Go strings are [string]; Go [int], [int32] and
    [time.Duration] are [Z] (counters wrap at 64 bits, durations
    saturate as [time.Time.Sub] does); [float64] fields are idealised
    as rationals [Q]; a nil-able pointer is an [option]; a Go [map] is
    a stdpp [gmap]; an [error] is its message.  The Kubernetes API
    server is a record of what each request answers, and for the
    cleanup code, which deletes objects, a store threaded through a
    state monad. *)

From Stdlib Require Import ZArith QArith String Ascii List Bool Lia.
From stdpp Require Import base option list gmap strings pretty.

Local Open Scope string_scope.
Local Open Scope list_scope.
Local Open Scope Z_scope.

(** ** Shared vocabulary *)

(** A Go call returning [(T, error)]. *)
Inductive Result (A : Type) : Type :=
| Ok (a : A)
| Err (e : string).
Arguments Ok {A} a.
Arguments Err {A} e.

Definition isErr {A} (r : Result A) : bool :=
  match r with Ok _ => false | Err _ => true end.

(** [fmt.Sprintf("%s/%s", a, b)]. *)
Definition Sprintf_slash (a b : string) : string := a +:+ "/" +:+ b.

(** Go [int]: increment with 64-bit two's complement wrap-around. *)
Definition wrap64 (z : Z) : Z := (z + 2^63) mod 2^64 - 2^63.
Definition incr (z : Z) : Z := wrap64 (z + 1).

(** [time.Duration] is an [int64] count of nanoseconds. *)
Definition Nanosecond : Z := 1.
Definition Millisecond : Z := 1000000.
Definition Second : Z := 1000 * Millisecond.
Definition Hour : Z := 3600 * Second.
Definition minDuration : Z := - 2^63.
Definition maxDuration : Z := 2^63 - 1.

(** [t.Sub(u)]: the difference, saturated to the range of a Duration.
    Instants are nanoseconds on one time line. *)
Definition time_Sub (t u : Z) : Z :=
  Z.max minDuration (Z.min maxDuration (t - u)).

(** [time.Since(t)] with the clock reading [now].  A run reads the
    clock as [now] throughout: the time that passes between two
    iterations of a loop is not modelled. *)
Definition time_Since (now t : Z) : Z := time_Sub now t.

(** [v1.NamespaceAll], the empty string, and the empty label selector
    of a zero [metav1.ListOptions]. *)
Definition NamespaceAll : string := EmptyString.
Definition everything : string := EmptyString.

(** [v1.PodPhase] is a string type. *)
Definition PodPending : string := "Pending".
Definition PodRunning : string := "Running".
Definition PodSucceeded : string := "Succeeded".
Definition PodFailed : string := "Failed".

(** Kubernetes namespaces are DNS labels; in particular they hold no
    slash. *)
Fixpoint noSlash (s : string) : bool :=
  match s with
  | EmptyString => true
  | String c s' => negb (Ascii.eqb c "/"%char) && noSlash s'
  end.

(** ** pkg/optimizer *)

Module Optimizer.

(** *** Objects read by the cleanup *)

Record Volume := {
  vol_Name : string;
  (** [volume.ConfigMap]: nil, or a source naming a ConfigMap *)
  vol_ConfigMap : option string;
  (** [volume.Projected]: the ConfigMaps named among the sources of a
      projected volume (none when the volume is not projected) *)
  vol_Projected : list string
}.

Record EnvVarSource := {
  (** [ValueFrom.ConfigMapKeyRef]: nil, or a selector naming a ConfigMap *)
  src_ConfigMapKeyRef : option string
}.

Record EnvVar := {
  env_Name : string;
  env_ValueFrom : option EnvVarSource
}.

Record EnvFromSource := {
  (** [EnvFrom[i].ConfigMapRef]: nil, or a reference naming a ConfigMap *)
  envfrom_ConfigMapRef : option string
}.

Record Container := {
  ctr_Name : string;
  ctr_Env : list EnvVar;
  ctr_EnvFrom : list EnvFromSource
}.

Record Pod := {
  pod_Namespace : string;
  pod_Name : string;
  pod_CreationTimestamp : Z;
  pod_Volumes : list Volume;
  pod_Containers : list Container;
  pod_InitContainers : list Container;
  pod_EphemeralContainers : list Container;
  pod_Phase : string
}.

Record ConfigMap := {
  cm_Namespace : string;
  cm_Name : string;
  cm_CreationTimestamp : Z
}.

Record Node := {
  node_Name : string;
  node_AllocatableMilliCPU : Z
}.

Record NodeMetrics := {
  nm_Name : string;
  nm_UsageMilliCPU : Z
}.

(** *** The two clients *)

(** The cluster behind [*kubernetes.Clientset]: the stored objects and
    which requests the API server refuses. *)
Record Clientset := {
  store_nodes : list Node;
  store_configMaps : list ConfigMap;
  store_pods : list Pod;
  listConfigMapsErr : option string;
  listPodsErr : option string;
  (** [deleteErr kind namespace name]: the error a delete request of
      that object meets, if any *)
  deleteErr : string -> string -> string -> option string
}.

Record MetricsClientset := {
  store_nodeMetrics : list NodeMetrics
}.

Inductive ApiCall :=
| ListConfigMaps
| ListPods
| DeleteConfigMap (ns name : string)
| DeletePod (ns name : string).

(** What a run can change or emit: the cluster, the requests sent,
    the lines given to [log.Printf]. *)
Record World := {
  cluster : Clientset;
  calls : list ApiCall;
  logged : list string
}.

Definition M (A : Type) : Type := World -> A * World.

Definition ret {A} (a : A) : M A := fun w => (a, w).

Definition bind {A B} (m : M A) (k : A -> M B) : M B :=
  fun w => let (a, w') := m w in k a w'.

Notation "x <- c ;; k" := (bind c (fun x => k))
  (at level 100, c at next level, right associativity).
Notation "c ;;; k" := (bind c (fun _ => k))
  (at level 100, right associativity).

Definition call (c : ApiCall) : M unit :=
  fun w => (tt, {| cluster := cluster w; calls := calls w ++ [c]; logged := logged w |}).

Definition log_Printf (line : string) : M unit :=
  fun w => (tt, {| cluster := cluster w; calls := calls w; logged := logged w ++ [line] |}).

Definition setCluster (c : Clientset) : M unit :=
  fun w => (tt, {| cluster := c; calls := calls w; logged := logged w |}).

Definition getCluster : M Clientset := fun w => (cluster w, w).

(** [clientset.CoreV1().ConfigMaps(NamespaceAll).List(ctx, ...)] *)
Definition ConfigMaps_List : M (Result (list ConfigMap)) :=
  call ListConfigMaps;;;
  c <- getCluster;;
  match listConfigMapsErr c with
  | Some e => ret (Err e)
  | None => ret (Ok (store_configMaps c))
  end.

(** [clientset.CoreV1().Pods(NamespaceAll).List(ctx, ...)] *)
Definition Pods_List : M (Result (list Pod)) :=
  call ListPods;;;
  c <- getCluster;;
  match listPodsErr c with
  | Some e => ret (Err e)
  | None => ret (Ok (store_pods c))
  end.

Definition sameConfigMap (ns name : string) (cm : ConfigMap) : bool :=
  String.eqb (cm_Namespace cm) ns && String.eqb (cm_Name cm) name.

Definition samePod (ns name : string) (p : Pod) : bool :=
  String.eqb (pod_Namespace p) ns && String.eqb (pod_Name p) name.

(** [clientset.CoreV1().ConfigMaps(ns).Delete(ctx, name, ...)]: refused
    when the server says so, "not found" when no such object is
    stored, and otherwise the object leaves the store. *)
Definition ConfigMaps_Delete (ns name : string) : M (option string) :=
  call (DeleteConfigMap ns name);;;
  c <- getCluster;;
  match deleteErr c "ConfigMap" ns name with
  | Some e => ret (Some e)
  | None =>
      if existsb (sameConfigMap ns name) (store_configMaps c) then
        setCluster {| store_nodes := store_nodes c;
                      store_configMaps :=
                        List.filter (fun cm => negb (sameConfigMap ns name cm))
                                    (store_configMaps c);
                      store_pods := store_pods c;
                      listConfigMapsErr := listConfigMapsErr c;
                      listPodsErr := listPodsErr c;
                      deleteErr := deleteErr c |};;;
        ret None
      else ret (Some ("configmaps " +:+ name +:+ " not found"))
  end.

(** [clientset.CoreV1().Pods(ns).Delete(ctx, name, ...)] *)
Definition Pods_Delete (ns name : string) : M (option string) :=
  call (DeletePod ns name);;;
  c <- getCluster;;
  match deleteErr c "Pod" ns name with
  | Some e => ret (Some e)
  | None =>
      if existsb (samePod ns name) (store_pods c) then
        setCluster {| store_nodes := store_nodes c;
                      store_configMaps := store_configMaps c;
                      store_pods :=
                        List.filter (fun p => negb (samePod ns name p)) (store_pods c);
                      listConfigMapsErr := listConfigMapsErr c;
                      listPodsErr := listPodsErr c;
                      deleteErr := deleteErr c |};;;
        ret None
      else ret (Some ("pods " +:+ name +:+ " not found"))
  end.

(** *** GenerateOptimizationReport *)

Record Recommendation := {
  rec_Type : string;
  rec_Description : string;
  rec_PotentialSaving : Q
}.

Record OptimizationReport := {
  PotentialSavings : Q;
  Recommendations : list Recommendation
}.

Record ResourceOptimizer := {
  clientset : Clientset;
  metricsClient : MetricsClientset
}.

Definition GenerateOptimizationReport (o : ResourceOptimizer)
  : OptimizationReport * option string :=
  ({| PotentialSavings := 0%Q; Recommendations := [] |}, None).

Definition NewResourceOptimizer (cs : Clientset) (mc : MetricsClientset)
  : ResourceOptimizer :=
  {| clientset := cs; metricsClient := mc |}.

(** *** CleanupUnusedResources *)

Record CleanupRecommendation := {
  ResourceType : string;
  Namespace : string;
  Name : string;
  Reason : string;
  Age : Z
}.

(** [configMapsInUse[key]]: a missing key reads as [false]. *)
Definition inUse (configMapsInUse : gmap string bool) (key : string) : bool :=
  default false (configMapsInUse !! key).

(** Lines 90-95: the volumes of one pod. *)
Definition markVolumes (ns : string) (vols : list Volume)
    (configMapsInUse : gmap string bool) : gmap string bool :=
  foldl (fun m volume =>
           match vol_ConfigMap volume with
           | Some name => <[Sprintf_slash ns name := true]> m
           | None => m
           end) configMapsInUse vols.

(** Lines 98-103: the environment of one container. *)
Definition markEnv (ns : string) (envs : list EnvVar)
    (configMapsInUse : gmap string bool) : gmap string bool :=
  foldl (fun m env =>
           match env_ValueFrom env with
           | Some src =>
               match src_ConfigMapKeyRef src with
               | Some name => <[Sprintf_slash ns name := true]> m
               | None => m
               end
           | None => m
           end) configMapsInUse envs.

(** Lines 97-104: the containers of one pod. *)
Definition markContainers (ns : string) (ctrs : list Container)
    (configMapsInUse : gmap string bool) : gmap string bool :=
  foldl (fun m container => markEnv ns (ctr_Env container) m) configMapsInUse ctrs.

(** Lines 89-105. *)
Definition markPods (pods : list Pod)
    (configMapsInUse : gmap string bool) : gmap string bool :=
  foldl (fun m pod =>
           markContainers (pod_Namespace pod) (pod_Containers pod)
             (markVolumes (pod_Namespace pod) (pod_Volumes pod) m))
        configMapsInUse pods.

Definition configMapRec (now : Z) (cm : ConfigMap) : CleanupRecommendation :=
  {| ResourceType := "ConfigMap";
     Namespace := cm_Namespace cm;
     Name := cm_Name cm;
     Reason := "Not referenced by any pod";
     Age := time_Since now (cm_CreationTimestamp cm) |}.

Definition podRec (age : Z) (pod : Pod) : CleanupRecommendation :=
  {| ResourceType := "Pod";
     Namespace := pod_Namespace pod;
     Name := pod_Name pod;
     Reason := "Failed/Completed pod older than 7 days (status: "
                 +:+ pod_Phase pod +:+ ")";
     Age := age |}.

(** Lines 120-128: in apply mode, the delete request for a flagged
    ConfigMap; its error is logged and goes no further. *)
Definition applyConfigMap (dryRun : bool) (cm : ConfigMap) : M unit :=
  if negb dryRun then
    err <- ConfigMaps_Delete (cm_Namespace cm) (cm_Name cm);;
    let key := Sprintf_slash (cm_Namespace cm) (cm_Name cm) in
    match err with
    | Some e => log_Printf ("Failed to delete configmap " +:+ key +:+ ": " +:+ e)
    | None => log_Printf ("Deleted unused configmap " +:+ key)
    end
  else ret tt.

(** Lines 108-130: the loop over the listed ConfigMaps, threading the
    local slice [recommendations]. *)
Fixpoint sweepConfigMaps (now : Z) (dryRun : bool)
    (configMapsInUse : gmap string bool) (items : list ConfigMap)
    (recommendations : list CleanupRecommendation)
  : M (list CleanupRecommendation) :=
  match items with
  | [] => ret recommendations
  | cm :: rest =>
      let key := Sprintf_slash (cm_Namespace cm) (cm_Name cm) in
      if negb (inUse configMapsInUse key) then
        let recommendations := recommendations ++ [configMapRec now cm] in
        applyConfigMap dryRun cm;;;
        sweepConfigMaps now dryRun configMapsInUse rest recommendations
      else sweepConfigMaps now dryRun configMapsInUse rest recommendations
  end.

(** Lines 146-154: in apply mode, the delete request for a flagged
    pod. *)
Definition applyPod (dryRun : bool) (pod : Pod) : M unit :=
  if negb dryRun then
    err <- Pods_Delete (pod_Namespace pod) (pod_Name pod);;
    let key := Sprintf_slash (pod_Namespace pod) (pod_Name pod) in
    match err with
    | Some e => log_Printf ("Failed to delete pod " +:+ key +:+ ": " +:+ e)
    | None => log_Printf ("Deleted old pod " +:+ key)
    end
  else ret tt.

(** Lines 133-157: the loop over the listed pods. *)
Fixpoint sweepPods (now : Z) (dryRun : bool) (items : list Pod)
    (recommendations : list CleanupRecommendation)
  : M (list CleanupRecommendation) :=
  match items with
  | [] => ret recommendations
  | pod :: rest =>
      if String.eqb (pod_Phase pod) PodFailed
         || String.eqb (pod_Phase pod) PodSucceeded then
        let age := time_Since now (pod_CreationTimestamp pod) in
        if age >? 7 * 24 * Hour then
          let recommendations := recommendations ++ [podRec age pod] in
          applyPod dryRun pod;;;
          sweepPods now dryRun rest recommendations
        else sweepPods now dryRun rest recommendations
      else sweepPods now dryRun rest recommendations
  end.

(** Lines 74-157: everything before the final [return].  The value is
    the error of an early return, or the local slice [recommendations]
    as it stands when line 158 is reached. *)
Definition flagged (now : Z) (dryRun : bool)
  : M (Result (list CleanupRecommendation)) :=
  r <- ConfigMaps_List;;
  match r with
  | Err e => ret (Err ("failed to list configmaps: " +:+ e))
  | Ok configMaps =>
      r <- Pods_List;;
      match r with
      | Err e => ret (Err ("failed to list pods: " +:+ e))
      | Ok pods =>
          let configMapsInUse := markPods pods ∅ in
          recommendations <- sweepConfigMaps now dryRun configMapsInUse configMaps [];;
          recommendations <- sweepPods now dryRun pods recommendations;;
          ret (Ok recommendations)
      end
  end.

(** The function itself: line 158 returns a fresh empty slice, whatever
    [recommendations] holds. *)
Definition CleanupUnusedResources (now : Z) (dryRun : bool)
  : M (Result (list CleanupRecommendation)) :=
  r <- flagged now dryRun;;
  match r with
  | Err e => ret (Err e)
  | Ok recommendations => ret (Ok [])
  end.

(** *** What the loops compute *)

Definition keyOf (cm : ConfigMap) : string :=
  Sprintf_slash (cm_Namespace cm) (cm_Name cm).

(** The test of line 110. *)
Definition notInUse (configMapsInUse : gmap string bool) (cm : ConfigMap) : bool :=
  negb (inUse configMapsInUse (keyOf cm)).

(** The tests of lines 134 and 136. *)
Definition oldTerminated (now : Z) (pod : Pod) : bool :=
  (String.eqb (pod_Phase pod) PodFailed || String.eqb (pod_Phase pod) PodSucceeded)
  && (time_Since now (pod_CreationTimestamp pod) >? 7 * 24 * Hour).

Definition stalePodRec (now : Z) (pod : Pod) : CleanupRecommendation :=
  podRec (time_Since now (pod_CreationTimestamp pod)) pod.

(** The recommendations the two loops append, as a function of what
    the two list requests answered. *)
Definition cleanupCandidates (now : Z) (configMaps : list ConfigMap)
    (pods : list Pod) : list CleanupRecommendation :=
  List.map (configMapRec now)
           (List.filter (notInUse (markPods pods ∅)) configMaps)
  ++ List.map (stalePodRec now) (List.filter (oldTerminated now) pods).

(** The delete request sent for a recommendation in apply mode. *)
Definition deleteCallOf (r : CleanupRecommendation) : ApiCall :=
  if String.eqb (ResourceType r) "ConfigMap"
  then DeleteConfigMap (Namespace r) (Name r)
  else DeletePod (Namespace r) (Name r).

Definition isConfigMapRec (r : CleanupRecommendation) : bool :=
  String.eqb (ResourceType r) "ConfigMap".

Definition isPodRec (r : CleanupRecommendation) : bool :=
  String.eqb (ResourceType r) "Pod".

(** *** The cleanup criteria, in the words of the design *)

(** A volume, or an environment variable, that takes its content from
    the ConfigMap called [name]. *)
Definition volumeRefers (name : string) (v : Volume) : Prop :=
  vol_ConfigMap v = Some name.

Definition envRefers (name : string) (e : EnvVar) : Prop :=
  env_ValueFrom e ≫= src_ConfigMapKeyRef = Some name.

(** The two places of a pod that the cleanup reads: the ConfigMap
    source of a volume of [Spec.Volumes], and the [ValueFrom] of an
    [Env] variable of a container of [Spec.Containers]. *)
Definition referencesDirectly (p : Pod) (cm : ConfigMap) : Prop :=
  Exists (volumeRefers (cm_Name cm)) (pod_Volumes p)
  ∨ Exists (fun c => Exists (envRefers (cm_Name cm)) (ctr_Env c)) (pod_Containers p).

Definition unusedDirectly (pods : list Pod) (cm : ConfigMap) : Prop :=
  Forall (fun p => ¬ (pod_Namespace p = cm_Namespace cm ∧ referencesDirectly p cm))
         pods.

(** A volume mounts the ConfigMap as its own source or as one of the
    sources it projects. *)
Definition volumeMounts (name : string) (v : Volume) : Prop :=
  vol_ConfigMap v = Some name ∨ name ∈ vol_Projected v.

(** An [EnvFrom] entry that imports the ConfigMap called [name]. *)
Definition envFromRefers (name : string) (src : EnvFromSource) : Prop :=
  envfrom_ConfigMapRef src = Some name.

(** A container takes environment variables from the ConfigMap: one
    variable through [ValueFrom], or all of them through [EnvFrom]. *)
Definition containerReads (name : string) (c : Container) : Prop :=
  Exists (envRefers name) (ctr_Env c) ∨ Exists (envFromRefers name) (ctr_EnvFrom c).

(** The pod references the ConfigMap via a volume mount or an
    environment-variable source, in any of its containers. *)
Definition references (p : Pod) (cm : ConfigMap) : Prop :=
  Exists (volumeMounts (cm_Name cm)) (pod_Volumes p)
  ∨ Exists (containerReads (cm_Name cm))
           (pod_Containers p ++ pod_InitContainers p ++ pod_EphemeralContainers p).

(** No pod in the ConfigMap's namespace references it. *)
Definition unused (pods : list Pod) (cm : ConfigMap) : Prop :=
  Forall (fun p => ¬ (pod_Namespace p = cm_Namespace cm ∧ references p cm)) pods.

(** Phase Failed or Succeeded, and older than the retention threshold
    of 7 days. *)
Definition stale (now : Z) (p : Pod) : Prop :=
  (pod_Phase p = PodFailed ∨ pod_Phase p = PodSucceeded)
  ∧ 7 * 24 * Hour < now - pod_CreationTimestamp p.

#[global] Instance volumeRefers_dec name v : Decision (volumeRefers name v).
Proof. unfold volumeRefers. apply _. Defined.

#[global] Instance envRefers_dec name e : Decision (envRefers name e).
Proof. unfold envRefers. apply _. Defined.

#[global] Instance referencesDirectly_dec p cm : Decision (referencesDirectly p cm).
Proof. unfold referencesDirectly. apply _. Defined.

#[global] Instance unusedDirectly_dec pods cm : Decision (unusedDirectly pods cm).
Proof. unfold unusedDirectly. apply _. Defined.

#[global] Instance volumeMounts_dec name v : Decision (volumeMounts name v).
Proof. unfold volumeMounts. apply _. Defined.

#[global] Instance envFromRefers_dec name src : Decision (envFromRefers name src).
Proof. unfold envFromRefers. apply _. Defined.

#[global] Instance containerReads_dec name c : Decision (containerReads name c).
Proof. unfold containerReads. apply _. Defined.

#[global] Instance references_dec p cm : Decision (references p cm).
Proof. unfold references. apply _. Defined.

#[global] Instance unused_dec pods cm : Decision (unused pods cm).
Proof. unfold unused. apply _. Defined.

#[global] Instance stale_dec now p : Decision (stale now p).
Proof. unfold stale. apply _. Defined.

(** Namespaces as the API server validates them. *)
Definition validNamespaces (c : Clientset) : Prop :=
  Forall (fun p => noSlash (pod_Namespace p) = true) (store_pods c)
  ∧ Forall (fun cm => noSlash (cm_Namespace cm) = true) (store_configMaps c).

(** The result of lines 74-157 as a function of the cluster alone. *)
Definition candidatesOf (now : Z) (c : Clientset)
  : Result (list CleanupRecommendation) :=
  match listConfigMapsErr c with
  | Some e => Err ("failed to list configmaps: " +:+ e)
  | None =>
      match listPodsErr c with
      | Some e => Err ("failed to list pods: " +:+ e)
      | None => Ok (cleanupCandidates now (store_configMaps c) (store_pods c))
      end
  end.

Definition isDelete (c : ApiCall) : bool :=
  match c with
  | DeleteConfigMap _ _ | DeletePod _ _ => true
  | ListConfigMaps | ListPods => false
  end.

(** A node, or a pod, is under-used when its usage is below
    [thresholdPercent] of what it may allocate. *)
Definition lowUtilization (thresholdPercent : Z) (o : ResourceOptimizer)
    (n : Node) : Prop :=
  In n (store_nodes (clientset o))
  /\ exists m, In m (store_nodeMetrics (metricsClient o))
             /\ nm_Name m = node_Name n
             /\ 100 * nm_UsageMilliCPU m
                < thresholdPercent * node_AllocatableMilliCPU n.

(** *** Auxiliary notions for the proofs *)

(** The volume, the variable or the pod makes the loop of lines 89-105
    insert the key [k]. *)
Definition volumeMarks (ns k : string) (v : Volume) : Prop :=
  exists name, vol_ConfigMap v = Some name /\ Sprintf_slash ns name = k.

Definition envMarks (ns k : string) (e : EnvVar) : Prop :=
  exists name,
    env_ValueFrom e ≫= src_ConfigMapKeyRef = Some name /\ Sprintf_slash ns name = k.

Definition podMarks (k : string) (p : Pod) : Prop :=
  Exists (volumeMarks (pod_Namespace p) k) (pod_Volumes p)
  \/ Exists (fun c => Exists (envMarks (pod_Namespace p) k) (ctr_Env c))
            (pod_Containers p).

(** The map holds no [false]. *)
Definition onlyTrue (m : gmap string bool) : Prop :=
  forall k v, m !! k = Some v -> v = true.

(** The world after a list request. *)
Definition listed (c : ApiCall) (w : World) : World :=
  {| cluster := cluster w; calls := calls w ++ [c]; logged := logged w |}.

(** *** Sample clusters *)

Definition noFailure : string -> string -> string -> option string :=
  fun _ _ _ => None.

(** One ConfigMap that no pod references (its former user is gone). *)
Definition orphanConfigMap : ConfigMap :=
  {| cm_Namespace := "default"; cm_Name := "app-config";
     cm_CreationTimestamp := 0 |}.

Definition orphanCluster : Clientset :=
  {| store_nodes := []; store_configMaps := [orphanConfigMap];
     store_pods := []; listConfigMapsErr := None; listPodsErr := None;
     deleteErr := noFailure |}.

Definition orphanWorld : World :=
  {| cluster := orphanCluster; calls := []; logged := [] |}.

(** A cluster with a used and an unused ConfigMap, a running pod and
    two terminated pods of different ages; deletes of ConfigMaps are
    refused. *)
Definition day : Z := 24 * Hour.

Definition webPod : Pod :=
  {| pod_Namespace := "shop"; pod_Name := "web-0";
     pod_CreationTimestamp := 0;
     pod_Volumes := [ {| vol_Name := "cfg"; vol_ConfigMap := Some "web-config";
                         vol_Projected := [] |} ];
     pod_Containers :=
       [ {| ctr_Name := "web";
            ctr_Env := [ {| env_Name := "MODE";
                            env_ValueFrom :=
                              Some {| src_ConfigMapKeyRef := Some "web-env" |} |} ];
            ctr_EnvFrom := [] |} ];
     pod_InitContainers := []; pod_EphemeralContainers := [];
     pod_Phase := PodRunning |}.

Definition oldJob : Pod :=
  {| pod_Namespace := "shop"; pod_Name := "migrate-1";
     pod_CreationTimestamp := 0; pod_Volumes := []; pod_Containers := [];
     pod_InitContainers := []; pod_EphemeralContainers := [];
     pod_Phase := PodSucceeded |}.

Definition freshJob : Pod :=
  {| pod_Namespace := "shop"; pod_Name := "migrate-2";
     pod_CreationTimestamp := 9 * day; pod_Volumes := []; pod_Containers := [];
     pod_InitContainers := []; pod_EphemeralContainers := [];
     pod_Phase := PodFailed |}.

Definition shopCluster : Clientset :=
  {| store_nodes := [];
     store_configMaps :=
       [ {| cm_Namespace := "shop"; cm_Name := "web-config"; cm_CreationTimestamp := 0 |};
         {| cm_Namespace := "shop"; cm_Name := "legacy"; cm_CreationTimestamp := 0 |};
         {| cm_Namespace := "shop"; cm_Name := "web-env"; cm_CreationTimestamp := 0 |};
         {| cm_Namespace := "batch"; cm_Name := "web-config"; cm_CreationTimestamp := 0 |} ];
     store_pods := [webPod; oldJob; freshJob];
     listConfigMapsErr := None; listPodsErr := None;
     deleteErr := fun kind _ _ =>
                    if String.eqb kind "ConfigMap" then Some "forbidden" else None |}.

Definition shopWorld : World :=
  {| cluster := shopCluster; calls := []; logged := [] |}.

(** A running pod that uses four ConfigMaps: one as the source of a
    volume, one projected into a volume, one through the [EnvFrom]
    of its container, one through the environment of its init
    container. *)
Definition workerPod : Pod :=
  {| pod_Namespace := "shop"; pod_Name := "worker-0";
     pod_CreationTimestamp := 0;
     pod_Volumes :=
       [ {| vol_Name := "cfg"; vol_ConfigMap := Some "worker-config";
            vol_Projected := [] |};
         {| vol_Name := "certs"; vol_ConfigMap := None;
            vol_Projected := ["worker-certs"] |} ];
     pod_Containers :=
       [ {| ctr_Name := "worker"; ctr_Env := [];
            ctr_EnvFrom := [ {| envfrom_ConfigMapRef := Some "worker-env" |} ] |} ];
     pod_InitContainers :=
       [ {| ctr_Name := "setup";
            ctr_Env := [ {| env_Name := "SCHEMA";
                            env_ValueFrom :=
                              Some {| src_ConfigMapKeyRef := Some "worker-init" |} |} ];
            ctr_EnvFrom := [] |} ];
     pod_EphemeralContainers := [];
     pod_Phase := PodRunning |}.

Definition workerConfigMap (name : string) : ConfigMap :=
  {| cm_Namespace := "shop"; cm_Name := name; cm_CreationTimestamp := 0 |}.

Definition workerCluster : Clientset :=
  {| store_nodes := [];
     store_configMaps :=
       [ workerConfigMap "worker-config"; workerConfigMap "worker-certs";
         workerConfigMap "worker-env"; workerConfigMap "worker-init" ];
     store_pods := [workerPod];
     listConfigMapsErr := None; listPodsErr := None; deleteErr := noFailure |}.

Definition workerWorld : World :=
  {| cluster := workerCluster; calls := []; logged := [] |}.

(** The same cluster with a server that refuses nothing. *)
Definition openShopCluster : Clientset :=
  {| store_nodes := store_nodes shopCluster;
     store_configMaps := store_configMaps shopCluster;
     store_pods := store_pods shopCluster;
     listConfigMapsErr := None; listPodsErr := None;
     deleteErr := noFailure |}.

Definition openShopWorld : World :=
  {| cluster := openShopCluster; calls := []; logged := [] |}.

(** A node that does nothing at all. *)
Definition idleNode : Node :=
  {| node_Name := "node-a"; node_AllocatableMilliCPU := 4000 |}.

Definition idleOptimizer : ResourceOptimizer :=
  NewResourceOptimizer
    {| store_nodes := [idleNode]; store_configMaps := []; store_pods := [];
       listConfigMapsErr := None; listPodsErr := None; deleteErr := noFailure |}
    {| store_nodeMetrics := [ {| nm_Name := "node-a"; nm_UsageMilliCPU := 0 |} ] |}.

(** No delete request is refused. *)
Definition noRefusal (c : Clientset) : Prop :=
  forall kind ns name, deleteErr c kind ns name = None.

(** Pods are told apart by namespace and name, as in a real store. *)
Definition uniquePods (pods : list Pod) : Prop :=
  forall p q, In p pods -> In q pods ->
              pod_Namespace p = pod_Namespace q -> pod_Name p = pod_Name q ->
              p = q.

(** *** The requests of a run *)

(** The requests [CleanupUnusedResources] sends, in order: the two
    list requests (the second only if the first is answered), then,
    in apply mode, one delete request per recommendation. *)
Definition requestsOf (now : Z) (dryRun : bool) (c : Clientset) : list ApiCall :=
  match listConfigMapsErr c with
  | Some _ => [ListConfigMaps]
  | None =>
      match listPodsErr c with
      | Some _ => [ListConfigMaps; ListPods]
      | None =>
          [ListConfigMaps; ListPods]
          ++ (if dryRun then []
              else List.map deleteCallOf
                     (cleanupCandidates now (store_configMaps c) (store_pods c)))
      end
  end.

(** *** main *)

(** How the process ends: [main] returns, or [log.Fatal] prints the
    error and exits with status 1. *)
Inductive Exit :=
| Finished
| Fatal (err : string).

Definition newline : string := String (Ascii.ascii_of_nat 10) EmptyString.

(** [log.Fatal(err)]: the error goes to the standard logger, then the
    process exits with status 1. *)
Definition log_Fatal (err : string) : M Exit :=
  log_Printf err;;;
  ret (Fatal err).


(** [fmt.Printf("- Delete %s %s/%s: %s\n", ...)] of line 187. *)
Definition cleanupLine (r : CleanupRecommendation) : string :=
  "- Delete " +:+ ResourceType r +:+ " " +:+ Namespace r +:+ "/" +:+ Name r
  +:+ ": " +:+ Reason r +:+ newline.

Section Main.

(** The verb [%.2f] of [fmt], which prints a float with two decimals. *)
Variable formatFloat2 : Q -> string.

(** [fmt.Printf("- %s: %s (Save $%.2f/month)\n", ...)] of line 175. *)
Definition reportLine (r : Recommendation) : string :=
  "- " +:+ rec_Type r +:+ ": " +:+ rec_Description r +:+ " (Save $"
  +:+ formatFloat2 (rec_PotentialSaving r) +:+ "/month)" +:+ newline.

(** Lines 161-190, once [initKubernetesClients] has given the two
    clients: the value is how the process ends and what it has
    written to the standard output. *)
Definition main (now : Z) (metricsClient : MetricsClientset)
  : M (Exit * list string) :=
  c <- getCluster;;
  let optimizer := NewResourceOptimizer c metricsClient in
  let '(report, err) := GenerateOptimizationReport optimizer in
  match err with
  | Some e => exit <- log_Fatal e;; ret (exit, [])
  | None =>
      let out :=
        [ "Potential Monthly Savings: $"
            +:+ formatFloat2 (PotentialSavings report) +:+ newline;
          "Optimization Recommendations: "
            +:+ pretty (Z.of_nat (length (Recommendations report))) +:+ newline ]
        ++ List.map reportLine (Recommendations report) in
      r <- CleanupUnusedResources now true;;
      match r with
      | Err e => exit <- log_Fatal e;; ret (exit, out)
      | Ok cleanupRecs =>
          ret (Finished,
               out
               ++ [ newline +:+ "Cleanup Recommendations: "
                      +:+ pretty (Z.of_nat (length cleanupRecs)) +:+ newline ]
               ++ List.map cleanupLine cleanupRecs)
      end
  end.

End Main.

End Optimizer.

(** ** The health package *)

Module Health.

(** *** Objects read by the checks *)

Definition ConditionTrue : string := "True".
Definition NodeReady : string := "Ready".
Definition NodeMemoryPressure : string := "MemoryPressure".
Definition NodeDiskPressure : string := "DiskPressure".
Definition NodePIDPressure : string := "PIDPressure".
Definition NodeNetworkUnavailable : string := "NetworkUnavailable".

Record NodeCondition := {
  cond_Type : string;
  cond_Status : string
}.

Record Node := {
  node_Name : string;
  node_Conditions : list NodeCondition;
  (** [Status.Allocatable]: resource name and [MilliValue()] of its quantity *)
  node_Allocatable : list (string * Z)
}.

Record ContainerStatus := {
  cs_Name : string;
  cs_RestartCount : Z;
  (** [State.Waiting]: nil, or a waiting state with its [Reason] *)
  cs_Waiting : option string
}.

Record Pod := {
  pod_Namespace : string;
  pod_Name : string;
  pod_NodeName : string;
  pod_Phase : string;
  pod_ContainerStatuses : list ContainerStatus
}.

Record Service := {
  svc_Namespace : string;
  svc_Name : string;
  svc_Selector : list (string * string)
}.

Record EndpointSubset := {
  sub_Addresses : list string
}.

Record Endpoints := {
  ep_Subsets : list EndpointSubset
}.

Record Deployment := {
  dep_Namespace : string;
  dep_Name : string;
  (** [Spec.Replicas] is a [*int32] *)
  dep_Replicas : option Z;
  dep_ReadyReplicas : Z
}.

Record NetworkPolicy := {
  np_Namespace : string;
  np_Name : string
}.

Record NodeMetrics := {
  nm_Name : string;
  nm_MilliCPU : Z;
  nm_MemoryBytes : Z
}.

(** *** The two clients: what each request answers *)

Record Clientset := {
  Nodes_List : Result (list Node);
  (** [Pods(namespace).List] with a label selector *)
  Pods_List : string -> string -> Result (list Pod);
  (** [Namespaces().List] with limit 1, and how long it took *)
  Namespaces_List : Result unit;
  apiCallDuration : Z;
  Services_List : Result (list Service);
  Endpoints_Get : string -> string -> Result Endpoints;
  (** [AppsV1().Deployments(NamespaceAll).List] with a label selector *)
  Deployments_List : string -> Result (list Deployment);
  NetworkPolicies_List : Result (list NetworkPolicy)
}.

Record MetricsClientset := {
  NodeMetricses_List : Result (list NodeMetrics)
}.

(** *** The report *)

Record NodeHealthStatus := {
  TotalNodes : Z;
  ReadyNodes : Z;
  MemoryPressureNodes : Z;
  DiskPressureNodes : Z;
  PIDPressureNodes : Z;
  NetworkUnavailableNodes : Z;
  NodeConditions : gmap string (list string);
  AverageLoad : Q
}.

Record PodHealthStatus := {
  TotalPods : Z;
  RunningPods : Z;
  PendingPods : Z;
  SucceededPods : Z;
  FailedPods : Z;
  UnknownPods : Z;
  RestartingPods : Z;
  PodsPerNode : gmap string Z;
  CrashLoopingPods : list string
}.

Record ControlPlaneStatus := {
  APIServerHealthy : bool;
  ControllerHealthy : bool;
  SchedulerHealthy : bool;
  EtcdHealthy : bool;
  CoreDNSHealthy : bool;
  OverallHealthy : bool;
  APIServerLatency : Q
}.

Record NetworkStatus := {
  CNIHealthy : bool;
  DNSResolutionOK : bool;
  ServiceEndpointsHealthy : bool;
  IngressHealthy : bool;
  NetworkPoliciesCount : Z
}.

Record ResourceUsageStatus := {
  ClusterCPUUsage : Q;
  ClusterMemoryUsage : Q;
  ClusterStorageUsage : Q;
  HighCPUNodes : list string;
  HighMemoryNodes : list string;
  LowResourceNodes : list string;
  HighUsageNamespaces : list string
}.

Record ComponentStatus := {
  comp_Name : string;
  comp_Healthy : bool;
  comp_Message : string;
  comp_Version : string
}.

Record DeploymentStatus := {
  TotalDeployments : Z;
  HealthyDeployments : Z;
  ProgressingDeployments : Z;
  FailedDeployments : Z
}.

Record ServiceStatus := {
  TotalServices : Z;
  ServicesWithEndpoints : Z;
  ServicesWithoutEndpoints : Z
}.

Record NamespaceHealth := {
  ns_PodStatus : PodHealthStatus;
  ns_DeploymentStatus : DeploymentStatus;
  ns_ServiceStatus : ServiceStatus;
  ns_ResourceUsage : ResourceUsageStatus;
  ns_HealthScore : Z
}.

Record HealthIssue := {
  Severity : string;
  Resource : string;
  issue_Namespace : string;
  issue_Name : string;
  Message : string;
  issue_Timestamp : Z;
  Suggestion : string
}.

Record ClusterHealth := {
  Timestamp : Z;
  NodeStatus : NodeHealthStatus;
  PodStatus : PodHealthStatus;
  ControlPlane : ControlPlaneStatus;
  Network : NetworkStatus;
  ResourceUsage : ResourceUsageStatus;
  ComponentStatuses : list ComponentStatus;
  NamespaceHealthMap : gmap string NamespaceHealth;
  HealthScore : Z;
  Issues : list HealthIssue
}.

(** Go zero values. *)
Definition zeroNodeHealthStatus : NodeHealthStatus :=
  {| TotalNodes := 0; ReadyNodes := 0; MemoryPressureNodes := 0;
     DiskPressureNodes := 0; PIDPressureNodes := 0;
     NetworkUnavailableNodes := 0; NodeConditions := ∅; AverageLoad := 0%Q |}.

Definition zeroPodHealthStatus : PodHealthStatus :=
  {| TotalPods := 0; RunningPods := 0; PendingPods := 0; SucceededPods := 0;
     FailedPods := 0; UnknownPods := 0; RestartingPods := 0;
     PodsPerNode := ∅; CrashLoopingPods := [] |}.

Definition zeroControlPlaneStatus : ControlPlaneStatus :=
  {| APIServerHealthy := false; ControllerHealthy := false;
     SchedulerHealthy := false; EtcdHealthy := false; CoreDNSHealthy := false;
     OverallHealthy := false; APIServerLatency := 0%Q |}.

Definition zeroNetworkStatus : NetworkStatus :=
  {| CNIHealthy := false; DNSResolutionOK := false;
     ServiceEndpointsHealthy := false; IngressHealthy := false;
     NetworkPoliciesCount := 0 |}.

Definition zeroResourceUsageStatus : ResourceUsageStatus :=
  {| ClusterCPUUsage := 0%Q; ClusterMemoryUsage := 0%Q;
     ClusterStorageUsage := 0%Q; HighCPUNodes := []; HighMemoryNodes := [];
     LowResourceNodes := []; HighUsageNamespaces := [] |}.

(** [len(x)] as a Go [int]. *)
Definition len {A} (l : list A) : Z := Z.of_nat (length l).

(** *** checkNodeHealth *)

(** Lines 334-346: the [switch] on the type of a condition that is
    true. *)
Definition countCondition (ty : string) (s : NodeHealthStatus) : NodeHealthStatus :=
  if String.eqb ty NodeReady then
    {| TotalNodes := TotalNodes s; ReadyNodes := incr (ReadyNodes s);
       MemoryPressureNodes := MemoryPressureNodes s;
       DiskPressureNodes := DiskPressureNodes s;
       PIDPressureNodes := PIDPressureNodes s;
       NetworkUnavailableNodes := NetworkUnavailableNodes s;
       NodeConditions := NodeConditions s; AverageLoad := AverageLoad s |}
  else if String.eqb ty NodeMemoryPressure then
    {| TotalNodes := TotalNodes s; ReadyNodes := ReadyNodes s;
       MemoryPressureNodes := incr (MemoryPressureNodes s);
       DiskPressureNodes := DiskPressureNodes s;
       PIDPressureNodes := PIDPressureNodes s;
       NetworkUnavailableNodes := NetworkUnavailableNodes s;
       NodeConditions := NodeConditions s; AverageLoad := AverageLoad s |}
  else if String.eqb ty NodeDiskPressure then
    {| TotalNodes := TotalNodes s; ReadyNodes := ReadyNodes s;
       MemoryPressureNodes := MemoryPressureNodes s;
       DiskPressureNodes := incr (DiskPressureNodes s);
       PIDPressureNodes := PIDPressureNodes s;
       NetworkUnavailableNodes := NetworkUnavailableNodes s;
       NodeConditions := NodeConditions s; AverageLoad := AverageLoad s |}
  else if String.eqb ty NodePIDPressure then
    {| TotalNodes := TotalNodes s; ReadyNodes := ReadyNodes s;
       MemoryPressureNodes := MemoryPressureNodes s;
       DiskPressureNodes := DiskPressureNodes s;
       PIDPressureNodes := incr (PIDPressureNodes s);
       NetworkUnavailableNodes := NetworkUnavailableNodes s;
       NodeConditions := NodeConditions s; AverageLoad := AverageLoad s |}
  else if String.eqb ty NodeNetworkUnavailable then
    {| TotalNodes := TotalNodes s; ReadyNodes := ReadyNodes s;
       MemoryPressureNodes := MemoryPressureNodes s;
       DiskPressureNodes := DiskPressureNodes s;
       PIDPressureNodes := PIDPressureNodes s;
       NetworkUnavailableNodes := incr (NetworkUnavailableNodes s);
       NodeConditions := NodeConditions s; AverageLoad := AverageLoad s |}
  else s.

(** Lines 330-348: the conditions of one node; the second component
    is the local slice [nodeConditions].  The local [isReady] is
    assigned and never read. *)
Definition scanConditions (conds : list NodeCondition) (s : NodeHealthStatus)
  : NodeHealthStatus * list string :=
  foldl (fun '(s, nodeConditions) condition =>
           if String.eqb (cond_Status condition) ConditionTrue then
             (countCondition (cond_Type condition) s,
              nodeConditions ++ [cond_Type condition])
           else (s, nodeConditions))
        (s, []) conds.

Definition setNodeConditions (name : string) (cs : list string)
    (s : NodeHealthStatus) : NodeHealthStatus :=
  {| TotalNodes := TotalNodes s; ReadyNodes := ReadyNodes s;
     MemoryPressureNodes := MemoryPressureNodes s;
     DiskPressureNodes := DiskPressureNodes s;
     PIDPressureNodes := PIDPressureNodes s;
     NetworkUnavailableNodes := NetworkUnavailableNodes s;
     NodeConditions := <[name := cs]> (NodeConditions s);
     AverageLoad := AverageLoad s |}.

(** Lines 353-355. *)
Definition addLoad (allocatable : list (string * Z)) (totalLoad : Q) : Q :=
  foldl (fun t metric => (t + inject_Z (snd metric) / 1000)%Q) totalLoad allocatable.

(** Lines 326-356: one node. *)
Definition scanNode (acc : NodeHealthStatus * Q) (node : Node)
  : NodeHealthStatus * Q :=
  let '(s, totalLoad) := acc in
  let '(s, nodeConditions) := scanConditions (node_Conditions node) s in
  (setNodeConditions (node_Name node) nodeConditions s,
   addLoad (node_Allocatable node) totalLoad).

Definition checkNodeHealth (cs : Clientset) (status : NodeHealthStatus)
  : NodeHealthStatus * option string :=
  match Nodes_List cs with
  | Err e => (status, Some ("failed to list nodes: " +:+ e))
  | Ok items =>
      let status :=
        {| TotalNodes := len items; ReadyNodes := ReadyNodes status;
           MemoryPressureNodes := MemoryPressureNodes status;
           DiskPressureNodes := DiskPressureNodes status;
           PIDPressureNodes := PIDPressureNodes status;
           NetworkUnavailableNodes := NetworkUnavailableNodes status;
           NodeConditions := ∅; AverageLoad := AverageLoad status |} in
      let '(status, totalLoad) := foldl scanNode (status, 0%Q) items in
      let status :=
        if TotalNodes status >? 0 then
          {| TotalNodes := TotalNodes status; ReadyNodes := ReadyNodes status;
             MemoryPressureNodes := MemoryPressureNodes status;
             DiskPressureNodes := DiskPressureNodes status;
             PIDPressureNodes := PIDPressureNodes status;
             NetworkUnavailableNodes := NetworkUnavailableNodes status;
             NodeConditions := NodeConditions status;
             AverageLoad := (totalLoad / inject_Z (TotalNodes status))%Q |}
        else status in
      (status, None)
  end.

(** *** checkPodHealth *)

(** Lines 378-384. *)
Definition countOnNode (nodeName : string) (m : gmap string Z) : gmap string Z :=
  if negb (String.eqb nodeName EmptyString) then
    let m := match m !! nodeName with
             | Some _ => m
             | None => <[nodeName := 0]> m
             end in
    <[nodeName := incr (default 0 (m !! nodeName))]> m
  else m.

(** Lines 387-398. *)
Definition countPhase (phase : string) (s : PodHealthStatus) : PodHealthStatus :=
  if String.eqb phase PodRunning then
    {| TotalPods := TotalPods s; RunningPods := incr (RunningPods s);
       PendingPods := PendingPods s; SucceededPods := SucceededPods s;
       FailedPods := FailedPods s; UnknownPods := UnknownPods s;
       RestartingPods := RestartingPods s; PodsPerNode := PodsPerNode s;
       CrashLoopingPods := CrashLoopingPods s |}
  else if String.eqb phase PodPending then
    {| TotalPods := TotalPods s; RunningPods := RunningPods s;
       PendingPods := incr (PendingPods s); SucceededPods := SucceededPods s;
       FailedPods := FailedPods s; UnknownPods := UnknownPods s;
       RestartingPods := RestartingPods s; PodsPerNode := PodsPerNode s;
       CrashLoopingPods := CrashLoopingPods s |}
  else if String.eqb phase PodSucceeded then
    {| TotalPods := TotalPods s; RunningPods := RunningPods s;
       PendingPods := PendingPods s; SucceededPods := incr (SucceededPods s);
       FailedPods := FailedPods s; UnknownPods := UnknownPods s;
       RestartingPods := RestartingPods s; PodsPerNode := PodsPerNode s;
       CrashLoopingPods := CrashLoopingPods s |}
  else if String.eqb phase PodFailed then
    {| TotalPods := TotalPods s; RunningPods := RunningPods s;
       PendingPods := PendingPods s; SucceededPods := SucceededPods s;
       FailedPods := incr (FailedPods s); UnknownPods := UnknownPods s;
       RestartingPods := RestartingPods s; PodsPerNode := PodsPerNode s;
       CrashLoopingPods := CrashLoopingPods s |}
  else
    {| TotalPods := TotalPods s; RunningPods := RunningPods s;
       PendingPods := PendingPods s; SucceededPods := SucceededPods s;
       FailedPods := FailedPods s; UnknownPods := incr (UnknownPods s);
       RestartingPods := RestartingPods s; PodsPerNode := PodsPerNode s;
       CrashLoopingPods := CrashLoopingPods s |}.

(** Lines 402-404. *)
Definition countRestarts (containerStatus : ContainerStatus)
    (s : PodHealthStatus) : PodHealthStatus :=
  if cs_RestartCount containerStatus >? 5 then
    {| TotalPods := TotalPods s; RunningPods := RunningPods s;
       PendingPods := PendingPods s; SucceededPods := SucceededPods s;
       FailedPods := FailedPods s; UnknownPods := UnknownPods s;
       RestartingPods := incr (RestartingPods s); PodsPerNode := PodsPerNode s;
       CrashLoopingPods := CrashLoopingPods s |}
  else s.

(** Lines 407-411. *)
Definition noteCrashLoop (pod : Pod) (containerStatus : ContainerStatus)
    (s : PodHealthStatus) : PodHealthStatus :=
  match cs_Waiting containerStatus with
  | Some reason =>
      if String.eqb reason "CrashLoopBackOff" then
        let podKey := Sprintf_slash (pod_Namespace pod) (pod_Name pod) in
        {| TotalPods := TotalPods s; RunningPods := RunningPods s;
           PendingPods := PendingPods s; SucceededPods := SucceededPods s;
           FailedPods := FailedPods s; UnknownPods := UnknownPods s;
           RestartingPods := RestartingPods s; PodsPerNode := PodsPerNode s;
           CrashLoopingPods := CrashLoopingPods s ++ [podKey] |}
      else s
  | None => s
  end.

(** Lines 401-412: the container statuses of one pod. *)
Definition scanContainers (pod : Pod) (s : PodHealthStatus) : PodHealthStatus :=
  foldl (fun s containerStatus =>
           noteCrashLoop pod containerStatus (countRestarts containerStatus s))
        s (pod_ContainerStatuses pod).

(** Lines 376-413: one pod. *)
Definition scanPod (s : PodHealthStatus) (pod : Pod) : PodHealthStatus :=
  let s :=
    {| TotalPods := TotalPods s; RunningPods := RunningPods s;
       PendingPods := PendingPods s; SucceededPods := SucceededPods s;
       FailedPods := FailedPods s; UnknownPods := UnknownPods s;
       RestartingPods := RestartingPods s;
       PodsPerNode := countOnNode (pod_NodeName pod) (PodsPerNode s);
       CrashLoopingPods := CrashLoopingPods s |} in
  scanContainers pod (countPhase (pod_Phase pod) s).

Definition checkPodHealth (cs : Clientset) (status : PodHealthStatus)
  : PodHealthStatus * option string :=
  match Pods_List cs NamespaceAll everything with
  | Err e => (status, Some ("failed to list pods: " +:+ e))
  | Ok items =>
      let status :=
        {| TotalPods := len items; RunningPods := RunningPods status;
           PendingPods := PendingPods status;
           SucceededPods := SucceededPods status;
           FailedPods := FailedPods status; UnknownPods := UnknownPods status;
           RestartingPods := RestartingPods status;
           PodsPerNode := ∅; CrashLoopingPods := [] |} in
      (foldl scanPod status items, None)
  end.

(** *** checkControlPlaneHealth *)

(** [strings.Contains(s, substr)] *)
Definition Contains (s substr : string) : bool :=
  match String.index 0 substr s with
  | Some _ => true
  | None => false
  end.

(** [d.Milliseconds()]: integer division, truncated towards zero. *)
Definition Milliseconds (d : Z) : Z := Z.quot d Millisecond.

(** Lines 440-451: one pod of kube-system. *)
Definition scanSystemPod (s : ControlPlaneStatus) (pod : Pod) : ControlPlaneStatus :=
  let notRunning := negb (String.eqb (pod_Phase pod) PodRunning) in
  let hit (part : string) := Contains (pod_Name pod) part && notRunning in
  {| APIServerHealthy := APIServerHealthy s;
     ControllerHealthy :=
       if hit "kube-controller-manager" then false else ControllerHealthy s;
     SchedulerHealthy :=
       if hit "kube-scheduler" then false else SchedulerHealthy s;
     EtcdHealthy := if hit "etcd" then false else EtcdHealthy s;
     CoreDNSHealthy := if hit "coredns" then false else CoreDNSHealthy s;
     OverallHealthy := OverallHealthy s;
     APIServerLatency := APIServerLatency s |}.

Definition checkControlPlaneHealth (cs : Clientset) (status : ControlPlaneStatus)
  : ControlPlaneStatus * option string :=
  let err := Namespaces_List cs in
  let duration := apiCallDuration cs in
  let status :=
    {| APIServerHealthy := negb (isErr err) && (duration <? 1 * Second);
       ControllerHealthy := ControllerHealthy status;
       SchedulerHealthy := SchedulerHealthy status;
       EtcdHealthy := EtcdHealthy status;
       CoreDNSHealthy := CoreDNSHealthy status;
       OverallHealthy := OverallHealthy status;
       APIServerLatency := inject_Z (Milliseconds duration) |} in
  match Pods_List cs "kube-system" everything with
  | Err e => (status, Some ("failed to list kube-system pods: " +:+ e))
  | Ok items =>
      let status :=
        {| APIServerHealthy := APIServerHealthy status;
           ControllerHealthy := true; SchedulerHealthy := true;
           EtcdHealthy := true; CoreDNSHealthy := true;
           OverallHealthy := OverallHealthy status;
           APIServerLatency := APIServerLatency status |} in
      let status := foldl scanSystemPod status items in
      ({| APIServerHealthy := APIServerHealthy status;
          ControllerHealthy := ControllerHealthy status;
          SchedulerHealthy := SchedulerHealthy status;
          EtcdHealthy := EtcdHealthy status;
          CoreDNSHealthy := CoreDNSHealthy status;
          OverallHealthy :=
            APIServerHealthy status && ControllerHealthy status
            && SchedulerHealthy status && EtcdHealthy status
            && CoreDNSHealthy status;
          APIServerLatency := APIServerLatency status |}, None)
  end.

(** *** Logging and panics *)

(** A call either returns or panics; a panic unwinds through every
    caller, none of which recovers. *)
Inductive Outcome (A : Type) : Type :=
| Returns (a : A)
| Panics (msg : string).
Arguments Returns {A} a.
Arguments Panics {A} msg.

(** A computation that appends to the process log. *)
Definition H (A : Type) : Type := list string -> Outcome A * list string.

Definition hret {A} (a : A) : H A := fun log => (Returns a, log).

Definition hbind {A B} (m : H A) (k : A -> H B) : H B :=
  fun log =>
    match m log with
    | (Returns a, log') => k a log'
    | (Panics msg, log') => (Panics msg, log')
    end.

Definition log_Printf (line : string) : H unit :=
  fun log => (Returns tt, log ++ [line]).

Definition panic {A} (msg : string) : H A := fun log => (Panics msg, log).

Notation "x <- c ;; k" := (hbind c (fun x => k))
  (at level 100, c at next level, right associativity).
Notation "c ;;; k" := (hbind c (fun _ => k))
  (at level 100, right associativity).

Definition nilDereference : string :=
  "runtime error: invalid memory address or nil pointer dereference".

(** *** checkNetworkHealth *)

(** Lines 472-477 and 490-495: false at the first pod that is not
    running. *)
Fixpoint allRunning (items : list Pod) : bool :=
  match items with
  | [] => true
  | pod :: rest =>
      if negb (String.eqb (pod_Phase pod) PodRunning) then false
      else allRunning rest
  end.

(** Lines 506-518: false at the first service with a selector whose
    endpoints cannot be read or have no subset. *)
Fixpoint allHaveEndpoints (cs : Clientset) (items : list Service) : bool :=
  match items with
  | [] => true
  | svc :: rest =>
      if (len (svc_Selector svc) =? 0) then allHaveEndpoints cs rest
      else
        match Endpoints_Get cs (svc_Namespace svc) (svc_Name svc) with
        | Err _ => false
        | Ok endpoints =>
            if len (ep_Subsets endpoints) =? 0 then false
            else allHaveEndpoints cs rest
        end
  end.

(** Lines 535-540: [*ingress.Spec.Replicas] is read for each
    deployment the loop reaches. *)
Fixpoint allReplicasReady (items : list Deployment) : H bool :=
  match items with
  | [] => hret true
  | ingress :: rest =>
      match dep_Replicas ingress with
      | None => panic nilDereference
      | Some replicas =>
          if dep_ReadyReplicas ingress <? replicas then hret false
          else allReplicasReady rest
      end
  end.

Definition cniSelector : string :=
  "k8s-app in (calico-node,flannel,weave-net,cilium)".
Definition dnsSelector : string := "k8s-app=kube-dns".
Definition ingressSelector : string :=
  "app in (ingress-nginx,traefik,istio-ingressgateway)".

(** The idiom of each step: when the list request fails, log the
    error and record [fallback]; otherwise record what [f] finds in
    the answer. *)
Definition readOrLog {A B} (r : Result A) (what : string) (fallback : B)
    (f : A -> B) : H B :=
  match r with
  | Err e => log_Printf (what +:+ e);;; hret fallback
  | Ok x => hret (f x)
  end.

(** Lines 522-542: the ingress controllers. *)
Definition ingressStep (cs : Clientset) : H bool :=
  match Deployments_List cs ingressSelector with
  | Err e =>
      log_Printf ("Failed to check ingress controllers: " +:+ e);;; hret false
  | Ok ingressControllers =>
      if len ingressControllers =? 0 then hret true
      else allReplicasReady ingressControllers
  end.

Definition checkNetworkHealth (cs : Clientset) (status : NetworkStatus)
  : H (NetworkStatus * option string) :=
  cni <- readOrLog (Pods_List cs "kube-system" cniSelector)
                   "Failed to check CNI pods: " false allRunning;;
  dns <- readOrLog (Pods_List cs "kube-system" dnsSelector)
                   "Failed to check CoreDNS pods: " false allRunning;;
  endpoints <- readOrLog (Services_List cs)
                         "Failed to list services: " false (allHaveEndpoints cs);;
  ingress <- ingressStep cs;;
  count <- readOrLog (NetworkPolicies_List cs)
                     "Failed to count network policies: "
                     (NetworkPoliciesCount status) len;;
  hret ({| CNIHealthy := cni; DNSResolutionOK := dns;
           ServiceEndpointsHealthy := endpoints; IngressHealthy := ingress;
           NetworkPoliciesCount := count |}, None).

(** The status [checkNetworkHealth] returns when its ingress step
    yields [ingress]. *)
Definition networkWith (cs : Clientset) (status : NetworkStatus) (ingress : bool)
  : NetworkStatus :=
  {| CNIHealthy :=
       match Pods_List cs "kube-system" cniSelector with
       | Err _ => false | Ok items => allRunning items end;
     DNSResolutionOK :=
       match Pods_List cs "kube-system" dnsSelector with
       | Err _ => false | Ok items => allRunning items end;
     ServiceEndpointsHealthy :=
       match Services_List cs with
       | Err _ => false | Ok items => allHaveEndpoints cs items end;
     IngressHealthy := ingress;
     NetworkPoliciesCount :=
       match NetworkPolicies_List cs with
       | Err _ => NetworkPoliciesCount status | Ok items => len items end |}.

(** *** GetClusterHealth *)

Definition setNodeStatus (v : NodeHealthStatus) (h : ClusterHealth) : ClusterHealth :=
  {| Timestamp := Timestamp h; NodeStatus := v; PodStatus := PodStatus h;
     ControlPlane := ControlPlane h; Network := Network h;
     ResourceUsage := ResourceUsage h; ComponentStatuses := ComponentStatuses h;
     NamespaceHealthMap := NamespaceHealthMap h; HealthScore := HealthScore h;
     Issues := Issues h |}.

Definition setPodStatus (v : PodHealthStatus) (h : ClusterHealth) : ClusterHealth :=
  {| Timestamp := Timestamp h; NodeStatus := NodeStatus h; PodStatus := v;
     ControlPlane := ControlPlane h; Network := Network h;
     ResourceUsage := ResourceUsage h; ComponentStatuses := ComponentStatuses h;
     NamespaceHealthMap := NamespaceHealthMap h; HealthScore := HealthScore h;
     Issues := Issues h |}.

Definition setControlPlane (v : ControlPlaneStatus) (h : ClusterHealth) : ClusterHealth :=
  {| Timestamp := Timestamp h; NodeStatus := NodeStatus h;
     PodStatus := PodStatus h; ControlPlane := v; Network := Network h;
     ResourceUsage := ResourceUsage h; ComponentStatuses := ComponentStatuses h;
     NamespaceHealthMap := NamespaceHealthMap h; HealthScore := HealthScore h;
     Issues := Issues h |}.

Definition setNetwork (v : NetworkStatus) (h : ClusterHealth) : ClusterHealth :=
  {| Timestamp := Timestamp h; NodeStatus := NodeStatus h;
     PodStatus := PodStatus h; ControlPlane := ControlPlane h; Network := v;
     ResourceUsage := ResourceUsage h; ComponentStatuses := ComponentStatuses h;
     NamespaceHealthMap := NamespaceHealthMap h; HealthScore := HealthScore h;
     Issues := Issues h |}.

Definition setResourceUsage (v : ResourceUsageStatus) (h : ClusterHealth) : ClusterHealth :=
  {| Timestamp := Timestamp h; NodeStatus := NodeStatus h;
     PodStatus := PodStatus h; ControlPlane := ControlPlane h;
     Network := Network h; ResourceUsage := v;
     ComponentStatuses := ComponentStatuses h;
     NamespaceHealthMap := NamespaceHealthMap h; HealthScore := HealthScore h;
     Issues := Issues h |}.

Definition setComponentStatuses (v : list ComponentStatus) (h : ClusterHealth)
  : ClusterHealth :=
  {| Timestamp := Timestamp h; NodeStatus := NodeStatus h;
     PodStatus := PodStatus h; ControlPlane := ControlPlane h;
     Network := Network h; ResourceUsage := ResourceUsage h;
     ComponentStatuses := v;
     NamespaceHealthMap := NamespaceHealthMap h; HealthScore := HealthScore h;
     Issues := Issues h |}.

Definition setHealthScore (v : Z) (h : ClusterHealth) : ClusterHealth :=
  {| Timestamp := Timestamp h; NodeStatus := NodeStatus h;
     PodStatus := PodStatus h; ControlPlane := ControlPlane h;
     Network := Network h; ResourceUsage := ResourceUsage h;
     ComponentStatuses := ComponentStatuses h;
     NamespaceHealthMap := NamespaceHealthMap h; HealthScore := v;
     Issues := Issues h |}.

(** Lines 260-264. *)
Definition newClusterHealth (now : Z) : ClusterHealth :=
  {| Timestamp := now; NodeStatus := zeroNodeHealthStatus;
     PodStatus := zeroPodHealthStatus; ControlPlane := zeroControlPlaneStatus;
     Network := zeroNetworkStatus; ResourceUsage := zeroResourceUsageStatus;
     ComponentStatuses := []; NamespaceHealthMap := ∅; HealthScore := 0;
     Issues := [] |}.

(** The error of a secondary check is logged and dropped. *)
Definition logFailure (what : string) (err : option string) : H unit :=
  match err with
  | Some e => log_Printf (what +:+ " failed: " +:+ e)
  | None => hret tt
  end.

Section GetClusterHealth.

(** Five functions that [GetClusterHealth] calls are declared
    elsewhere in the package; of each, only what the call site
    shows is used: it takes the clients and the status it fills,
    and the first three return an error. *)
Variable checkResourceUsage :
  Clientset -> MetricsClientset -> ResourceUsageStatus
  -> ResourceUsageStatus * option string.
Variable checkComponentStatuses :
  Clientset -> list ComponentStatus -> list ComponentStatus * option string.
Variable checkNamespaceHealth :
  Clientset -> MetricsClientset -> ClusterHealth
  -> ClusterHealth * option string.
Variable identifyHealthIssues : ClusterHealth -> ClusterHealth.
Variable calculateHealthScore : ClusterHealth -> Z.

Definition GetClusterHealth (now : Z) (clientset : Clientset)
    (metricsClient : MetricsClientset) : H (Result ClusterHealth) :=
  let health := newClusterHealth now in
  let '(status, err) := checkNodeHealth clientset (NodeStatus health) in
  match err with
  | Some e => hret (Err ("node health check failed: " +:+ e))
  | None =>
  let health := setNodeStatus status health in
  let '(status, err) := checkPodHealth clientset (PodStatus health) in
  match err with
  | Some e => hret (Err ("pod health check failed: " +:+ e))
  | None =>
  let health := setPodStatus status health in
  let '(status, err) := checkControlPlaneHealth clientset (ControlPlane health) in
  let health := setControlPlane status health in
  logFailure "Control plane health check" err;;;
  r <- checkNetworkHealth clientset (Network health);;
  let '(status, err) := r in
  let health := setNetwork status health in
  logFailure "Network health check" err;;;
  let '(status, err) :=
    checkResourceUsage clientset metricsClient (ResourceUsage health) in
  let health := setResourceUsage status health in
  logFailure "Resource usage check" err;;;
  let '(status, err) :=
    checkComponentStatuses clientset (ComponentStatuses health) in
  let health := setComponentStatuses status health in
  logFailure "Component status check" err;;;
  let '(health, err) := checkNamespaceHealth clientset metricsClient health in
  logFailure "Namespace health check" err;;;
  let health := identifyHealthIssues health in
  let health := setHealthScore (calculateHealthScore health) health in
  hret (Ok health)
  end
  end.

(** The health that lines 266-310 build once the network check has
    returned [net]. *)
Definition assembled (now : Z) (cs : Clientset) (mc : MetricsClientset)
    (net : NetworkStatus) : ClusterHealth :=
  let health := newClusterHealth now in
  let health :=
    setNodeStatus (fst (checkNodeHealth cs (NodeStatus health))) health in
  let health :=
    setPodStatus (fst (checkPodHealth cs (PodStatus health))) health in
  let health :=
    setControlPlane
      (fst (checkControlPlaneHealth cs (ControlPlane health))) health in
  let health := setNetwork net health in
  let health :=
    setResourceUsage
      (fst (checkResourceUsage cs mc (ResourceUsage health))) health in
  let health :=
    setComponentStatuses
      (fst (checkComponentStatuses cs (ComponentStatuses health))) health in
  let health := fst (checkNamespaceHealth cs mc health) in
  let health := identifyHealthIssues health in
  setHealthScore (calculateHealthScore health) health.

End GetClusterHealth.

(** *** When the ingress loop meets a nil pointer *)

(** The deployment has at least as many ready replicas as its
    specification asks for. *)
Definition replicasReady (d : Deployment) : Prop :=
  exists replicas, dep_Replicas d = Some replicas /\ replicas <= dep_ReadyReplicas d.

(** A deployment without [Spec.Replicas] comes before any deployment
    that is short of replicas. *)
Definition reachesUnset (items : list Deployment) : Prop :=
  exists before d after,
    items = before ++ d :: after
    /\ dep_Replicas d = None
    /\ Forall replicasReady before.

Definition ingressReachesUnset (cs : Clientset) : Prop :=
  exists items, Deployments_List cs ingressSelector = Ok items /\ reachesUnset items.

(** *** Sample clusters *)

(** A quiet cluster with nothing in it. *)
Definition emptyCluster : Clientset :=
  {| Nodes_List := Ok []; Pods_List := fun _ _ => Ok [];
     Namespaces_List := Ok tt; apiCallDuration := 12 * Millisecond;
     Services_List := Ok []; Endpoints_Get := fun _ _ => Err "not found";
     Deployments_List := fun _ => Ok []; NetworkPolicies_List := Ok [] |}.

(** One pod, two containers, both restarted six times and both in
    crash-loop back-off. *)
Definition crashingPod : Pod :=
  {| pod_Namespace := "prod"; pod_Name := "api-0"; pod_NodeName := "node-a";
     pod_Phase := PodRunning;
     pod_ContainerStatuses :=
       [ {| cs_Name := "api"; cs_RestartCount := 6;
            cs_Waiting := Some "CrashLoopBackOff" |};
         {| cs_Name := "sidecar"; cs_RestartCount := 6;
            cs_Waiting := Some "CrashLoopBackOff" |} ] |}.

Definition crashingCluster : Clientset :=
  {| Nodes_List := Ok []; Pods_List := fun _ _ => Ok [crashingPod];
     Namespaces_List := Ok tt; apiCallDuration := 12 * Millisecond;
     Services_List := Ok []; Endpoints_Get := fun _ _ => Err "not found";
     Deployments_List := fun _ => Ok []; NetworkPolicies_List := Ok [] |}.

(** The number of pods with a container restarted more than 5 times,
    each pod once. *)
Definition restartingPodCount (pods : list Pod) : Z :=
  len (List.filter
         (fun pod => existsb (fun c => cs_RestartCount c >? 5)
                             (pod_ContainerStatuses pod)) pods).

(** What the loop of lines 401-412 counts: the container statuses
    restarted more than 5 times, and one entry of the crash-looping
    list per container waiting in CrashLoopBackOff. *)
Definition restarted (c : ContainerStatus) : bool := cs_RestartCount c >? 5.

Definition inCrashLoop (c : ContainerStatus) : bool :=
  match cs_Waiting c with
  | Some reason => String.eqb reason "CrashLoopBackOff"
  | None => false
  end.

Definition restartedContainers (pods : list Pod) : list ContainerStatus :=
  flat_map (fun pod => List.filter restarted (pod_ContainerStatuses pod)) pods.

Definition crashLoopEntries (pods : list Pod) : list string :=
  flat_map (fun pod =>
              List.map (fun _ => Sprintf_slash (pod_Namespace pod) (pod_Name pod))
                       (List.filter inCrashLoop (pod_ContainerStatuses pod)))
           pods.

(** A cluster where only the node list and the all-namespaces pod list
    can be read. *)
Definition degradedCluster : Clientset :=
  {| Nodes_List := Ok [];
     Pods_List := fun ns _ => if String.eqb ns NamespaceAll then Ok [] else Err "timeout";
     Namespaces_List := Err "timeout"; apiCallDuration := 3 * Second;
     Services_List := Err "timeout"; Endpoints_Get := fun _ _ => Err "timeout";
     Deployments_List := fun _ => Err "timeout";
     NetworkPolicies_List := Err "timeout" |}.







(** Three nodes, one of them not ready and under memory pressure; two
    running pods; everything else healthy. *)
Definition readyNode (name : string) : Node :=
  {| node_Name := name;
     node_Conditions := [ {| cond_Type := NodeReady; cond_Status := ConditionTrue |};
                          {| cond_Type := NodeMemoryPressure; cond_Status := "False" |} ];
     node_Allocatable := [("cpu", 4000); ("memory", 16000000)] |}.

Definition pressedNode (name : string) : Node :=
  {| node_Name := name;
     node_Conditions := [ {| cond_Type := NodeReady; cond_Status := "False" |};
                          {| cond_Type := NodeMemoryPressure; cond_Status := ConditionTrue |} ];
     node_Allocatable := [("cpu", 4000); ("memory", 16000000)] |}.

Definition runningPod (name node : string) : Pod :=
  {| pod_Namespace := "shop"; pod_Name := name; pod_NodeName := node;
     pod_Phase := PodRunning;
     pod_ContainerStatuses :=
       [ {| cs_Name := "main"; cs_RestartCount := 0; cs_Waiting := None |} ] |}.

Definition threeNodeCluster : Clientset :=
  {| Nodes_List := Ok [readyNode "node-a"; readyNode "node-b"; pressedNode "node-c"];
     Pods_List := fun ns _ =>
       if String.eqb ns NamespaceAll then Ok [runningPod "web-0" "node-a"; runningPod "web-1" "node-b"]
       else Ok [];
     Namespaces_List := Ok tt; apiCallDuration := 12 * Millisecond;
     Services_List := Ok []; Endpoints_Get := fun _ _ => Err "not found";
     Deployments_List := fun _ =>
       Ok [ {| dep_Namespace := "ingress"; dep_Name := "ingress-nginx";
               dep_Replicas := Some 2; dep_ReadyReplicas := 2 |} ];
     NetworkPolicies_List := Ok [] |}.

(** A short deployment listed before one without [Spec.Replicas], and
    the same two the other way round. *)
Definition shortIngress : Deployment :=
  {| dep_Namespace := "ingress"; dep_Name := "ingress-nginx";
     dep_Replicas := Some 3; dep_ReadyReplicas := 1 |}.

Definition unsetIngress : Deployment :=
  {| dep_Namespace := "ingress"; dep_Name := "traefik";
     dep_Replicas := None; dep_ReadyReplicas := 1 |}.

Definition withIngress (items : list Deployment) : Clientset :=
  {| Nodes_List := Ok []; Pods_List := fun _ _ => Ok [];
     Namespaces_List := Ok tt; apiCallDuration := 12 * Millisecond;
     Services_List := Ok []; Endpoints_Get := fun _ _ => Err "not found";
     Deployments_List := fun _ => Ok items; NetworkPolicies_List := Ok [] |}.

(** *** Counting, for the statements about the checks *)

(** The listed pods in a given phase, in none of the four phases the
    [switch] names, and on a given node. *)
Definition podsInPhase (phase : string) (pods : list Pod) : list Pod :=
  List.filter (fun p => String.eqb (pod_Phase p) phase) pods.

Definition knownPhase (phase : string) : bool :=
  String.eqb phase PodRunning || String.eqb phase PodPending
  || String.eqb phase PodSucceeded || String.eqb phase PodFailed.

Definition podsInOtherPhase (pods : list Pod) : list Pod :=
  List.filter (fun p => negb (knownPhase (pod_Phase p))) pods.

Definition podsOnNode (nodeName : string) (pods : list Pod) : list Pod :=
  List.filter (fun p => String.eqb (pod_NodeName p) nodeName) pods.

(** The conditions of a node that are true, and among those of all
    listed nodes, the ones of a given type. *)
Definition trueConditions (node : Node) : list NodeCondition :=
  List.filter (fun c => String.eqb (cond_Status c) ConditionTrue)
              (node_Conditions node).

Definition conditionsOfType (ty : string) (nodes : list Node) : list NodeCondition :=
  flat_map (fun node =>
              List.filter (fun c => String.eqb (cond_Type c) ty) (trueConditions node))
           nodes.

(** How many true conditions of type [ty] a list of conditions, or a
    list of nodes, holds. *)
Definition ofType (ty : string) (conds : list NodeCondition) : nat :=
  length (List.filter (fun c => String.eqb (cond_Type c) ty)
            (List.filter (fun c => String.eqb (cond_Status c) ConditionTrue) conds)).

Definition ofTypeIn (ty : string) (nodes : list Node) : nat :=
  length (conditionsOfType ty nodes).

(** The last listed node called [name], if any. *)
Fixpoint lastNamed (name : string) (nodes : list Node) : option Node :=
  match nodes with
  | [] => None
  | node :: rest =>
      match lastNamed name rest with
      | Some found => Some found
      | None => if String.eqb (node_Name node) name then Some node else None
      end
  end.

(** The five counters of a node status, or of a pod status, are 0. *)
Definition freshNodeCounters (s : NodeHealthStatus) : Prop :=
  ReadyNodes s = 0 /\ MemoryPressureNodes s = 0 /\ DiskPressureNodes s = 0
  /\ PIDPressureNodes s = 0 /\ NetworkUnavailableNodes s = 0.

Definition freshPodCounters (s : PodHealthStatus) : Prop :=
  RunningPods s = 0 /\ PendingPods s = 0 /\ SucceededPods s = 0
  /\ FailedPods s = 0 /\ UnknownPods s = 0.

(** Every pod of the list whose name contains [part] is running. *)
Definition componentRunning (part : string) (pods : list Pod) : Prop :=
  Forall (fun p => Contains (pod_Name p) part = true -> pod_Phase p = PodRunning) pods.

(** The service has no selector, or its endpoints can be read and
    have a subset. *)
Definition served (cs : Clientset) (svc : Service) : Prop :=
  svc_Selector svc = []
  \/ exists endpoints,
       Endpoints_Get cs (svc_Namespace svc) (svc_Name svc) = Ok endpoints
       /\ ep_Subsets endpoints <> [].

(** The lines [checkNetworkHealth] logs: one per list request that
    fails, in the order of the requests. *)
Definition failureLine {A} (r : Result A) (what : string) : list string :=
  match r with
  | Err e => [what +:+ e]
  | Ok _ => []
  end.

Definition networkFailureLines (cs : Clientset) : list string :=
  failureLine (Pods_List cs "kube-system" cniSelector) "Failed to check CNI pods: "
  ++ failureLine (Pods_List cs "kube-system" dnsSelector)
                 "Failed to check CoreDNS pods: "
  ++ failureLine (Services_List cs) "Failed to list services: "
  ++ failureLine (Deployments_List cs ingressSelector)
                 "Failed to check ingress controllers: "
  ++ failureLine (NetworkPolicies_List cs) "Failed to count network policies: ".

End Health.

(** ** The kubernetes package: the client *)

Module Kubernetes.

(** The objects are those of the health package; pod metrics come in
    addition. *)
Record PodMetrics := {
  pm_Namespace : string;
  pm_Name : string;
  pm_MilliCPU : Z;
  pm_MemoryBytes : Z
}.

(** [config.KubernetesConfig]: the two fields [NewClient] reads. *)
Record KubernetesConfig := {
  InCluster : bool;
  Kubeconfig : string
}.

Record RestConfig := {
  Host : string
}.

Record MetricsClientset := {
  NodeMetricses_List : Result (list Health.NodeMetrics);
  (** [PodMetricses(namespace).List] *)
  PodMetricses_List : string -> Result (list PodMetrics)
}.

Record Client := {
  clientset : Health.Clientset;
  metricsClient : MetricsClientset;
  (** [metrics] is a pointer that [NewClient] leaves nil *)
  metrics : option MetricsClientset;
  config : KubernetesConfig
}.

(** What the library calls of [NewClient] answer on this machine. *)
Record Environment := {
  InClusterConfig : Result RestConfig;
  (** [clientcmd.BuildConfigFromFlags(masterUrl, kubeconfigPath)] *)
  BuildConfigFromFlags : string -> string -> Result RestConfig;
  kubernetes_NewForConfig : RestConfig -> Result Health.Clientset;
  metricsv_NewForConfig : RestConfig -> Result MetricsClientset
}.

(** Lines 38-73. *)
Definition NewClient (env : Environment) (cfg : KubernetesConfig) : Result Client :=
  let restConfig :=
    if InCluster cfg then
      match InClusterConfig env with
      | Err e => Err ("failed to create in-cluster config: " +:+ e)
      | Ok rc => Ok rc
      end
    else
      match BuildConfigFromFlags env EmptyString (Kubeconfig cfg) with
      | Err e => Err ("failed to build config from kubeconfig: " +:+ e)
      | Ok rc => Ok rc
      end in
  match restConfig with
  | Err e => Err e
  | Ok restConfig =>
      match kubernetes_NewForConfig env restConfig with
      | Err e => Err ("failed to create clientset: " +:+ e)
      | Ok cs =>
          match metricsv_NewForConfig env restConfig with
          | Err e => Err ("failed to create metrics client: " +:+ e)
          | Ok mc =>
              Ok {| clientset := cs; metricsClient := mc; metrics := None;
                    config := cfg |}
          end
      end
  end.

(** Lines 76-78. *)
Definition GetNodes (c : Client) : Result (list Health.Node) :=
  Health.Nodes_List (clientset c).

(** Lines 81-86. *)
Definition GetPods (c : Client) (namespace : string) : Result (list Health.Pod) :=
  if negb (String.eqb namespace EmptyString) then
    Health.Pods_List (clientset c) namespace everything
  else Health.Pods_List (clientset c) NamespaceAll everything.

(** A value of the [map[string]interface{}] that
    [GetClusterResources] returns. *)
Inductive Resource :=
| NodeItems (items : list Health.Node)
| PodItems (items : list Health.Pod)
| NodeMetricsItems (items : list Health.NodeMetrics)
| PodMetricsItems (items : list PodMetrics).

(** Lines 89-125. *)
Definition GetClusterResources (c : Client) : Result (gmap string Resource) :=
  match GetNodes c with
  | Err e => Err ("failed to get nodes: " +:+ e)
  | Ok nodes =>
      match GetPods c EmptyString with
      | Err e => Err ("failed to get pods: " +:+ e)
      | Ok pods =>
          match NodeMetricses_List (metricsClient c) with
          | Err e => Err ("failed to get node metrics: " +:+ e)
          | Ok nodeMetrics =>
              match PodMetricses_List (metricsClient c) NamespaceAll with
              | Err e => Err ("failed to get pod metrics: " +:+ e)
              | Ok podMetrics =>
                  Ok (<["podMetrics" := PodMetricsItems podMetrics]>
                        (<["nodeMetrics" := NodeMetricsItems nodeMetrics]>
                           (<["pods" := PodItems pods]>
                              (<["nodes" := NodeItems nodes]> ∅))))
              end
          end
      end
  end.

(** *** Sample clients *)

Definition sampleMetrics : MetricsClientset :=
  {| NodeMetricses_List :=
       Ok [ {| Health.nm_Name := "node-a"; Health.nm_MilliCPU := 250;
               Health.nm_MemoryBytes := 1000000 |} ];
     PodMetricses_List := fun _ => Ok [] |}.

Definition sampleClient : Client :=
  {| clientset := Health.threeNodeCluster; metricsClient := sampleMetrics;
     metrics := None;
     config := {| InCluster := true; Kubeconfig := "/home/me/.kube/config" |} |}.

Definition inClusterOnly : Environment :=
  {| InClusterConfig := Ok {| Host := "https://10.0.0.1" |};
     BuildConfigFromFlags := fun _ _ => Err "no such file";
     kubernetes_NewForConfig := fun _ => Ok Health.threeNodeCluster;
     metricsv_NewForConfig := fun _ => Ok sampleMetrics |}.

End Kubernetes.

(** * Properties *)

(** ** Strings and filters *)

Lemma Sprintf_slash_inj (a b a' b' : string) :
  noSlash a = true -> noSlash a' = true ->
  Sprintf_slash a b = Sprintf_slash a' b' -> a = a' /\ b = b'.
Proof.
  unfold Sprintf_slash. revert a'.
  induction a as [|c a IH]; intros [|c' a'] Ha Ha' E; simpl in *.
  - injection E as E. auto.
  - injection E as Ec E. subst c'. simpl in Ha'. discriminate.
  - injection E as Ec E. subst c. simpl in Ha. discriminate.
  - injection E as Ec E. subst c'.
    apply andb_true_iff in Ha as [_ Ha]. apply andb_true_iff in Ha' as [_ Ha'].
    destruct (IH a' Ha Ha' E) as [-> ->]. auto.
Qed.

Lemma filter_bool_decide {A} (f : A -> bool) (P : A -> Prop)
    `{forall x, Decision (P x)} (l : list A) :
  (forall x, In x l -> (f x = true <-> P x)) ->
  List.filter f l = filter P l.
Proof.
  induction l as [|x l IH]; intros Hf; [reflexivity|].
  simpl. rewrite filter_cons.
  rewrite IH by (intros y Hy; apply Hf; right; exact Hy).
  specialize (Hf x (or_introl eq_refl)).
  destruct (f x) eqn:E; destruct (decide (P x)) as [HP|HP]; try reflexivity.
  - exfalso. apply HP, Hf. reflexivity.
  - apply Hf in HP. discriminate.
Qed.

Lemma time_Since_gt (now t d : Z) :
  minDuration <= d < maxDuration ->
  (time_Since now t >? d) = true <-> d < now - t.
Proof.
  unfold time_Since, time_Sub, minDuration, maxDuration.
  change (2 ^ 63) with 9223372036854775808. intros Hd.
  rewrite Z.gtb_lt. lia.
Qed.

(** ** pkg/optimizer: the cleanup *)

Module OptimizerFacts.
Import Optimizer.

(** *** The map of ConfigMaps in use *)

Lemma inUse_insert (m : gmap string bool) (k' k : string) :
  inUse (<[k' := true]> m) k = true <-> k' = k \/ inUse m k = true.
Proof.
  unfold inUse. rewrite lookup_insert.
  destruct (decide (k' = k)) as [->|Hne]; simpl.
  - split; auto.
  - split; [auto|]. intros [E|E]; [contradiction|exact E].
Qed.

Lemma markVolumes_inUse ns vols m k :
  inUse (markVolumes ns vols m) k = true
  <-> inUse m k = true \/ Exists (volumeMarks ns k) vols.
Proof.
  unfold markVolumes. revert m.
  induction vols as [|v vols IH]; intros m; simpl.
  - rewrite Exists_nil. tauto.
  - rewrite IH, Exists_cons. unfold volumeMarks at 2.
    destruct (vol_ConfigMap v) as [name|].
    + rewrite inUse_insert. split.
      * intros [[E|E]|E]; eauto 6.
      * intros [E|[(n & [= ->] & E)|E]]; auto.
    + split; [tauto|]. intros [E|[(n & [=] & _)|E]]; auto.
Qed.

Lemma markEnv_inUse ns envs m k :
  inUse (markEnv ns envs m) k = true
  <-> inUse m k = true \/ Exists (envMarks ns k) envs.
Proof.
  unfold markEnv. revert m.
  induction envs as [|e envs IH]; intros m; simpl.
  - rewrite Exists_nil. tauto.
  - rewrite IH, Exists_cons. unfold envMarks at 2.
    destruct (env_ValueFrom e) as [src|]; simpl;
      [destruct (src_ConfigMapKeyRef src) as [name|]|].
    + rewrite inUse_insert. split.
      * intros [[E|E]|E]; eauto 6.
      * intros [E|[(n & [= ->] & E)|E]]; auto.
    + split; [tauto|]. intros [E|[(n & [=] & _)|E]]; auto.
    + split; [tauto|]. intros [E|[(n & [=] & _)|E]]; auto.
Qed.

Lemma markContainers_inUse ns ctrs m k :
  inUse (markContainers ns ctrs m) k = true
  <-> inUse m k = true
      \/ Exists (fun c => Exists (envMarks ns k) (ctr_Env c)) ctrs.
Proof.
  unfold markContainers. revert m.
  induction ctrs as [|c ctrs IH]; intros m; simpl.
  - rewrite Exists_nil. tauto.
  - rewrite IH, Exists_cons, markEnv_inUse. tauto.
Qed.

Lemma markPods_inUse pods m k :
  inUse (markPods pods m) k = true
  <-> inUse m k = true \/ Exists (podMarks k) pods.
Proof.
  unfold markPods. revert m.
  induction pods as [|p pods IH]; intros m; simpl.
  - rewrite Exists_nil. tauto.
  - rewrite IH, Exists_cons, markContainers_inUse, markVolumes_inUse.
    unfold podMarks at 2. tauto.
Qed.

Lemma inUse_empty k : inUse ∅ k = false.
Proof. unfold inUse. rewrite lookup_empty. reflexivity. Qed.

(** With slash-free namespaces, a pod marks the key of a ConfigMap
    exactly when it sits in its namespace and references it. *)
Lemma podMarks_referencesDirectly p cm :
  noSlash (pod_Namespace p) = true -> noSlash (cm_Namespace cm) = true ->
  podMarks (keyOf cm) p
  <-> pod_Namespace p = cm_Namespace cm /\ referencesDirectly p cm.
Proof.
  intros Hp Hc. unfold podMarks, referencesDirectly, keyOf.
  assert (HV : forall v, volumeMarks (pod_Namespace p)
                 (Sprintf_slash (cm_Namespace cm) (cm_Name cm)) v
               <-> pod_Namespace p = cm_Namespace cm /\ volumeRefers (cm_Name cm) v).
  { intros v. unfold volumeMarks, volumeRefers. split.
    - intros (n & Hn & E). apply Sprintf_slash_inj in E as [E1 E2]; auto.
      subst n. auto.
    - intros [E Hn]. exists (cm_Name cm). rewrite E. auto. }
  assert (HE : forall e, envMarks (pod_Namespace p)
                 (Sprintf_slash (cm_Namespace cm) (cm_Name cm)) e
               <-> pod_Namespace p = cm_Namespace cm /\ envRefers (cm_Name cm) e).
  { intros e. unfold envMarks, envRefers. split.
    - intros (n & Hn & E). apply Sprintf_slash_inj in E as [E1 E2]; auto.
      subst n. auto.
    - intros [E Hn]. exists (cm_Name cm). rewrite E. auto. }
  rewrite !Exists_exists. split.
  - intros [(v & Hv & Hm)|(c & Hc' & Hm)].
    + apply HV in Hm as [E Hm]. split; [exact E|]. left. eauto.
    + apply Exists_exists in Hm as (e & He & Hm).
      apply HE in Hm as [E Hm]. split; [exact E|]. right.
      exists c. split; [exact Hc'|]. apply Exists_exists. eauto.
  - intros [E [(v & Hv & Hm)|(c & Hc' & Hm)]].
    + left. exists v. split; [exact Hv|]. apply HV. auto.
    + right. exists c. split; [exact Hc'|].
      apply Exists_exists in Hm as (e & He & Hm).
      apply Exists_exists. exists e. split; [exact He|]. apply HE. auto.
Qed.

Lemma notInUse_unused pods cm :
  Forall (fun p => noSlash (pod_Namespace p) = true) pods ->
  noSlash (cm_Namespace cm) = true ->
  notInUse (markPods pods ∅) cm = true <-> unusedDirectly pods cm.
Proof.
  intros Hp Hc. unfold notInUse, unusedDirectly.
  rewrite negb_true_iff, <- not_true_iff_false, markPods_inUse, inUse_empty.
  rewrite Forall_forall, Exists_exists. rewrite Forall_forall in Hp.
  split.
  - intros H p Hin Hr. apply H. right. exists p. split; [exact Hin|].
    apply podMarks_referencesDirectly; auto.
  - intros H [E|(p & Hin & Hm)]; [discriminate|].
    apply (H p Hin). apply podMarks_referencesDirectly in Hm; auto.
Qed.

(** *** The two loops *)

Lemma bind_run {A B} (m : M A) (k : A -> M B) (w : World) :
  bind m k w = k (fst (m w)) (snd (m w)).
Proof. unfold bind. destruct (m w). reflexivity. Qed.

Lemma applyConfigMap_dry cm w : applyConfigMap true cm w = (tt, w).
Proof. reflexivity. Qed.

Lemma applyPod_dry pod w : applyPod true pod w = (tt, w).
Proof. reflexivity. Qed.

Lemma applyConfigMap_calls cm w :
  calls (snd (applyConfigMap false cm w))
  = calls w ++ [DeleteConfigMap (cm_Namespace cm) (cm_Name cm)].
Proof.
  unfold applyConfigMap, ConfigMaps_Delete, bind, call, getCluster, setCluster,
    log_Printf, ret. simpl.
  destruct (deleteErr (cluster w) _ _ _); [reflexivity|].
  destruct (existsb _ _); reflexivity.
Qed.

Lemma applyPod_calls pod w :
  calls (snd (applyPod false pod w))
  = calls w ++ [DeletePod (pod_Namespace pod) (pod_Name pod)].
Proof.
  unfold applyPod, Pods_Delete, bind, call, getCluster, setCluster,
    log_Printf, ret. simpl.
  destruct (deleteErr (cluster w) _ _ _); [reflexivity|].
  destruct (existsb _ _); reflexivity.
Qed.

Lemma sweepConfigMaps_fst now dry m items recs w :
  fst (sweepConfigMaps now dry m items recs w)
  = recs ++ List.map (configMapRec now) (List.filter (notInUse m) items).
Proof.
  revert recs w. induction items as [|cm items IH]; intros recs w; simpl.
  - rewrite app_nil_r. reflexivity.
  - unfold notInUse at 1, keyOf.
    destruct (negb _); [|apply IH].
    rewrite bind_run, IH. simpl. rewrite <- app_assoc. reflexivity.
Qed.

Lemma sweepConfigMaps_dry now m items recs w :
  snd (sweepConfigMaps now true m items recs w) = w.
Proof.
  revert recs w. induction items as [|cm items IH]; intros recs w; simpl.
  - reflexivity.
  - destruct (negb _); [|apply IH].
    rewrite bind_run, applyConfigMap_dry. simpl. apply IH.
Qed.

Lemma sweepConfigMaps_calls now m items recs w :
  calls (snd (sweepConfigMaps now false m items recs w))
  = calls w
    ++ List.map deleteCallOf
         (List.map (configMapRec now) (List.filter (notInUse m) items)).
Proof.
  revert recs w. induction items as [|cm items IH]; intros recs w; simpl.
  - rewrite app_nil_r. reflexivity.
  - unfold notInUse at 1, keyOf.
    destruct (negb _); [|apply IH].
    rewrite bind_run, IH, applyConfigMap_calls. simpl.
    rewrite <- app_assoc. reflexivity.
Qed.

Lemma sweepPods_fst now dry items recs w :
  fst (sweepPods now dry items recs w)
  = recs ++ List.map (stalePodRec now) (List.filter (oldTerminated now) items).
Proof.
  revert recs w. induction items as [|pod items IH]; intros recs w; simpl.
  - rewrite app_nil_r. reflexivity.
  - unfold oldTerminated at 1.
    destruct (_ || _); simpl; [|apply IH].
    destruct (_ >? _); [|apply IH].
    rewrite bind_run, IH. simpl. rewrite <- app_assoc. reflexivity.
Qed.

Lemma sweepPods_dry now items recs w :
  snd (sweepPods now true items recs w) = w.
Proof.
  revert recs w. induction items as [|pod items IH]; intros recs w; simpl.
  - reflexivity.
  - destruct (_ || _); [|apply IH].
    destruct (_ >? _); [|apply IH].
    rewrite bind_run, applyPod_dry. simpl. apply IH.
Qed.

Lemma sweepPods_calls now items recs w :
  calls (snd (sweepPods now false items recs w))
  = calls w
    ++ List.map deleteCallOf
         (List.map (stalePodRec now) (List.filter (oldTerminated now) items)).
Proof.
  revert recs w. induction items as [|pod items IH]; intros recs w; simpl.
  - rewrite app_nil_r. reflexivity.
  - unfold oldTerminated at 1.
    destruct (_ || _); simpl; [|apply IH].
    destruct (_ >? _); [|apply IH].
    rewrite bind_run, IH, applyPod_calls. simpl.
    rewrite <- app_assoc. reflexivity.
Qed.

(** *** The function as a whole *)

Lemma ConfigMaps_List_run w :
  ConfigMaps_List w
  = (match listConfigMapsErr (cluster w) with
     | Some e => Err e
     | None => Ok (store_configMaps (cluster w))
     end, listed ListConfigMaps w).
Proof.
  unfold ConfigMaps_List, bind, call, getCluster, ret, listed. simpl.
  destruct (listConfigMapsErr (cluster w)); reflexivity.
Qed.

Lemma Pods_List_run w :
  Pods_List w
  = (match listPodsErr (cluster w) with
     | Some e => Err e
     | None => Ok (store_pods (cluster w))
     end, listed ListPods w).
Proof.
  unfold Pods_List, bind, call, getCluster, ret, listed. simpl.
  destruct (listPodsErr (cluster w)); reflexivity.
Qed.

Ltac run_lists :=
  unfold flagged;
  rewrite bind_run, ConfigMaps_List_run; cbn [fst snd];
  destruct (listConfigMapsErr (cluster _)) eqn:?;
  [|rewrite bind_run, Pods_List_run; cbn [fst snd listed cluster];
    destruct (listPodsErr (cluster _)) eqn:?;
    [|rewrite !bind_run]];
  unfold ret; cbn [fst snd listed cluster calls logged].

Lemma flagged_fst now dry w :
  fst (flagged now dry w) = candidatesOf now (cluster w).
Proof.
  unfold candidatesOf. run_lists; try reflexivity.
  rewrite sweepPods_fst, sweepConfigMaps_fst. reflexivity.
Qed.

Lemma flagged_dry now w :
  cluster (snd (flagged now true w)) = cluster w
  /\ logged (snd (flagged now true w)) = logged w
  /\ List.filter isDelete (calls (snd (flagged now true w)))
     = List.filter isDelete (calls w).
Proof.
  run_lists.
  - rewrite List.filter_app, app_nil_r. auto.
  - rewrite !List.filter_app, !app_nil_r. auto.
  - rewrite sweepPods_dry, sweepConfigMaps_dry.
    cbn [fst snd listed cluster calls logged].
    rewrite !List.filter_app, !app_nil_r. auto.
Qed.

Lemma flagged_apply_calls now w :
  listConfigMapsErr (cluster w) = None ->
  listPodsErr (cluster w) = None ->
  calls (snd (flagged now false w))
  = calls w ++ [ListConfigMaps; ListPods]
    ++ List.map deleteCallOf
         (cleanupCandidates now (store_configMaps (cluster w))
                            (store_pods (cluster w))).
Proof.
  intros Hc Hp. run_lists; try congruence.
  rewrite sweepPods_calls, sweepConfigMaps_calls.
  cbn [fst snd listed cluster calls logged].
  unfold cleanupCandidates. rewrite List.map_app, <- !app_assoc. reflexivity.
Qed.

Lemma CleanupUnusedResources_run now dry w :
  CleanupUnusedResources now dry w
  = (match fst (flagged now dry w) with
     | Err e => Err e
     | Ok _ => Ok []
     end, snd (flagged now dry w)).
Proof.
  unfold CleanupUnusedResources. rewrite bind_run.
  destruct (fst (flagged now dry w)); reflexivity.
Qed.

Lemma filter_map_all {A B} (f : B -> bool) (g : A -> B) (l : list A) :
  (forall x, f (g x) = true) -> List.filter f (List.map g l) = List.map g l.
Proof.
  intros H. induction l as [|x l IH]; simpl; [reflexivity|].
  rewrite H, IH. reflexivity.
Qed.

Lemma filter_map_none {A B} (f : B -> bool) (g : A -> B) (l : list A) :
  (forall x, f (g x) = false) -> List.filter f (List.map g l) = [].
Proof.
  intros H. induction l as [|x l IH]; simpl; [reflexivity|].
  rewrite H. exact IH.
Qed.

Lemma oldTerminated_stale now p : oldTerminated now p = true <-> stale now p.
Proof.
  unfold oldTerminated, stale.
  rewrite andb_true_iff, orb_true_iff, !String.eqb_eq.
  rewrite time_Since_gt; [reflexivity|].
  unfold minDuration, maxDuration. vm_compute. split; [discriminate|reflexivity].
Qed.

(** C1 (the code departs from it).  On a cluster holding one ConfigMap
    that no pod references, the loops flag that ConfigMap exactly once,
    and in apply mode a delete request is sent for it; yet the value
    returned is the empty list, in dry-run and in apply mode alike. *)
Theorem cleanup_returns_empty_for_orphan :
  fst (flagged 1000 true orphanWorld) = Ok [configMapRec 1000 orphanConfigMap]
  /\ fst (CleanupUnusedResources 1000 true orphanWorld) = Ok []
  /\ fst (CleanupUnusedResources 1000 false orphanWorld) = Ok []
  /\ calls (snd (CleanupUnusedResources 1000 false orphanWorld))
     = [ListConfigMaps; ListPods; DeleteConfigMap "default" "app-config"].
Proof. vm_compute. auto. Qed.

(** C3 (the code departs from it).  A running pod uses four
    ConfigMaps of its namespace: one as the source of a volume, one
    projected into a volume, one through the [EnvFrom] of its
    container, one through the environment of its init container.  It
    references each of them, so none is unused; yet the loops read
    only the first of these places and flag the other three, and in
    apply mode a delete request is sent for each of the three. *)
Theorem flagged_configmaps_miss_references :
  Forall (references workerPod) (store_configMaps workerCluster)
  /\ filter (unused (store_pods workerCluster)) (store_configMaps workerCluster) = []
  /\ (exists recs,
        fst (flagged 1000 true workerWorld) = Ok recs
        /\ List.map (fun r => (ResourceType r, Namespace r, Name r)) recs
           = [ ("ConfigMap", "shop", "worker-certs");
               ("ConfigMap", "shop", "worker-env");
               ("ConfigMap", "shop", "worker-init") ])
  /\ calls (snd (CleanupUnusedResources 1000 false workerWorld))
     = [ ListConfigMaps; ListPods;
         DeleteConfigMap "shop" "worker-certs";
         DeleteConfigMap "shop" "worker-env";
         DeleteConfigMap "shop" "worker-init" ].
Proof.
  split; [|split; [|split]].
  - apply (bool_decide_unpack _). vm_compute. exact I.
  - vm_compute. reflexivity.
  - eexists. split; vm_compute; reflexivity.
  - vm_compute. reflexivity.
Qed.

(** C8.  When both list requests succeed, the pod entries among the
    flagged recommendations name, in order and one each, the listed
    pods whose phase is Failed or Succeeded and whose age exceeds
    7 days. *)
Theorem flagged_pods_are_the_stale now dry w :
  listConfigMapsErr (cluster w) = None ->
  listPodsErr (cluster w) = None ->
  exists recs,
    fst (flagged now dry w) = Ok recs
    /\ List.map (fun r => (Namespace r, Name r)) (List.filter isPodRec recs)
       = List.map (fun p => (pod_Namespace p, pod_Name p))
           (filter (stale now) (store_pods (cluster w))).
Proof.
  intros Hc Hp. rewrite flagged_fst. unfold candidatesOf.
  rewrite Hc, Hp. eexists. split; [reflexivity|].
  unfold cleanupCandidates. rewrite List.filter_app.
  rewrite filter_map_none by reflexivity.
  rewrite filter_map_all by reflexivity.
  simpl. rewrite List.map_map. simpl.
  f_equal. apply filter_bool_decide. intros p _. apply oldTerminated_stale.
Qed.

Lemma flagged_pods_shop :
  exists recs,
    fst (flagged (10 * day) false shopWorld) = Ok recs
    /\ List.map (fun r => (Namespace r, Name r)) (List.filter isPodRec recs)
       = List.map (fun p => (pod_Namespace p, pod_Name p))
           (filter (stale (10 * day)) (store_pods (cluster shopWorld))).
Proof.
  apply (flagged_pods_are_the_stale (10 * day) false shopWorld); reflexivity.
Defined.

(** C4.  A dry run leaves the cluster as it was, sends no delete
    request and logs nothing; a second dry run on the cluster it left
    returns the same value and flags the same recommendations. *)
Theorem dry_run_is_idempotent now now' w :
  let first := CleanupUnusedResources now true w in
  let second := CleanupUnusedResources now' true (snd first) in
  cluster (snd first) = cluster w
  /\ List.filter isDelete (calls (snd first)) = List.filter isDelete (calls w)
  /\ logged (snd first) = logged w
  /\ fst second = fst first
  /\ cluster (snd second) = cluster w
  /\ fst (flagged now true (snd first)) = fst (flagged now true w).
Proof.
  cbv zeta. rewrite !CleanupUnusedResources_run. simpl.
  destruct (flagged_dry now w) as (Hcl & Hlog & Hcalls).
  destruct (flagged_dry now' (snd (flagged now true w))) as (Hcl' & _ & _).
  repeat split; try assumption.
  - rewrite !flagged_fst, Hcl. unfold candidatesOf.
    destruct (listConfigMapsErr (cluster w)); [reflexivity|].
    destruct (listPodsErr (cluster w)); reflexivity.
  - rewrite Hcl'. exact Hcl.
  - rewrite !flagged_fst, Hcl. reflexivity.
Qed.

(** C7.  In apply mode, when both list requests succeed, a delete
    request is sent for every flagged resource, in order, whichever of
    these requests the server refuses, and the function returns
    without error. *)
Theorem apply_mode_attempts_every_delete now w :
  listConfigMapsErr (cluster w) = None ->
  listPodsErr (cluster w) = None ->
  (exists recs, fst (CleanupUnusedResources now false w) = Ok recs)
  /\ fst (flagged now false w)
     = Ok (cleanupCandidates now (store_configMaps (cluster w))
                             (store_pods (cluster w)))
  /\ calls (snd (CleanupUnusedResources now false w))
     = calls w ++ [ListConfigMaps; ListPods]
       ++ List.map deleteCallOf
            (cleanupCandidates now (store_configMaps (cluster w))
                               (store_pods (cluster w))).
Proof.
  intros Hc Hp. rewrite CleanupUnusedResources_run. simpl.
  rewrite flagged_fst. unfold candidatesOf. rewrite Hc, Hp.
  split; [eauto|]. split; [reflexivity|].
  apply flagged_apply_calls; assumption.
Qed.

Lemma apply_mode_shop :
  (exists recs, fst (CleanupUnusedResources (10 * day) false shopWorld) = Ok recs)
  /\ fst (flagged (10 * day) false shopWorld)
     = Ok (cleanupCandidates (10 * day) (store_configMaps (cluster shopWorld))
                             (store_pods (cluster shopWorld)))
  /\ calls (snd (CleanupUnusedResources (10 * day) false shopWorld))
     = calls shopWorld ++ [ListConfigMaps; ListPods]
       ++ List.map deleteCallOf
            (cleanupCandidates (10 * day) (store_configMaps (cluster shopWorld))
                               (store_pods (cluster shopWorld))).
Proof.
  apply (apply_mode_attempts_every_delete (10 * day) shopWorld); reflexivity.
Defined.

(** C6, as the code has it.  The report is the same for every cluster:
    no savings, no recommendation, no error. *)
Theorem optimization_report_is_empty o :
  GenerateOptimizationReport o
  = ({| PotentialSavings := 0%Q; Recommendations := [] |}, None).
Proof. reflexivity. Qed.

(** A node whose usage is below every positive threshold, and the
    report has no recommendation for it. *)
Lemma idle_node_gets_no_recommendation :
  (forall t, 0 < t -> lowUtilization t idleOptimizer idleNode)
  /\ Recommendations (fst (GenerateOptimizationReport idleOptimizer)) = [].
Proof.
  split; [|reflexivity].
  intros t Ht. split; [left; reflexivity|].
  eexists. split; [left; reflexivity|]. simpl. split; [reflexivity|]. lia.
Qed.

(** *** Further properties of the cleanup *)

Lemma flagged_calls now dry w :
  calls (snd (flagged now dry w)) = calls w ++ requestsOf now dry (cluster w).
Proof.
  unfold requestsOf. run_lists; try reflexivity.
  - rewrite <- app_assoc. reflexivity.
  - destruct dry.
    + rewrite sweepPods_dry, sweepConfigMaps_dry.
      cbn [fst snd listed cluster calls logged].
      rewrite <- app_assoc. reflexivity.
    + rewrite sweepPods_calls, sweepConfigMaps_calls.
      cbn [fst snd listed cluster calls logged].
      unfold cleanupCandidates. rewrite List.map_app, <- !app_assoc. reflexivity.
Qed.

(** The requests of a run, in order: the ConfigMap list, the pod list
    only if the first was answered, and, in apply mode only and only
    if both were answered, one delete request per recommendation,
    ConfigMaps first, each group in the order of its list. *)
Theorem cleanup_sends_these_requests now dry w :
  calls (snd (CleanupUnusedResources now dry w))
  = calls w ++ requestsOf now dry (cluster w).
Proof. rewrite CleanupUnusedResources_run. apply flagged_calls. Qed.

(** When the ConfigMap list cannot be read, the run stops there in
    either mode: the error is wrapped, the pods are not listed,
    nothing is deleted or logged. *)
Theorem configmap_list_failure_stops_the_run now dry w e :
  listConfigMapsErr (cluster w) = Some e ->
  CleanupUnusedResources now dry w
  = (Err ("failed to list configmaps: " +:+ e),
     {| cluster := cluster w; calls := calls w ++ [ListConfigMaps];
        logged := logged w |}).
Proof.
  intros E. unfold CleanupUnusedResources, flagged.
  rewrite !bind_run, ConfigMaps_List_run, E. reflexivity.
Qed.

Lemma configmap_list_failure_sample :
  CleanupUnusedResources 0 false
    {| cluster := {| store_nodes := []; store_configMaps := [orphanConfigMap];
                     store_pods := []; listConfigMapsErr := Some "forbidden";
                     listPodsErr := None; deleteErr := noFailure |};
       calls := []; logged := [] |}
  = (Err "failed to list configmaps: forbidden",
     {| cluster := {| store_nodes := []; store_configMaps := [orphanConfigMap];
                      store_pods := []; listConfigMapsErr := Some "forbidden";
                      listPodsErr := None; deleteErr := noFailure |};
        calls := [ListConfigMaps]; logged := [] |}).
Proof.
  apply (configmap_list_failure_stops_the_run 0 false
           {| cluster := {| store_nodes := []; store_configMaps := [orphanConfigMap];
                            store_pods := []; listConfigMapsErr := Some "forbidden";
                            listPodsErr := None; deleteErr := noFailure |};
              calls := []; logged := [] |} "forbidden").
  reflexivity.
Defined.

(** When the pod list cannot be read, the run stops after the two
    list requests in either mode: although the unused ConfigMaps
    could not be told without the pods, none is deleted. *)
Theorem pod_list_failure_stops_the_run now dry w e :
  listConfigMapsErr (cluster w) = None ->
  listPodsErr (cluster w) = Some e ->
  CleanupUnusedResources now dry w
  = (Err ("failed to list pods: " +:+ e),
     {| cluster := cluster w; calls := (calls w ++ [ListConfigMaps]) ++ [ListPods];
        logged := logged w |}).
Proof.
  intros Ec Ep. unfold CleanupUnusedResources, flagged.
  rewrite !bind_run, ConfigMaps_List_run, Ec. cbn [fst snd].
  rewrite !bind_run, Pods_List_run. cbn [fst snd listed cluster].
  rewrite Ep. reflexivity.
Qed.

Lemma pod_list_failure_sample :
  CleanupUnusedResources 0 false
    {| cluster := {| store_nodes := []; store_configMaps := [orphanConfigMap];
                     store_pods := []; listConfigMapsErr := None;
                     listPodsErr := Some "timeout"; deleteErr := noFailure |};
       calls := []; logged := [] |}
  = (Err "failed to list pods: timeout",
     {| cluster := {| store_nodes := []; store_configMaps := [orphanConfigMap];
                      store_pods := []; listConfigMapsErr := None;
                      listPodsErr := Some "timeout"; deleteErr := noFailure |};
        calls := [ListConfigMaps; ListPods]; logged := [] |}).
Proof.
  apply (pod_list_failure_stops_the_run 0 false
           {| cluster := {| store_nodes := []; store_configMaps := [orphanConfigMap];
                            store_pods := []; listConfigMapsErr := None;
                            listPodsErr := Some "timeout"; deleteErr := noFailure |};
              calls := []; logged := [] |} "timeout"); reflexivity.
Defined.

Lemma references_podMarks p cm :
  pod_Namespace p = cm_Namespace cm -> referencesDirectly p cm ->
  podMarks (keyOf cm) p.
Proof.
  intros E [Hv|Hc]; unfold podMarks, keyOf; rewrite E.
  - left. eapply Exists_impl; [exact Hv|].
    intros v Hr. exists (cm_Name cm). split; [exact Hr|reflexivity].
  - right. eapply Exists_impl; [exact Hc|].
    intros c He. eapply Exists_impl; [exact He|].
    intros e Hr. exists (cm_Name cm). split; [exact Hr|reflexivity].
Qed.

Lemma notInUse_is_unused pods cm :
  notInUse (markPods pods ∅) cm = true -> unusedDirectly pods cm.
Proof.
  unfold notInUse, unusedDirectly.
  rewrite negb_true_iff, <- not_true_iff_false, markPods_inUse, inUse_empty.
  intros H. apply Forall_forall. intros p Hin [E Hr]. apply H. right.
  apply Exists_exists. exists p. split; [exact Hin|].
  apply references_podMarks; assumption.
Qed.

Lemma delete_request_origin now dry c call :
  In call (requestsOf now dry c) ->
  isDelete call = true ->
  dry = false
  /\ exists r, In r (cleanupCandidates now (store_configMaps c) (store_pods c))
               /\ deleteCallOf r = call.
Proof.
  unfold requestsOf. intros Hin Hd.
  destruct (listConfigMapsErr c).
  { destruct Hin as [<-|[]]. discriminate. }
  destruct (listPodsErr c).
  { destruct Hin as [<-|[<-|[]]]; discriminate. }
  destruct Hin as [<-|[<-|Hin]]; try discriminate.
  destruct dry; [destruct Hin|]. split; [reflexivity|].
  apply in_map_iff in Hin as (r & E & Hr). eauto.
Qed.

(** A request to delete a ConfigMap is sent in apply mode only, and
    only for a listed ConfigMap that no listed pod of its namespace
    names as the ConfigMap source of one of its [Spec.Volumes] or in
    the [ValueFrom.ConfigMapKeyRef] of an [Env] variable of one of its
    [Spec.Containers]: a ConfigMap named in one of these two places is
    never the object of a delete request. *)
Theorem configmap_deleted_only_if_unused now dry w ns name :
  In (DeleteConfigMap ns name) (calls (snd (CleanupUnusedResources now dry w))) ->
  In (DeleteConfigMap ns name) (calls w)
  \/ (dry = false
      /\ exists cm, In cm (store_configMaps (cluster w))
                    /\ cm_Namespace cm = ns /\ cm_Name cm = name
                    /\ unusedDirectly (store_pods (cluster w)) cm).
Proof.
  rewrite CleanupUnusedResources_run. cbn [snd]. rewrite flagged_calls.
  intros Hin. apply in_app_or in Hin as [Hin|Hin]; [left; exact Hin|right].
  apply delete_request_origin in Hin as (-> & r & Hr & E); [|reflexivity].
  split; [reflexivity|].
  unfold cleanupCandidates in Hr. apply in_app_or in Hr as [Hr|Hr];
    apply in_map_iff in Hr as (x & <- & Hx).
  - injection E as <- <-. apply List.filter_In in Hx as [Hx Hu].
    exists x. repeat split; try assumption.
    apply notInUse_is_unused. exact Hu.
  - discriminate.
Qed.

Lemma configmap_deleted_sample :
  In (DeleteConfigMap "shop" "legacy") (calls shopWorld)
  \/ (false = false
      /\ exists cm, In cm (store_configMaps (cluster shopWorld))
                    /\ cm_Namespace cm = "shop" /\ cm_Name cm = "legacy"
                    /\ unusedDirectly (store_pods (cluster shopWorld)) cm).
Proof.
  apply (configmap_deleted_only_if_unused (10 * day) false shopWorld "shop" "legacy").
  vm_compute. auto.
Defined.

(** When both list requests succeed and no namespace contains a
    slash, the ConfigMap entries among the flagged recommendations
    name, in order and one each, the listed ConfigMaps that no listed
    pod of their namespace names in one of the two places the loops
    read. *)
Theorem flagged_configmaps_read_two_places now dry w :
  listConfigMapsErr (cluster w) = None ->
  listPodsErr (cluster w) = None ->
  validNamespaces (cluster w) ->
  exists recs,
    fst (flagged now dry w) = Ok recs
    /\ List.map (fun r => (Namespace r, Name r)) (List.filter isConfigMapRec recs)
       = List.map (fun cm => (cm_Namespace cm, cm_Name cm))
           (filter (unusedDirectly (store_pods (cluster w)))
                   (store_configMaps (cluster w))).
Proof.
  intros Hc Hp [Vp Vc]. rewrite flagged_fst. unfold candidatesOf.
  rewrite Hc, Hp. eexists. split; [reflexivity|].
  unfold cleanupCandidates. rewrite List.filter_app.
  rewrite filter_map_all by reflexivity.
  rewrite filter_map_none by reflexivity.
  rewrite app_nil_r, List.map_map. simpl. f_equal.
  apply filter_bool_decide. intros cm Hin.
  apply notInUse_unused; [exact Vp|].
  rewrite Forall_forall in Vc. apply Vc. apply list_elem_of_In. exact Hin.
Qed.

Lemma flagged_configmaps_shop :
  exists recs,
    fst (flagged (10 * day) true shopWorld) = Ok recs
    /\ List.map (fun r => (Namespace r, Name r)) (List.filter isConfigMapRec recs)
       = List.map (fun cm => (cm_Namespace cm, cm_Name cm))
           (filter (unusedDirectly (store_pods (cluster shopWorld)))
                   (store_configMaps (cluster shopWorld))).
Proof.
  apply (flagged_configmaps_read_two_places (10 * day) true shopWorld).
  - reflexivity.
  - reflexivity.
  - split; repeat constructor.
Defined.

(** A pod is the object of a delete request in apply mode only, and
    only if it is listed with phase Failed or Succeeded and is older
    than 7 days: running, pending and recent pods are never deleted. *)
Theorem pod_deleted_only_if_stale now dry w ns name :
  In (DeletePod ns name) (calls (snd (CleanupUnusedResources now dry w))) ->
  In (DeletePod ns name) (calls w)
  \/ (dry = false
      /\ exists p, In p (store_pods (cluster w))
                   /\ pod_Namespace p = ns /\ pod_Name p = name
                   /\ stale now p).
Proof.
  rewrite CleanupUnusedResources_run. cbn [snd]. rewrite flagged_calls.
  intros Hin. apply in_app_or in Hin as [Hin|Hin]; [left; exact Hin|right].
  apply delete_request_origin in Hin as (-> & r & Hr & E); [|reflexivity].
  split; [reflexivity|].
  unfold cleanupCandidates in Hr. apply in_app_or in Hr as [Hr|Hr];
    apply in_map_iff in Hr as (x & <- & Hx).
  - discriminate.
  - injection E as <- <-. apply List.filter_In in Hx as [Hx Hs].
    exists x. repeat split; try assumption.
    + apply oldTerminated_stale in Hs. apply Hs.
    + apply oldTerminated_stale in Hs. apply Hs.
Qed.

Lemma pod_deleted_sample :
  In (DeletePod "shop" "migrate-1") (calls shopWorld)
  \/ (false = false
      /\ exists p, In p (store_pods (cluster shopWorld))
                   /\ pod_Namespace p = "shop" /\ pod_Name p = "migrate-1"
                   /\ stale (10 * day) p).
Proof.
  apply (pod_deleted_only_if_stale (10 * day) false shopWorld "shop" "migrate-1").
  vm_compute. auto 10.
Defined.

(** *** What a run logs and what it leaves in the store *)

Lemma applyConfigMap_logged cm w :
  length (logged (snd (applyConfigMap false cm w))) = S (length (logged w)).
Proof.
  unfold applyConfigMap, ConfigMaps_Delete, bind, call, getCluster, setCluster,
    log_Printf, ret. simpl.
  destruct (deleteErr (cluster w) _ _ _); [|destruct (existsb _ _)];
    simpl; rewrite length_app; simpl; lia.
Qed.

Lemma applyPod_logged pod w :
  length (logged (snd (applyPod false pod w))) = S (length (logged w)).
Proof.
  unfold applyPod, Pods_Delete, bind, call, getCluster, setCluster,
    log_Printf, ret. simpl.
  destruct (deleteErr (cluster w) _ _ _); [|destruct (existsb _ _)];
    simpl; rewrite length_app; simpl; lia.
Qed.

Lemma sweepConfigMaps_logged now m items recs w :
  length (logged (snd (sweepConfigMaps now false m items recs w)))
  = (length (logged w) + length (List.filter (notInUse m) items))%nat.
Proof.
  revert recs w. induction items as [|cm items IH]; intros recs w; simpl.
  - lia.
  - unfold notInUse at 1, keyOf.
    destruct (negb _); [|apply IH].
    rewrite bind_run, IH, applyConfigMap_logged. simpl. lia.
Qed.

Lemma sweepPods_logged now items recs w :
  length (logged (snd (sweepPods now false items recs w)))
  = (length (logged w) + length (List.filter (oldTerminated now) items))%nat.
Proof.
  revert recs w. induction items as [|pod items IH]; intros recs w; simpl.
  - lia.
  - unfold oldTerminated at 1.
    destruct (_ || _); simpl; [|apply IH].
    destruct (_ >? _); [|apply IH].
    rewrite bind_run, IH, applyPod_logged. simpl. lia.
Qed.

Lemma filter_isDelete_deletes (recs : list CleanupRecommendation) :
  List.filter isDelete (List.map deleteCallOf recs) = List.map deleteCallOf recs.
Proof.
  apply filter_map_all. intros r. unfold deleteCallOf.
  destruct (String.eqb _ _); reflexivity.
Qed.

(** A run logs one line per delete request it sends, whether the
    request succeeds or is refused, and nothing else: in particular
    a dry run and a run that cannot list log nothing. *)
Theorem one_log_line_per_delete_request now dry w :
  length (logged (snd (CleanupUnusedResources now dry w)))
  = (length (logged w)
     + length (List.filter isDelete (requestsOf now dry (cluster w))))%nat.
Proof.
  rewrite CleanupUnusedResources_run. cbn [snd]. unfold requestsOf.
  run_lists; simpl; try lia.
  destruct dry.
  - rewrite sweepPods_dry, sweepConfigMaps_dry. simpl. lia.
  - rewrite sweepPods_logged, sweepConfigMaps_logged.
    cbn [fst snd listed cluster calls logged].
    rewrite filter_isDelete_deletes. unfold cleanupCandidates.
    rewrite !length_map, length_app, !length_map. lia.
Qed.

Lemma filter_filter_and {A} (f g : A -> bool) (l : list A) :
  List.filter f (List.filter g l) = List.filter (fun x => g x && f x) l.
Proof.
  induction l as [|x l IH]; simpl; [reflexivity|].
  destruct (g x); simpl; [destruct (f x)|]; rewrite ?IH; reflexivity.
Qed.

Lemma filter_none_matching {A} (f : A -> bool) (l : list A) :
  existsb f l = false -> List.filter (fun x => negb (f x)) l = l.
Proof.
  induction l as [|x l IH]; simpl; [reflexivity|].
  intros E. apply orb_false_iff in E as [-> E]. simpl. rewrite IH; auto.
Qed.

Lemma applyConfigMap_cluster cm w :
  noRefusal (cluster w) ->
  let c' := cluster (snd (applyConfigMap false cm w)) in
  store_configMaps c'
  = List.filter (fun x => negb (sameConfigMap (cm_Namespace cm) (cm_Name cm) x))
                (store_configMaps (cluster w))
  /\ store_pods c' = store_pods (cluster w)
  /\ deleteErr c' = deleteErr (cluster w).
Proof.
  intros Hno. unfold applyConfigMap, ConfigMaps_Delete, bind, call, getCluster,
    setCluster, log_Printf, ret. simpl. rewrite Hno.
  destruct (existsb _ _) eqn:E; simpl; [auto|].
  rewrite filter_none_matching by exact E. auto.
Qed.

Lemma applyPod_cluster pod w :
  noRefusal (cluster w) ->
  let c' := cluster (snd (applyPod false pod w)) in
  store_pods c'
  = List.filter (fun x => negb (samePod (pod_Namespace pod) (pod_Name pod) x))
                (store_pods (cluster w))
  /\ store_configMaps c' = store_configMaps (cluster w)
  /\ deleteErr c' = deleteErr (cluster w).
Proof.
  intros Hno. unfold applyPod, Pods_Delete, bind, call, getCluster,
    setCluster, log_Printf, ret. simpl. rewrite Hno.
  destruct (existsb _ _) eqn:E; simpl; [auto|].
  rewrite filter_none_matching by exact E. auto.
Qed.

Lemma sweepConfigMaps_cluster now m items recs w :
  noRefusal (cluster w) ->
  let c' := cluster (snd (sweepConfigMaps now false m items recs w)) in
  store_configMaps c'
  = List.filter
      (fun x => negb (existsb
                        (fun it => notInUse m it
                                   && sameConfigMap (cm_Namespace it) (cm_Name it) x)
                        items))
      (store_configMaps (cluster w))
  /\ store_pods c' = store_pods (cluster w)
  /\ deleteErr c' = deleteErr (cluster w).
Proof.
  revert recs w. induction items as [|cm items IH]; intros recs w Hno; cbn zeta.
  - simpl. split; [|auto].
    induction (store_configMaps (cluster w)) as [|x l IHl]; simpl; congruence.
  - assert (Hstep : sweepConfigMaps now false m (cm :: items) recs w
                    = if notInUse m cm
                      then bind (applyConfigMap false cm)
                             (fun _ => sweepConfigMaps now false m items
                                         (recs ++ [configMapRec now cm])) w
                      else sweepConfigMaps now false m items recs w).
    { simpl. unfold notInUse, keyOf. destruct (negb _); reflexivity. }
    rewrite Hstep. clear Hstep.
    destruct (notInUse m cm) eqn:Hflag.
    + rewrite bind_run.
      destruct (applyConfigMap_cluster cm w Hno) as (Hc & Hp & Hd).
      cbn zeta in Hc, Hp, Hd.
      assert (Hno' : noRefusal (cluster (snd (applyConfigMap false cm w)))).
      { intros k a b. rewrite Hd. apply Hno. }
      destruct (IH (recs ++ [configMapRec now cm])
                   (snd (applyConfigMap false cm w)) Hno') as (IHc & IHp & IHd).
      cbn zeta in IHc, IHp, IHd. rewrite IHc, IHp, IHd, Hc, Hp, Hd.
      split; [|auto]. rewrite filter_filter_and.
      apply List.filter_ext. intros x. simpl.
      rewrite Hflag. simpl. rewrite negb_orb. reflexivity.
    + destruct (IH recs w Hno) as (IHc & IHp & IHd).
      cbn zeta in IHc, IHp, IHd. rewrite IHc, IHp, IHd.
      split; [|auto]. apply List.filter_ext. intros x. simpl.
      rewrite Hflag. reflexivity.
Qed.

Lemma sweepPods_cluster now items recs w :
  noRefusal (cluster w) ->
  let c' := cluster (snd (sweepPods now false items recs w)) in
  store_pods c'
  = List.filter
      (fun x => negb (existsb
                        (fun it => oldTerminated now it
                                   && samePod (pod_Namespace it) (pod_Name it) x)
                        items))
      (store_pods (cluster w))
  /\ store_configMaps c' = store_configMaps (cluster w)
  /\ deleteErr c' = deleteErr (cluster w).
Proof.
  revert recs w. induction items as [|pod items IH]; intros recs w Hno; cbn zeta.
  - simpl. split; [|auto].
    induction (store_pods (cluster w)) as [|x l IHl]; simpl; congruence.
  - assert (Hstep : sweepPods now false (pod :: items) recs w
                    = if oldTerminated now pod
                      then bind (applyPod false pod)
                             (fun _ => sweepPods now false items
                                         (recs ++ [stalePodRec now pod])) w
                      else sweepPods now false items recs w).
    { simpl. unfold oldTerminated.
      destruct (_ || _); simpl; [|reflexivity].
      destruct (_ >? _); reflexivity. }
    rewrite Hstep. clear Hstep.
    destruct (oldTerminated now pod) eqn:Hflag.
    + rewrite bind_run.
      destruct (applyPod_cluster pod w Hno) as (Hp & Hc & Hd).
      cbn zeta in Hc, Hp, Hd.
      assert (Hno' : noRefusal (cluster (snd (applyPod false pod w)))).
      { intros k a b. rewrite Hd. apply Hno. }
      destruct (IH (recs ++ [stalePodRec now pod])
                   (snd (applyPod false pod w)) Hno') as (IHp & IHc & IHd).
      cbn zeta in IHc, IHp, IHd. rewrite IHc, IHp, IHd, Hc, Hp, Hd.
      split; [|auto]. rewrite filter_filter_and.
      apply List.filter_ext. intros x. simpl.
      rewrite Hflag. simpl. rewrite negb_orb. reflexivity.
    + destruct (IH recs w Hno) as (IHp & IHc & IHd).
      cbn zeta in IHc, IHp, IHd. rewrite IHc, IHp, IHd.
      split; [|auto]. apply List.filter_ext. intros x. simpl.
      rewrite Hflag. reflexivity.
Qed.

(** In apply mode, when both lists are answered and no delete request
    is refused, the run leaves in the store exactly the ConfigMaps
    whose key is in the in-use map and the pods that are not stale:
    every flagged object is gone and nothing else is. *)
Theorem apply_removes_exactly_the_flagged now w :
  listConfigMapsErr (cluster w) = None ->
  listPodsErr (cluster w) = None ->
  noRefusal (cluster w) ->
  uniquePods (store_pods (cluster w)) ->
  let c' := cluster (snd (CleanupUnusedResources now false w)) in
  store_configMaps c'
  = List.filter (fun cm => inUse (markPods (store_pods (cluster w)) ∅) (keyOf cm))
                (store_configMaps (cluster w))
  /\ store_pods c' = filter (fun p => ~ stale now p) (store_pods (cluster w)).
Proof.
  intros Hc Hp Hno Huniq. cbn zeta.
  rewrite CleanupUnusedResources_run. cbn [snd].
  unfold flagged.
  rewrite bind_run, ConfigMaps_List_run, Hc. cbn [fst snd].
  rewrite bind_run, Pods_List_run. cbn [fst snd listed cluster]. rewrite Hp.
  rewrite !bind_run. unfold ret. cbn [snd].
  set (w0 := listed ListPods (listed ListConfigMaps w)).
  set (m := markPods (store_pods (cluster w)) ∅).
  assert (Hno0 : noRefusal (cluster w0)) by exact Hno.
  destruct (sweepConfigMaps_cluster now m (store_configMaps (cluster w)) [] w0 Hno0)
    as (Sc & Sp & Sd). cbn zeta in Sc, Sp, Sd.
  set (w1 := snd (sweepConfigMaps now false m (store_configMaps (cluster w)) [] w0))
    in *.
  assert (Hno1 : noRefusal (cluster w1)).
  { intros k a b. rewrite Sd. apply Hno0. }
  destruct (sweepPods_cluster now (store_pods (cluster w))
              (fst (sweepConfigMaps now false m (store_configMaps (cluster w)) [] w0))
              w1 Hno1) as (Pp & Pc & Pd). cbn zeta in Pp, Pc, Pd.
  rewrite Pp, Pc, Sc, Sp. change (cluster w0) with (cluster w). split.
  - apply List.filter_ext_in. intros x Hx.
    destruct (inUse m (keyOf x)) eqn:Hu.
    + apply negb_true_iff, not_true_iff_false. intros Hex.
      apply existsb_exists in Hex as (it & Hit & Hand).
      apply andb_true_iff in Hand as [Hflag Hsame].
      unfold sameConfigMap in Hsame. apply andb_true_iff in Hsame as [E1 E2].
      apply String.eqb_eq in E1, E2.
      unfold notInUse, keyOf in Hflag. unfold keyOf in Hu.
      rewrite <- E1, <- E2, Hu in Hflag. discriminate.
    + apply negb_false_iff, existsb_exists. exists x. split; [exact Hx|].
      unfold notInUse. rewrite Hu. simpl.
      unfold sameConfigMap. rewrite !String.eqb_refl. reflexivity.
  - apply filter_bool_decide. intros x Hx.
    rewrite negb_true_iff, <- not_true_iff_false.
    split; intros Hn Hs; apply Hn.
    + apply existsb_exists. exists x. split; [exact Hx|].
      apply oldTerminated_stale in Hs. rewrite Hs. simpl.
      unfold samePod. rewrite !String.eqb_refl. reflexivity.
    + apply existsb_exists in Hs as (it & Hit & Hand).
      apply andb_true_iff in Hand as [Hflag Hsame].
      unfold samePod in Hsame. apply andb_true_iff in Hsame as [E1 E2].
      apply String.eqb_eq in E1, E2.
      assert (x = it) as -> by (apply Huniq; auto).
      apply oldTerminated_stale. exact Hflag.
Qed.

Lemma apply_removes_flagged_shop :
  let c' := cluster (snd (CleanupUnusedResources (10 * day) false openShopWorld)) in
  store_configMaps c'
  = List.filter
      (fun cm => inUse (markPods (store_pods (cluster openShopWorld)) ∅) (keyOf cm))
      (store_configMaps (cluster openShopWorld))
  /\ store_pods c'
     = filter (fun p => ~ stale (10 * day) p) (store_pods (cluster openShopWorld)).
Proof.
  apply (apply_removes_exactly_the_flagged (10 * day) openShopWorld).
  - reflexivity.
  - reflexivity.
  - intros kind ns name. reflexivity.
  - intros p q Hp Hq E1 E2. simpl in Hp, Hq.
    destruct Hp as [<-|[<-|[<-|[]]]]; destruct Hq as [<-|[<-|[<-|[]]]];
      try reflexivity; discriminate.
Defined.

(** *** The map of ConfigMaps in use *)

(** The verdict on a ConfigMap depends on which pods are listed, not
    on their order or number of occurrences, and listing more pods
    never flags more ConfigMaps. *)
Theorem more_pods_flag_fewer_configmaps (pods pods' : list Pod) (cm : ConfigMap) :
  (forall p, In p pods -> In p pods') ->
  notInUse (markPods pods' ∅) cm = true ->
  notInUse (markPods pods ∅) cm = true.
Proof.
  intros Hincl. unfold notInUse.
  rewrite !negb_true_iff, <- !not_true_iff_false, !markPods_inUse, !inUse_empty.
  intros Hn [E|Hex]; [discriminate|]. apply Hn. right.
  apply Exists_exists in Hex as (p & Hp & Hm). apply Exists_exists.
  exists p. split; [|exact Hm].
  apply list_elem_of_In, Hincl, list_elem_of_In. exact Hp.
Qed.

Lemma more_pods_flag_fewer_sample :
  notInUse (markPods [oldJob; webPod] ∅)
           {| cm_Namespace := "shop"; cm_Name := "legacy"; cm_CreationTimestamp := 0 |}
  = true.
Proof.
  apply (more_pods_flag_fewer_configmaps [oldJob; webPod] [webPod; oldJob; freshJob]).
  - intros p Hp. simpl in *. tauto.
  - vm_compute. reflexivity.
Defined.

Lemma onlyTrue_insert m k : onlyTrue m -> onlyTrue (<[k := true]> m).
Proof.
  intros H k' v. rewrite lookup_insert.
  destruct (decide (k = k')); [congruence|apply H].
Qed.

Lemma onlyTrue_markVolumes ns vols m : onlyTrue m -> onlyTrue (markVolumes ns vols m).
Proof.
  unfold markVolumes. revert m. induction vols as [|v vols IH]; intros m H; simpl.
  - exact H.
  - apply IH. destruct (vol_ConfigMap v); [apply onlyTrue_insert|]; exact H.
Qed.

Lemma onlyTrue_markEnv ns envs m : onlyTrue m -> onlyTrue (markEnv ns envs m).
Proof.
  unfold markEnv. revert m. induction envs as [|e envs IH]; intros m H; simpl.
  - exact H.
  - apply IH. destruct (env_ValueFrom e) as [src|]; [|exact H].
    destruct (src_ConfigMapKeyRef src); [apply onlyTrue_insert|]; exact H.
Qed.

Lemma onlyTrue_markContainers ns ctrs m :
  onlyTrue m -> onlyTrue (markContainers ns ctrs m).
Proof.
  unfold markContainers. revert m. induction ctrs as [|c ctrs IH]; intros m H; simpl.
  - exact H.
  - apply IH, onlyTrue_markEnv, H.
Qed.

(** The in-use map is a set: it never holds [false], so a key is in
    use exactly when it is present. *)
Theorem in_use_map_is_a_set (pods : list Pod) (k : string) :
  (forall v, markPods pods ∅ !! k = Some v -> v = true)
  /\ (inUse (markPods pods ∅) k = true <-> is_Some (markPods pods ∅ !! k)).
Proof.
  assert (H : onlyTrue (markPods pods ∅)).
  { unfold markPods.
    assert (G : forall m, onlyTrue m ->
                onlyTrue (foldl (fun m pod =>
                                   markContainers (pod_Namespace pod) (pod_Containers pod)
                                     (markVolumes (pod_Namespace pod) (pod_Volumes pod) m))
                                m pods)).
    { induction pods as [|p pods IH]; intros m Hm; simpl; [exact Hm|].
      apply IH, onlyTrue_markContainers, onlyTrue_markVolumes, Hm. }
    apply G. intros k' v. rewrite lookup_empty. discriminate. }
  split; [apply H|]. unfold inUse.
  destruct (markPods pods ∅ !! k) as [v|] eqn:E; simpl.
  - rewrite (H k v E). split; eauto.
  - split; [discriminate|]. intros [v Hv]. discriminate.
Qed.

(** *** main *)

Lemma main_run formatFloat2 now mc w :
  main formatFloat2 now mc w
  = match fst (flagged now true w) with
    | Err e =>
        ((Fatal e,
          [ "Potential Monthly Savings: $" +:+ formatFloat2 0%Q +:+ newline;
            "Optimization Recommendations: 0" +:+ newline ]),
         snd (log_Printf e (snd (flagged now true w))))
    | Ok _ =>
        ((Finished,
          [ "Potential Monthly Savings: $" +:+ formatFloat2 0%Q +:+ newline;
            "Optimization Recommendations: 0" +:+ newline;
            newline +:+ "Cleanup Recommendations: 0" +:+ newline ]),
         snd (flagged now true w))
    end.
Proof.
  unfold main. rewrite bind_run. unfold getCluster at 1 2. cbn [fst snd].
  unfold GenerateOptimizationReport.
  rewrite bind_run, CleanupUnusedResources_run. cbn [fst snd].
  destruct (fst (flagged now true w)); reflexivity.
Qed.


(** When both lists are answered, [main] prints the same three lines
    for every cluster: no savings, no optimization recommendation and
    no cleanup recommendation, whatever the loops have flagged. *)
Theorem main_prints_no_recommendation formatFloat2 now mc w :
  listConfigMapsErr (cluster w) = None ->
  listPodsErr (cluster w) = None ->
  fst (main formatFloat2 now mc w)
  = (Finished,
     [ "Potential Monthly Savings: $" +:+ formatFloat2 0%Q +:+ newline;
       "Optimization Recommendations: 0" +:+ newline;
       newline +:+ "Cleanup Recommendations: 0" +:+ newline ]).
Proof.
  intros Hc Hp. rewrite main_run. cbn [fst].
  rewrite flagged_fst. unfold candidatesOf. rewrite Hc, Hp. reflexivity.
Qed.

Lemma main_prints_no_recommendation_shop :
  fst (main (fun _ => "0.00") (10 * day) {| store_nodeMetrics := [] |} shopWorld)
  = (Finished,
     [ "Potential Monthly Savings: $" +:+ "0.00" +:+ newline;
       "Optimization Recommendations: 0" +:+ newline;
       newline +:+ "Cleanup Recommendations: 0" +:+ newline ]).
Proof.
  apply (main_prints_no_recommendation (fun _ => "0.00") (10 * day)
           {| store_nodeMetrics := [] |} shopWorld); reflexivity.
Defined.

End OptimizerFacts.

(** ** The health package *)

Module HealthFacts.
Import Health.

(** *** checkPodHealth *)

Lemma countPhase_fields phase s :
  RestartingPods (countPhase phase s) = RestartingPods s
  /\ CrashLoopingPods (countPhase phase s) = CrashLoopingPods s.
Proof.
  unfold countPhase.
  repeat (destruct (String.eqb phase _); [split; reflexivity|]).
  split; reflexivity.
Qed.

Lemma scanContainers_fields pod statuses s :
  let s' := foldl (fun s containerStatus =>
                     noteCrashLoop pod containerStatus
                       (countRestarts containerStatus s)) s statuses in
  RestartingPods s'
  = Nat.iter (length (List.filter restarted statuses)) incr (RestartingPods s)
  /\ CrashLoopingPods s'
     = CrashLoopingPods s
       ++ List.map (fun _ => Sprintf_slash (pod_Namespace pod) (pod_Name pod))
            (List.filter inCrashLoop statuses).
Proof.
  revert s. induction statuses as [|c statuses IH]; intros s; cbn zeta.
  - simpl. rewrite app_nil_r. auto.
  - simpl foldl. destruct (IH (noteCrashLoop pod c (countRestarts c s))) as [IHr IHc].
    cbn zeta in IHr, IHc. rewrite IHr, IHc. clear IH IHr IHc.
    unfold noteCrashLoop, countRestarts. simpl List.filter.
    unfold restarted at 2, inCrashLoop at 2.
    destruct (cs_RestartCount c >? 5); destruct (cs_Waiting c) as [reason|];
      try destruct (String.eqb reason _); simpl;
      rewrite <- ?app_assoc, ?Nat.iter_swap; auto.
Qed.

Lemma iter_incr (n : nat) (z : Z) :
  0 <= z -> z + Z.of_nat n < 2 ^ 63 -> Nat.iter n incr z = z + Z.of_nat n.
Proof.
  revert z. induction n as [|n IH]; intros z Hz Hn.
  - simpl. lia.
  - rewrite Nat.iter_succ_r, IH.
    + unfold incr, wrap64. change (2 ^ 64) with (2 * 2 ^ 63).
      rewrite Z.mod_small; lia.
    + unfold incr, wrap64. change (2 ^ 64) with (2 * 2 ^ 63).
      rewrite Z.mod_small; lia.
    + unfold incr, wrap64. change (2 ^ 64) with (2 * 2 ^ 63).
      rewrite Z.mod_small; lia.
Qed.

(** What [checkPodHealth] reports in general: one count per container
    status restarted more than 5 times, and one list entry per
    container status in crash-loop back-off. *)
Lemma checkPodHealth_counts_containers cs status pods :
  Pods_List cs NamespaceAll everything = Ok pods ->
  Z.of_nat (length (restartedContainers pods)) < 2 ^ 63 ->
  RestartingPods status = 0 ->
  RestartingPods (fst (checkPodHealth cs status))
  = Z.of_nat (length (restartedContainers pods))
  /\ CrashLoopingPods (fst (checkPodHealth cs status)) = crashLoopEntries pods.
Proof.
  intros E Hn H0. unfold checkPodHealth. rewrite E. cbn [fst].
  set (s0 := {| TotalPods := len pods; RunningPods := RunningPods status;
                PendingPods := PendingPods status;
                SucceededPods := SucceededPods status;
                FailedPods := FailedPods status;
                UnknownPods := UnknownPods status;
                RestartingPods := RestartingPods status;
                PodsPerNode := ∅; CrashLoopingPods := [] |}).
  assert (Hgen : forall l s,
             RestartingPods (foldl scanPod s l)
             = Nat.iter (length (restartedContainers l)) incr (RestartingPods s)
             /\ CrashLoopingPods (foldl scanPod s l)
                = CrashLoopingPods s ++ crashLoopEntries l).
  { induction l as [|pod l IH]; intros s.
    - simpl. rewrite app_nil_r. auto.
    - simpl foldl. destruct (IH (scanPod s pod)) as [IHr IHc].
      rewrite IHr, IHc. clear IH IHr IHc.
      unfold scanPod, scanContainers.
      match goal with
      | |- context [foldl _ (countPhase ?ph ?s1) ?sts] =>
          destruct (scanContainers_fields pod sts (countPhase ph s1)) as [Hr Hc];
          destruct (countPhase_fields ph s1) as [Pr Pc]
      end.
      cbn zeta in Hr, Hc. rewrite Hr, Hc, Pr, Pc. simpl.
      unfold restartedContainers, crashLoopEntries. simpl.
      rewrite length_app, Nat.add_comm, Nat.iter_add, <- app_assoc. auto. }
  destruct (Hgen pods s0) as [Hr Hc]. rewrite Hr, Hc. simpl.
  rewrite H0. split; [|reflexivity].
  rewrite iter_incr; lia.
Qed.

(** C5 (the code departs from it).  For one pod with two containers,
    each restarted six times and each waiting in CrashLoopBackOff, the
    restarting-pod count is 2 and the crash-looping list names the pod
    twice, although one pod only has a container restarted more than
    5 times. *)
Theorem restarts_counted_per_container :
  let status := fst (checkPodHealth crashingCluster zeroPodHealthStatus) in
  TotalPods status = 1
  /\ restartingPodCount [crashingPod] = 1
  /\ RestartingPods status = 2
  /\ CrashLoopingPods status = ["prod/api-0"; "prod/api-0"].
Proof. vm_compute. auto. Qed.

(** *** checkNetworkHealth *)

Lemma reachesUnset_nil : ~ reachesUnset [].
Proof. intros (before & d & after & E & _). destruct before; discriminate. Qed.

Lemma reachesUnset_here d rest : dep_Replicas d = None -> reachesUnset (d :: rest).
Proof. intros E. exists [], d, rest. repeat split; [exact E|constructor]. Qed.

Lemma reachesUnset_cons d rest replicas :
  dep_Replicas d = Some replicas ->
  reachesUnset (d :: rest)
  <-> replicas <= dep_ReadyReplicas d /\ reachesUnset rest.
Proof.
  intros Hd. split.
  - intros (before & d' & after & E & Hn & Hall).
    destruct before as [|b before]; simpl in E; injection E as <- E.
    + congruence.
    + inversion Hall as [|? ? (r & Hr & Hle) Hall']; subst.
      split; [congruence|]. exists before, d', after. auto.
  - intros [Hle (before & d' & after & -> & Hn & Hall)].
    exists (d :: before), d', after. repeat split; [exact Hn|].
    constructor; [exists replicas; auto|exact Hall].
Qed.

Lemma allReplicasReady_run items log :
  snd (allReplicasReady items log) = log
  /\ ((exists msg, fst (allReplicasReady items log) = Panics msg)
      <-> reachesUnset items)
  /\ ((exists ready, fst (allReplicasReady items log) = Returns ready)
      <-> ~ reachesUnset items).
Proof.
  induction items as [|d rest IH]; simpl.
  - split; [reflexivity|]. split; split.
    + intros [msg E]. discriminate.
    + intros H. destruct (reachesUnset_nil H).
    + intros _. exact reachesUnset_nil.
    + intros _. eexists. reflexivity.
  - destruct (dep_Replicas d) as [replicas|] eqn:Hd.
    + rewrite (reachesUnset_cons d rest replicas Hd).
      destruct (dep_ReadyReplicas d <? replicas) eqn:Hlt.
      * apply Z.ltb_lt in Hlt. split; [reflexivity|]. split; split.
        -- intros [msg E]. discriminate.
        -- intros [Hle _]. lia.
        -- intros _ [Hle _]. lia.
        -- intros _. eexists. reflexivity.
      * apply Z.ltb_ge in Hlt. destruct IH as (IH1 & IH2 & IH3).
        split; [exact IH1|]. rewrite IH2, IH3. split; tauto.
    + split; [reflexivity|]. split; split.
      * intros _. apply reachesUnset_here. exact Hd.
      * intros _. eexists. reflexivity.
      * intros [ready E]. discriminate.
      * intros H. destruct H. apply reachesUnset_here. exact Hd.
Qed.

Lemma readOrLog_run {A B} (r : Result A) what (fallback : B) (f : A -> B) log :
  exists log',
    readOrLog r what fallback f log
    = (Returns (match r with Err _ => fallback | Ok x => f x end), log').
Proof. destruct r; eexists; reflexivity. Qed.

Lemma hbind_returns {A B} (m : H A) (k : A -> H B) log a log' :
  m log = (Returns a, log') -> hbind m k log = k a log'.
Proof. intros E. unfold hbind. rewrite E. reflexivity. Qed.

Lemma hbind_panics {A B} (m : H A) (k : A -> H B) log msg log' :
  m log = (Panics msg, log') -> hbind m k log = (Panics msg, log').
Proof. intros E. unfold hbind. rewrite E. reflexivity. Qed.

Lemma ingressStep_run cs log :
  ((exists msg log', ingressStep cs log = (Panics msg, log'))
   <-> ingressReachesUnset cs)
  /\ ((exists ready log', ingressStep cs log = (Returns ready, log'))
      <-> ~ ingressReachesUnset cs).
Proof.
  unfold ingressStep, ingressReachesUnset.
  destruct (Deployments_List cs ingressSelector) as [items|e].
  - assert (Hrun : forall l, (if len items =? 0 then hret true
                              else allReplicasReady items) l
                             = allReplicasReady items l).
    { intros l. destruct items; reflexivity. }
    rewrite Hrun.
    destruct (allReplicasReady_run items log) as (Hlog & Hp & Hr).
    destruct (allReplicasReady items log) as [out log0]. simpl in *.
    split; split.
    + intros (msg & log' & [= -> ->]). exists items. split; [reflexivity|].
      apply Hp. eauto.
    + intros (items' & [= <-] & Hu). apply Hp in Hu as [msg ->]. eauto.
    + intros (ready & log' & [= -> ->]) (items' & [= <-] & Hu).
      apply Hr in Hu; [exact Hu|eauto].
    + intros Hn. destruct out as [ready|msg]; [eauto|].
      exfalso. apply Hn. exists items. split; [reflexivity|]. apply Hp. eauto.
  - split; split.
    + intros (msg & log' & E). discriminate.
    + intros (items & E & _). discriminate.
    + intros _ (items & E & _). discriminate.
    + intros _. do 2 eexists. reflexivity.
Qed.

Lemma checkNetworkHealth_run cs status log :
  exists log1,
    match ingressStep cs log1 with
    | (Returns ingress, log2) =>
        exists log3,
          checkNetworkHealth cs status log
          = (Returns (networkWith cs status ingress, None), log3)
    | (Panics msg, log2) =>
        checkNetworkHealth cs status log = (Panics msg, log2)
    end.
Proof.
  unfold checkNetworkHealth.
  destruct (readOrLog_run (Pods_List cs "kube-system" cniSelector)
              "Failed to check CNI pods: " false allRunning log) as [l1 E1].
  rewrite (hbind_returns _ _ _ _ _ E1).
  destruct (readOrLog_run (Pods_List cs "kube-system" dnsSelector)
              "Failed to check CoreDNS pods: " false allRunning l1) as [l2 E2].
  rewrite (hbind_returns _ _ _ _ _ E2).
  destruct (readOrLog_run (Services_List cs)
              "Failed to list services: " false (allHaveEndpoints cs) l2) as [l3 E3].
  rewrite (hbind_returns _ _ _ _ _ E3).
  exists l3. destruct (ingressStep cs l3) as [[ingress|msg] l4] eqn:E4.
  - rewrite (hbind_returns _ _ _ _ _ E4).
    destruct (readOrLog_run (NetworkPolicies_List cs)
                "Failed to count network policies: "
                (NetworkPoliciesCount status) len l4) as [l5 E5].
    rewrite (hbind_returns _ _ _ _ _ E5).
    exists l5. reflexivity.
  - rewrite (hbind_panics _ _ _ _ _ E4). reflexivity.
Qed.

(** C10, amended.  [checkNetworkHealth] panics exactly when the list
    of ingress controllers is read and a deployment without
    [Spec.Replicas] comes before any deployment that is short of ready
    replicas; in every other case it returns a status and no error. *)
Theorem network_check_panics_iff_unset_reached cs status log :
  (ingressReachesUnset cs ->
   exists msg, fst (checkNetworkHealth cs status log) = Panics msg)
  /\ (~ ingressReachesUnset cs ->
      exists s, fst (checkNetworkHealth cs status log) = Returns (s, None)).
Proof.
  destruct (checkNetworkHealth_run cs status log) as [l1 Hrun].
  destruct (ingressStep_run cs l1) as [Hp Hr].
  destruct (ingressStep cs l1) as [[ingress|msg] l2].
  - destruct Hrun as [l3 ->]. split.
    + intros Hu. apply Hp in Hu as (m & l & [=]).
    + intros _. eexists. reflexivity.
  - rewrite Hrun. split.
    + intros _. eexists. reflexivity.
    + intros Hn. apply Hr in Hn as (r & l & [=]).
Qed.

Lemma network_check_panics_on_unset_first :
  exists msg,
    fst (checkNetworkHealth (withIngress [unsetIngress; shortIngress])
                            zeroNetworkStatus []) = Panics msg.
Proof.
  apply (proj1 (network_check_panics_iff_unset_reached
                  (withIngress [unsetIngress; shortIngress])
                  zeroNetworkStatus [])).
  exists [unsetIngress; shortIngress]. split; [reflexivity|].
  exists [], unsetIngress, [shortIngress].
  split; [reflexivity|]. split; [reflexivity|constructor].
Defined.

(** The listed deployments are not empty and one of them has no
    [Spec.Replicas], yet the check returns, because the loop stops at
    the deployment before it. *)
Lemma network_check_returns_despite_unset :
  Deployments_List (withIngress [shortIngress; unsetIngress]) ingressSelector
  = Ok [shortIngress; unsetIngress]
  /\ [shortIngress; unsetIngress] <> []
  /\ Exists (fun d => dep_Replicas d = None) [shortIngress; unsetIngress]
  /\ exists s,
       fst (checkNetworkHealth (withIngress [shortIngress; unsetIngress])
                               zeroNetworkStatus [])
       = Returns (s, None)
       /\ IngressHealthy s = false.
Proof.
  split; [reflexivity|]. split; [discriminate|]. split.
  - apply Exists_cons_tl, Exists_cons_hd. reflexivity.
  - eexists. split; reflexivity.
Qed.

Lemma allReplicasReady_fst items log log' :
  fst (allReplicasReady items log) = fst (allReplicasReady items log').
Proof.
  induction items as [|d rest IH]; simpl; [reflexivity|].
  destruct (dep_Replicas d); [|reflexivity].
  destruct (_ <? _); [reflexivity|exact IH].
Qed.

Lemma ingressStep_fst cs log log' :
  fst (ingressStep cs log) = fst (ingressStep cs log').
Proof.
  unfold ingressStep. destruct (Deployments_List cs ingressSelector); [|reflexivity].
  destruct (_ =? _); [reflexivity|apply allReplicasReady_fst].
Qed.

(** The outcome of the network check does not depend on what was
    logged before. *)
Lemma checkNetworkHealth_fst cs status log :
  fst (checkNetworkHealth cs status log)
  = match fst (ingressStep cs []) with
    | Returns ingress => Returns (networkWith cs status ingress, None)
    | Panics msg => Panics msg
    end.
Proof.
  destruct (checkNetworkHealth_run cs status log) as [l1 Hrun].
  rewrite (ingressStep_fst cs [] l1).
  destruct (ingressStep cs l1) as [[ingress|msg] l2]; simpl.
  - destruct Hrun as [l3 ->]. reflexivity.
  - rewrite Hrun. reflexivity.
Qed.

(** *** GetClusterHealth *)

Lemma checkNodeHealth_err cs status :
  match Nodes_List cs with
  | Err e => checkNodeHealth cs status = (status, Some ("failed to list nodes: " +:+ e))
  | Ok _ => snd (checkNodeHealth cs status) = None
  end.
Proof.
  unfold checkNodeHealth. destruct (Nodes_List cs); [|reflexivity].
  destruct (foldl _ _ _). reflexivity.
Qed.

Lemma checkPodHealth_err cs status :
  match Pods_List cs NamespaceAll everything with
  | Err e => checkPodHealth cs status = (status, Some ("failed to list pods: " +:+ e))
  | Ok _ => snd (checkPodHealth cs status) = None
  end.
Proof. unfold checkPodHealth. destruct (Pods_List cs NamespaceAll everything); reflexivity. Qed.

Lemma logFailure_run what err log :
  exists log', logFailure what err log = (Returns tt, log').
Proof. destruct err; eexists; reflexivity. Qed.

Section Evaluation.

Variable checkResourceUsage :
  Clientset -> MetricsClientset -> ResourceUsageStatus
  -> ResourceUsageStatus * option string.
Variable checkComponentStatuses :
  Clientset -> list ComponentStatus -> list ComponentStatus * option string.
Variable checkNamespaceHealth :
  Clientset -> MetricsClientset -> ClusterHealth
  -> ClusterHealth * option string.
Variable identifyHealthIssues : ClusterHealth -> ClusterHealth.
Variable score : ClusterHealth -> Z.

Let evaluate :=
  GetClusterHealth checkResourceUsage checkComponentStatuses
    checkNamespaceHealth identifyHealthIssues score.
Let built :=
  assembled checkResourceUsage checkComponentStatuses
    checkNamespaceHealth identifyHealthIssues score.

Lemma evaluate_node_failure now cs mc log e :
  Nodes_List cs = Err e ->
  evaluate now cs mc log
  = (Returns (Err ("node health check failed: "
                     +:+ ("failed to list nodes: " +:+ e))), log).
Proof.
  intros E. unfold evaluate, GetClusterHealth.
  pose proof (checkNodeHealth_err cs (NodeStatus (newClusterHealth now))) as Hn.
  rewrite E in Hn. rewrite Hn. reflexivity.
Qed.

Lemma evaluate_pod_failure now cs mc log e :
  isErr (Nodes_List cs) = false ->
  Pods_List cs NamespaceAll everything = Err e ->
  evaluate now cs mc log
  = (Returns (Err ("pod health check failed: "
                     +:+ ("failed to list pods: " +:+ e))), log).
Proof.
  intros En E. unfold evaluate, GetClusterHealth.
  pose proof (checkNodeHealth_err cs (NodeStatus (newClusterHealth now))) as Hn.
  destruct (Nodes_List cs); [|discriminate].
  destruct (checkNodeHealth cs _) as [ns err]. simpl in Hn. subst err.
  pose proof (checkPodHealth_err cs
                (PodStatus (setNodeStatus ns (newClusterHealth now)))) as Hp.
  rewrite E in Hp. rewrite Hp. reflexivity.
Qed.

Lemma evaluate_run now cs mc log :
  isErr (Nodes_List cs) = false ->
  isErr (Pods_List cs NamespaceAll everything) = false ->
  fst (evaluate now cs mc log)
  = match fst (ingressStep cs []) with
    | Returns ingress =>
        Returns (Ok (built now cs mc (networkWith cs zeroNetworkStatus ingress)))
    | Panics msg => Panics msg
    end.
Proof.
  intros En Ep. unfold evaluate, built, GetClusterHealth, assembled.
  pose proof (checkNodeHealth_err cs (NodeStatus (newClusterHealth now))) as Hn.
  destruct (Nodes_List cs); [|discriminate].
  destruct (checkNodeHealth cs _) as [ns err]. simpl in Hn. subst err.
  pose proof (checkPodHealth_err cs
                (PodStatus (setNodeStatus ns (newClusterHealth now)))) as Hp.
  destruct (Pods_List cs NamespaceAll everything); [|discriminate].
  cbn [fst].
  destruct (checkPodHealth cs _) as [ps err]. simpl in Hp. subst err.
  cbn [fst].
  destruct (checkControlPlaneHealth cs _) as [cps err1]. cbn [fst].
  destruct (logFailure_run "Control plane health check" err1 log) as [l1 E1].
  rewrite (hbind_returns _ _ _ _ _ E1).
  pose proof (checkNetworkHealth_fst cs
    (Network (setControlPlane cps
               (setPodStatus ps (setNodeStatus ns (newClusterHealth now))))) l1)
    as Hnet.
  destruct (checkNetworkHealth cs _ l1) as [[[net err2]|msg] l2] eqn:E2;
    simpl in Hnet.
  - rewrite (hbind_returns _ _ _ _ _ E2).
    destruct (fst (ingressStep cs [])) as [ingress|msg]; [|discriminate].
    injection Hnet as -> ->.
    destruct (logFailure_run "Network health check" None l2) as [l3 E3].
    rewrite (hbind_returns _ _ _ _ _ E3).
    destruct (checkResourceUsage cs mc _) as [rus err3]. cbn [fst].
    destruct (logFailure_run "Resource usage check" err3 l3) as [l4 E4].
    rewrite (hbind_returns _ _ _ _ _ E4).
    destruct (checkComponentStatuses cs _) as [comps err4]. cbn [fst].
    destruct (logFailure_run "Component status check" err4 l4) as [l5 E5].
    rewrite (hbind_returns _ _ _ _ _ E5).
    destruct (checkNamespaceHealth cs mc _) as [health err5]. cbn [fst].
    destruct (logFailure_run "Namespace health check" err5 l5) as [l6 E6].
    rewrite (hbind_returns _ _ _ _ _ E6).
    reflexivity.
  - rewrite (hbind_panics _ _ _ _ _ E2).
    destruct (fst (ingressStep cs [])) as [ingress|msg']; [discriminate|].
    injection Hnet as ->. reflexivity.
Qed.


(** C2 (the code departs from it).  The lists of nodes and of pods
    are read, and the ingress-controller list holds one deployment
    whose replica count is unset: the evaluation then neither returns
    an error nor produces a ClusterHealth.  The network check, whose
    failure is meant to leave partial data, panics on the unset
    count, and the panic ends the evaluation, whatever the
    resource-usage, component, namespace, issue and score passes
    would have done. *)
Theorem evaluation_panics_on_unset_replicas now mc log :
  isErr (Nodes_List (withIngress [unsetIngress])) = false
  /\ isErr (Pods_List (withIngress [unsetIngress]) NamespaceAll everything) = false
  /\ fst (evaluate now (withIngress [unsetIngress]) mc log) = Panics nilDereference
  /\ forall result,
       fst (evaluate now (withIngress [unsetIngress]) mc log) <> Returns result.
Proof.
  assert (E : fst (evaluate now (withIngress [unsetIngress]) mc log)
              = Panics nilDereference).
  { rewrite evaluate_run by reflexivity. reflexivity. }
  rewrite E. repeat split; try reflexivity. intros result [=].
Qed.

End Evaluation.


(** *** Further properties of checkPodHealth *)

Lemma restarts_counted_per_container_sample :
  RestartingPods (fst (checkPodHealth crashingCluster zeroPodHealthStatus))
  = Z.of_nat (length (restartedContainers [crashingPod]))
  /\ CrashLoopingPods (fst (checkPodHealth crashingCluster zeroPodHealthStatus))
     = crashLoopEntries [crashingPod].
Proof.
  apply (checkPodHealth_counts_containers crashingCluster zeroPodHealthStatus
           [crashingPod]).
  - reflexivity.
  - vm_compute. reflexivity.
  - reflexivity.
Defined.

Lemma scanContainers_frame pod s :
  let s' := scanContainers pod s in
  TotalPods s' = TotalPods s /\ RunningPods s' = RunningPods s
  /\ PendingPods s' = PendingPods s /\ SucceededPods s' = SucceededPods s
  /\ FailedPods s' = FailedPods s /\ UnknownPods s' = UnknownPods s
  /\ PodsPerNode s' = PodsPerNode s.
Proof.
  unfold scanContainers. revert s.
  induction (pod_ContainerStatuses pod) as [|c l IH]; intros s; cbn zeta.
  - simpl. repeat split.
  - simpl foldl.
    destruct (IH (noteCrashLoop pod c (countRestarts c s)))
      as (H1 & H2 & H3 & H4 & H5 & H6 & H7).
    cbn zeta in *. rewrite H1, H2, H3, H4, H5, H6, H7.
    unfold noteCrashLoop, countRestarts.
    destruct (cs_RestartCount c >? 5); destruct (cs_Waiting c) as [reason|];
      try destruct (String.eqb reason _); simpl; repeat split.
Qed.

(** One pod moves exactly one of the five phase counters. *)
Lemma scanPod_phase s pod :
  let s' := scanPod s pod in
  RunningPods s'
  = (if String.eqb (pod_Phase pod) PodRunning
     then incr (RunningPods s) else RunningPods s)
  /\ PendingPods s'
     = (if String.eqb (pod_Phase pod) PodPending
        then incr (PendingPods s) else PendingPods s)
  /\ SucceededPods s'
     = (if String.eqb (pod_Phase pod) PodSucceeded
        then incr (SucceededPods s) else SucceededPods s)
  /\ FailedPods s'
     = (if String.eqb (pod_Phase pod) PodFailed
        then incr (FailedPods s) else FailedPods s)
  /\ UnknownPods s'
     = (if negb (knownPhase (pod_Phase pod))
        then incr (UnknownPods s) else UnknownPods s).
Proof.
  cbn zeta. unfold scanPod.
  match goal with
  | |- context [scanContainers pod ?s0] =>
      destruct (scanContainers_frame pod s0) as (_ & H2 & H3 & H4 & H5 & H6 & _)
  end.
  cbn zeta in *. rewrite H2, H3, H4, H5, H6. clear.
  unfold countPhase, knownPhase.
  destruct (String.eqb (pod_Phase pod) PodRunning) eqn:E1.
  { apply String.eqb_eq in E1. rewrite E1. simpl. repeat split. }
  destruct (String.eqb (pod_Phase pod) PodPending) eqn:E2.
  { apply String.eqb_eq in E2. rewrite E2. simpl. repeat split. }
  destruct (String.eqb (pod_Phase pod) PodSucceeded) eqn:E3.
  { apply String.eqb_eq in E3. rewrite E3. simpl. repeat split. }
  destruct (String.eqb (pod_Phase pod) PodFailed) eqn:E4; simpl; repeat split.
Qed.

Lemma iter_if (b : bool) (n : nat) (z : Z) :
  Nat.iter n incr (if b then incr z else z)
  = Nat.iter (if b then S n else n) incr z.
Proof. destruct b; [|reflexivity]. simpl. apply Nat.iter_swap. Qed.

Lemma foldl_scanPod_phase pods s :
  let s' := foldl scanPod s pods in
  RunningPods s'
  = Nat.iter (length (podsInPhase PodRunning pods)) incr (RunningPods s)
  /\ PendingPods s'
     = Nat.iter (length (podsInPhase PodPending pods)) incr (PendingPods s)
  /\ SucceededPods s'
     = Nat.iter (length (podsInPhase PodSucceeded pods)) incr (SucceededPods s)
  /\ FailedPods s'
     = Nat.iter (length (podsInPhase PodFailed pods)) incr (FailedPods s)
  /\ UnknownPods s'
     = Nat.iter (length (podsInOtherPhase pods)) incr (UnknownPods s).
Proof.
  revert s. induction pods as [|pod pods IH]; intros s; cbn zeta.
  - simpl. repeat split.
  - simpl foldl. destruct (IH (scanPod s pod)) as (H1 & H2 & H3 & H4 & H5).
    destruct (scanPod_phase s pod) as (P1 & P2 & P3 & P4 & P5).
    cbn zeta in *. rewrite H1, H2, H3, H4, H5, P1, P2, P3, P4, P5.
    rewrite !iter_if. unfold podsInPhase, podsInOtherPhase. simpl List.filter.
    destruct (String.eqb (pod_Phase pod) PodRunning);
      destruct (String.eqb (pod_Phase pod) PodPending);
      destruct (String.eqb (pod_Phase pod) PodSucceeded);
      destruct (String.eqb (pod_Phase pod) PodFailed);
      destruct (negb (knownPhase (pod_Phase pod)));
      simpl; repeat split.
Qed.

Lemma phases_partition pods :
  (length (podsInPhase PodRunning pods) + length (podsInPhase PodPending pods)
   + length (podsInPhase PodSucceeded pods) + length (podsInPhase PodFailed pods)
   + length (podsInOtherPhase pods))%nat
  = length pods.
Proof.
  unfold podsInPhase, podsInOtherPhase, knownPhase.
  induction pods as [|pod pods IH]; simpl; [reflexivity|].
  destruct (String.eqb (pod_Phase pod) PodRunning) eqn:E1.
  { apply String.eqb_eq in E1. rewrite E1. simpl. lia. }
  destruct (String.eqb (pod_Phase pod) PodPending) eqn:E2.
  { apply String.eqb_eq in E2. rewrite E2. simpl. lia. }
  destruct (String.eqb (pod_Phase pod) PodSucceeded) eqn:E3.
  { apply String.eqb_eq in E3. rewrite E3. simpl. lia. }
  destruct (String.eqb (pod_Phase pod) PodFailed) eqn:E4; simpl; lia.
Qed.

Lemma foldl_scanPod_total pods s :
  TotalPods (foldl scanPod s pods) = TotalPods s.
Proof.
  revert s. induction pods as [|pod pods IH]; intros s; simpl; [reflexivity|].
  rewrite IH. unfold scanPod.
  match goal with
  | |- context [scanContainers pod ?s1] =>
      destruct (scanContainers_frame pod s1) as (F & _)
  end.
  cbn zeta in F. rewrite F. unfold countPhase.
  repeat (destruct (String.eqb _ _); [reflexivity|]). reflexivity.
Qed.

(** Starting from counters at 0, [checkPodHealth] counts each listed
    pod in exactly one of its five phase counters: the four named
    phases count their pods, every other phase (the empty one
    included) counts as unknown, and the five add up to the total. *)
Theorem pod_phases_partition_the_total cs status pods :
  Pods_List cs NamespaceAll everything = Ok pods ->
  len pods < 2 ^ 63 ->
  freshPodCounters status ->
  let s := fst (checkPodHealth cs status) in
  TotalPods s = len pods
  /\ RunningPods s = len (podsInPhase PodRunning pods)
  /\ PendingPods s = len (podsInPhase PodPending pods)
  /\ SucceededPods s = len (podsInPhase PodSucceeded pods)
  /\ FailedPods s = len (podsInPhase PodFailed pods)
  /\ UnknownPods s = len (podsInOtherPhase pods)
  /\ RunningPods s + PendingPods s + SucceededPods s + FailedPods s
     + UnknownPods s = TotalPods s.
Proof.
  intros E Hn (Z1 & Z2 & Z3 & Z4 & Z5). cbn zeta.
  unfold checkPodHealth. rewrite E. cbn [fst].
  match goal with
  | |- context [foldl scanPod ?s0 pods] =>
      destruct (foldl_scanPod_phase pods s0) as (H1 & H2 & H3 & H4 & H5);
      pose proof (foldl_scanPod_total pods s0) as HT
  end.
  cbn [TotalPods] in HT.
  cbn zeta in *. cbn [RunningPods PendingPods SucceededPods FailedPods UnknownPods]
    in H1, H2, H3, H4, H5.
  rewrite H1, H2, H3, H4, H5, HT, Z1, Z2, Z3, Z4, Z5.
  pose proof (phases_partition pods) as Hsum. unfold len in *.
  rewrite !iter_incr by lia. lia.
Qed.

Lemma pod_phases_sample :
  let s := fst (checkPodHealth threeNodeCluster zeroPodHealthStatus) in
  TotalPods s = 2
  /\ RunningPods s = 2 /\ PendingPods s = 0 /\ SucceededPods s = 0
  /\ FailedPods s = 0 /\ UnknownPods s = 0
  /\ RunningPods s + PendingPods s + SucceededPods s + FailedPods s
     + UnknownPods s = TotalPods s.
Proof.
  apply (pod_phases_partition_the_total threeNodeCluster zeroPodHealthStatus
           [runningPod "web-0" "node-a"; runningPod "web-1" "node-b"]).
  - reflexivity.
  - vm_compute. reflexivity.
  - repeat split.
Defined.

Lemma countOnNode_lookup nodeName m n :
  countOnNode nodeName m !! n
  = if negb (String.eqb nodeName EmptyString) && String.eqb nodeName n
    then Some (incr (default 0 (m !! n)))
    else m !! n.
Proof.
  unfold countOnNode.
  destruct (negb (String.eqb nodeName EmptyString)); simpl; [|reflexivity].
  destruct (String.eqb nodeName n) eqn:E.
  - apply String.eqb_eq in E. subst n. rewrite lookup_insert_eq.
    destruct (m !! nodeName) eqn:Hm; rewrite ?Hm; [reflexivity|].
    rewrite lookup_insert_eq. reflexivity.
  - apply String.eqb_neq in E. rewrite lookup_insert_ne by exact E.
    destruct (m !! nodeName); [reflexivity|].
    rewrite lookup_insert_ne by exact E. reflexivity.
Qed.

Lemma scanPod_perNode s pod :
  PodsPerNode (scanPod s pod) = countOnNode (pod_NodeName pod) (PodsPerNode s).
Proof.
  unfold scanPod.
  match goal with
  | |- context [scanContainers pod ?s1] =>
      destruct (scanContainers_frame pod s1) as (_ & _ & _ & _ & _ & _ & F)
  end.
  cbn zeta in F. rewrite F. unfold countPhase.
  repeat (destruct (String.eqb (pod_Phase pod) _); [reflexivity|]). reflexivity.
Qed.

Lemma foldl_scanPod_perNode pods s n :
  n <> EmptyString ->
  PodsPerNode (foldl scanPod s pods) !! n
  = match length (podsOnNode n pods) with
    | O => PodsPerNode s !! n
    | S k => Some (Nat.iter (S k) incr (default 0 (PodsPerNode s !! n)))
    end.
Proof.
  intros Hn. revert s. induction pods as [|pod pods IH]; intros s.
  - reflexivity.
  - simpl foldl. rewrite IH, scanPod_perNode, countOnNode_lookup.
    unfold podsOnNode. simpl List.filter.
    destruct (String.eqb (pod_NodeName pod) n) eqn:E.
    + apply String.eqb_eq in E. rewrite E.
      destruct (String.eqb n EmptyString) eqn:E0;
        [apply String.eqb_eq in E0; contradiction|].
      simpl. destruct (length _); [reflexivity|].
      simpl. rewrite Nat.iter_swap. reflexivity.
    + rewrite andb_false_r. reflexivity.
Qed.

Lemma foldl_scanPod_no_empty_key pods s :
  PodsPerNode (foldl scanPod s pods) !! EmptyString = PodsPerNode s !! EmptyString.
Proof.
  revert s. induction pods as [|pod pods IH]; intros s; [reflexivity|].
  simpl foldl. rewrite IH, scanPod_perNode, countOnNode_lookup.
  destruct (String.eqb (pod_NodeName pod) EmptyString); reflexivity.
Qed.

Lemma filter_length_le {A} (f : A -> bool) (l : list A) :
  (length (List.filter f l) <= length l)%nat.
Proof. induction l as [|x l IH]; simpl; [lia|]. destruct (f x); simpl; lia. Qed.

(** After [checkPodHealth], the per-node map binds a node name to the
    number of listed pods assigned to it, holds no node without pod,
    and never holds the empty name of a pod that is not scheduled. *)
Theorem pods_per_node_counts_assigned_pods cs status pods n :
  Pods_List cs NamespaceAll everything = Ok pods ->
  len pods < 2 ^ 63 ->
  PodsPerNode (fst (checkPodHealth cs status)) !! n
  = if String.eqb n EmptyString then None
    else if len (podsOnNode n pods) =? 0 then None
         else Some (len (podsOnNode n pods)).
Proof.
  intros E Hlen. unfold checkPodHealth. rewrite E. cbn [fst].
  destruct (String.eqb n EmptyString) eqn:E0.
  - apply String.eqb_eq in E0. subst n.
    rewrite foldl_scanPod_no_empty_key. apply lookup_empty.
  - apply String.eqb_neq in E0. rewrite foldl_scanPod_perNode by exact E0.
    cbn [PodsPerNode]. rewrite lookup_empty. unfold len in *.
    pose proof (filter_length_le (fun p => String.eqb (pod_NodeName p) n) pods) as Hle.
    fold (podsOnNode n pods) in Hle.
    destruct (length (podsOnNode n pods)) as [|k] eqn:Hk; [reflexivity|].
    replace (Z.of_nat (S k) =? 0) with false by (symmetry; apply Z.eqb_neq; lia).
    rewrite iter_incr by (simpl; lia). simpl default. f_equal.
Qed.

Lemma pods_per_node_sample :
  PodsPerNode (fst (checkPodHealth threeNodeCluster zeroPodHealthStatus)) !! "node-a"
  = if String.eqb "node-a" EmptyString then None
    else if len (podsOnNode "node-a"
                   [runningPod "web-0" "node-a"; runningPod "web-1" "node-b"]) =? 0
         then None
         else Some (len (podsOnNode "node-a"
                           [runningPod "web-0" "node-a"; runningPod "web-1" "node-b"])).
Proof.
  apply (pods_per_node_counts_assigned_pods threeNodeCluster zeroPodHealthStatus
           [runningPod "web-0" "node-a"; runningPod "web-1" "node-b"] "node-a").
  - reflexivity.
  - vm_compute. reflexivity.
Defined.

(** *** checkNodeHealth *)

Lemma countCondition_run ty s :
  let s' := countCondition ty s in
  TotalNodes s' = TotalNodes s /\ NodeConditions s' = NodeConditions s
  /\ AverageLoad s' = AverageLoad s
  /\ ReadyNodes s'
     = (if String.eqb ty NodeReady then incr (ReadyNodes s) else ReadyNodes s)
  /\ MemoryPressureNodes s'
     = (if String.eqb ty NodeMemoryPressure
        then incr (MemoryPressureNodes s) else MemoryPressureNodes s)
  /\ DiskPressureNodes s'
     = (if String.eqb ty NodeDiskPressure
        then incr (DiskPressureNodes s) else DiskPressureNodes s)
  /\ PIDPressureNodes s'
     = (if String.eqb ty NodePIDPressure
        then incr (PIDPressureNodes s) else PIDPressureNodes s)
  /\ NetworkUnavailableNodes s'
     = (if String.eqb ty NodeNetworkUnavailable
        then incr (NetworkUnavailableNodes s) else NetworkUnavailableNodes s).
Proof.
  cbn zeta. unfold countCondition.
  destruct (String.eqb ty NodeReady) eqn:E1.
  { apply String.eqb_eq in E1. rewrite E1. simpl. repeat split. }
  destruct (String.eqb ty NodeMemoryPressure) eqn:E2.
  { apply String.eqb_eq in E2. rewrite E2. simpl. repeat split. }
  destruct (String.eqb ty NodeDiskPressure) eqn:E3.
  { apply String.eqb_eq in E3. rewrite E3. simpl. repeat split. }
  destruct (String.eqb ty NodePIDPressure) eqn:E4.
  { apply String.eqb_eq in E4. rewrite E4. simpl. repeat split. }
  destruct (String.eqb ty NodeNetworkUnavailable) eqn:E5; simpl; repeat split.
Qed.

Lemma scanConditions_run conds s acc :
  let r := foldl (fun '(s, nodeConditions) condition =>
                    if String.eqb (cond_Status condition) ConditionTrue then
                      (countCondition (cond_Type condition) s,
                       nodeConditions ++ [cond_Type condition])
                    else (s, nodeConditions)) (s, acc) conds in
  snd r = acc ++ List.map cond_Type
                   (List.filter (fun c => String.eqb (cond_Status c) ConditionTrue) conds)
  /\ TotalNodes (fst r) = TotalNodes s
  /\ NodeConditions (fst r) = NodeConditions s
  /\ AverageLoad (fst r) = AverageLoad s
  /\ ReadyNodes (fst r) = Nat.iter (ofType NodeReady conds) incr (ReadyNodes s)
  /\ MemoryPressureNodes (fst r)
     = Nat.iter (ofType NodeMemoryPressure conds) incr (MemoryPressureNodes s)
  /\ DiskPressureNodes (fst r)
     = Nat.iter (ofType NodeDiskPressure conds) incr (DiskPressureNodes s)
  /\ PIDPressureNodes (fst r)
     = Nat.iter (ofType NodePIDPressure conds) incr (PIDPressureNodes s)
  /\ NetworkUnavailableNodes (fst r)
     = Nat.iter (ofType NodeNetworkUnavailable conds) incr (NetworkUnavailableNodes s).
Proof.
  revert s acc. induction conds as [|c conds IH]; intros s acc; cbn zeta.
  - simpl. rewrite app_nil_r. repeat split.
  - simpl foldl. unfold ofType. simpl List.filter.
    destruct (String.eqb (cond_Status c) ConditionTrue).
    + destruct (IH (countCondition (cond_Type c) s) (acc ++ [cond_Type c]))
        as (H0 & H1 & H2 & H3 & H4 & H5 & H6 & H7 & H8).
      destruct (countCondition_run (cond_Type c) s)
        as (C1 & C2 & C3 & C4 & C5 & C6 & C7 & C8).
      cbn zeta in *. rewrite H0, H1, H2, H3, H4, H5, H6, H7, H8.
      rewrite C1, C2, C3, C4, C5, C6, C7, C8. rewrite !iter_if.
      simpl List.filter. simpl List.map. rewrite <- app_assoc. unfold ofType.
      destruct (String.eqb (cond_Type c) NodeReady);
        destruct (String.eqb (cond_Type c) NodeMemoryPressure);
        destruct (String.eqb (cond_Type c) NodeDiskPressure);
        destruct (String.eqb (cond_Type c) NodePIDPressure);
        destruct (String.eqb (cond_Type c) NodeNetworkUnavailable);
        simpl; repeat split.
    + apply IH.
Qed.

Lemma ofTypeIn_cons ty node nodes :
  ofTypeIn ty (node :: nodes)
  = (ofTypeIn ty nodes + ofType ty (node_Conditions node))%nat.
Proof.
  unfold ofTypeIn, conditionsOfType, ofType, trueConditions. simpl.
  rewrite length_app. apply Nat.add_comm.
Qed.

Lemma scanNode_step s load node :
  scanNode (s, load) node
  = (setNodeConditions (node_Name node)
       (snd (scanConditions (node_Conditions node) s))
       (fst (scanConditions (node_Conditions node) s)),
     addLoad (node_Allocatable node) load).
Proof.
  unfold scanNode. destruct (scanConditions (node_Conditions node) s). reflexivity.
Qed.

Lemma foldl_scanNode_run nodes s load :
  let r := fst (foldl scanNode (s, load) nodes) in
  TotalNodes r = TotalNodes s
  /\ ReadyNodes r = Nat.iter (ofTypeIn NodeReady nodes) incr (ReadyNodes s)
  /\ MemoryPressureNodes r
     = Nat.iter (ofTypeIn NodeMemoryPressure nodes) incr (MemoryPressureNodes s)
  /\ DiskPressureNodes r
     = Nat.iter (ofTypeIn NodeDiskPressure nodes) incr (DiskPressureNodes s)
  /\ PIDPressureNodes r
     = Nat.iter (ofTypeIn NodePIDPressure nodes) incr (PIDPressureNodes s)
  /\ NetworkUnavailableNodes r
     = Nat.iter (ofTypeIn NodeNetworkUnavailable nodes) incr
         (NetworkUnavailableNodes s)
  /\ forall n,
       NodeConditions r !! n
       = match lastNamed n nodes with
         | Some node => Some (List.map cond_Type (trueConditions node))
         | None => NodeConditions s !! n
         end.
Proof.
  revert s load. induction nodes as [|node nodes IH]; intros s load; cbn zeta.
  - simpl. repeat split.
  - change (foldl scanNode (s, load) (node :: nodes))
      with (foldl scanNode (scanNode (s, load) node) nodes).
    rewrite scanNode_step.
    match goal with
    | |- context [foldl scanNode (?a, ?b) nodes] =>
        destruct (IH a b) as (I1 & I2 & I3 & I4 & I5 & I6 & I7)
    end.
    cbn zeta in *. rewrite I1, I2, I3, I4, I5, I6.
    cbn [setNodeConditions TotalNodes ReadyNodes MemoryPressureNodes
         DiskPressureNodes PIDPressureNodes NetworkUnavailableNodes].
    destruct (scanConditions_run (node_Conditions node) s [])
      as (H0 & H1 & H2 & H3 & H4 & H5 & H6 & H7 & H8).
    cbn zeta in *. fold (scanConditions (node_Conditions node) s) in *.
    rewrite H1, H4, H5, H6, H7, H8, !ofTypeIn_cons, !Nat.iter_add.
    do 6 (split; [reflexivity|]). intros n. rewrite I7. simpl lastNamed.
    destruct (lastNamed n nodes); [reflexivity|].
    cbn [setNodeConditions NodeConditions]. rewrite lookup_insert, H2, H0.
    destruct (String.eqb (node_Name node) n) eqn:E.
    + apply String.eqb_eq in E. rewrite decide_True by exact E. reflexivity.
    + apply String.eqb_neq in E. rewrite decide_False by exact E. reflexivity.
Qed.

Lemma checkNodeHealth_run cs status nodes :
  Nodes_List cs = Ok nodes ->
  let s := fst (checkNodeHealth cs status) in
  TotalNodes s = len nodes
  /\ ReadyNodes s = Nat.iter (ofTypeIn NodeReady nodes) incr (ReadyNodes status)
  /\ MemoryPressureNodes s
     = Nat.iter (ofTypeIn NodeMemoryPressure nodes) incr (MemoryPressureNodes status)
  /\ DiskPressureNodes s
     = Nat.iter (ofTypeIn NodeDiskPressure nodes) incr (DiskPressureNodes status)
  /\ PIDPressureNodes s
     = Nat.iter (ofTypeIn NodePIDPressure nodes) incr (PIDPressureNodes status)
  /\ NetworkUnavailableNodes s
     = Nat.iter (ofTypeIn NodeNetworkUnavailable nodes) incr
         (NetworkUnavailableNodes status)
  /\ forall n,
       NodeConditions s !! n
       = option_map (fun node => List.map cond_Type (trueConditions node))
                    (lastNamed n nodes).
Proof.
  intros E. cbn zeta. unfold checkNodeHealth. rewrite E.
  match goal with
  | |- context [foldl scanNode (?s0, ?q) nodes] =>
      destruct (foldl_scanNode_run nodes s0 q) as (H1 & H2 & H3 & H4 & H5 & H6 & H7);
      destruct (foldl scanNode (s0, q) nodes) as [s1 load]
  end.
  cbn zeta in *. cbn [fst] in *.
  cbn [TotalNodes ReadyNodes MemoryPressureNodes DiskPressureNodes PIDPressureNodes
       NetworkUnavailableNodes NodeConditions] in H1, H2, H3, H4, H5, H6, H7.
  assert (Hlook : forall n,
             NodeConditions s1 !! n
             = option_map (fun node => List.map cond_Type (trueConditions node))
                          (lastNamed n nodes)).
  { intros n. rewrite H7. destruct (lastNamed n nodes); [reflexivity|].
    apply lookup_empty. }
  destruct (TotalNodes s1 >? 0); cbn [fst TotalNodes ReadyNodes MemoryPressureNodes
    DiskPressureNodes PIDPressureNodes NetworkUnavailableNodes NodeConditions];
    repeat split; assumption.
Qed.

Lemma ofTypeIn_le ty nodes :
  (ofTypeIn ty nodes <= length (flat_map trueConditions nodes))%nat.
Proof.
  unfold ofTypeIn, conditionsOfType.
  induction nodes as [|node nodes IH]; simpl; [lia|].
  rewrite !length_app.
  pose proof (filter_length_le (fun c => String.eqb (cond_Type c) ty)
                (trueConditions node)). lia.
Qed.

(** Starting from counters at 0, [checkNodeHealth] counts conditions,
    not nodes: each counter is the number of true conditions of its
    type over all listed nodes, and the total is the number of nodes. *)
Theorem node_counters_count_true_conditions cs status nodes :
  Nodes_List cs = Ok nodes ->
  freshNodeCounters status ->
  Z.of_nat (length (flat_map trueConditions nodes)) < 2 ^ 63 ->
  let s := fst (checkNodeHealth cs status) in
  TotalNodes s = len nodes
  /\ ReadyNodes s = len (conditionsOfType NodeReady nodes)
  /\ MemoryPressureNodes s = len (conditionsOfType NodeMemoryPressure nodes)
  /\ DiskPressureNodes s = len (conditionsOfType NodeDiskPressure nodes)
  /\ PIDPressureNodes s = len (conditionsOfType NodePIDPressure nodes)
  /\ NetworkUnavailableNodes s
     = len (conditionsOfType NodeNetworkUnavailable nodes).
Proof.
  intros E (Z1 & Z2 & Z3 & Z4 & Z5) Hn.
  destruct (checkNodeHealth_run cs status nodes E)
    as (H1 & H2 & H3 & H4 & H5 & H6 & _).
  cbn zeta in *. rewrite H1, H2, H3, H4, H5, H6, Z1, Z2, Z3, Z4, Z5.
  pose proof (ofTypeIn_le NodeReady nodes).
  pose proof (ofTypeIn_le NodeMemoryPressure nodes).
  pose proof (ofTypeIn_le NodeDiskPressure nodes).
  pose proof (ofTypeIn_le NodePIDPressure nodes).
  pose proof (ofTypeIn_le NodeNetworkUnavailable nodes).
  rewrite !iter_incr by lia. unfold len, ofTypeIn. repeat split; lia.
Qed.

Lemma node_counters_sample :
  let s := fst (checkNodeHealth threeNodeCluster zeroNodeHealthStatus) in
  TotalNodes s = 3
  /\ ReadyNodes s = 2
  /\ MemoryPressureNodes s = 1
  /\ DiskPressureNodes s = 0
  /\ PIDPressureNodes s = 0
  /\ NetworkUnavailableNodes s = 0.
Proof.
  apply (node_counters_count_true_conditions threeNodeCluster zeroNodeHealthStatus
           [readyNode "node-a"; readyNode "node-b"; pressedNode "node-c"]).
  - reflexivity.
  - repeat split.
  - vm_compute. reflexivity.
Defined.

(** When no listed node carries more than one true Ready condition,
    the ready count lies between 0 and the total. *)
Theorem ready_nodes_at_most_total cs status nodes :
  Nodes_List cs = Ok nodes ->
  ReadyNodes status = 0 ->
  len nodes < 2 ^ 63 ->
  Forall (fun node => (ofType NodeReady (node_Conditions node) <= 1)%nat) nodes ->
  0 <= ReadyNodes (fst (checkNodeHealth cs status))
    <= TotalNodes (fst (checkNodeHealth cs status)).
Proof.
  intros E Z1 Hn Hone.
  destruct (checkNodeHealth_run cs status nodes E) as (H1 & H2 & _).
  cbn zeta in *. rewrite H1, H2, Z1.
  assert (Hle : (ofTypeIn NodeReady nodes <= length nodes)%nat).
  { clear - Hone. induction Hone as [|node nodes Hnode _ IH].
    - unfold ofTypeIn. simpl. lia.
    - rewrite ofTypeIn_cons. simpl. lia. }
  unfold len in *. rewrite iter_incr by lia. lia.
Qed.

Lemma ready_nodes_sample :
  0 <= ReadyNodes (fst (checkNodeHealth threeNodeCluster zeroNodeHealthStatus))
    <= TotalNodes (fst (checkNodeHealth threeNodeCluster zeroNodeHealthStatus)).
Proof.
  apply (ready_nodes_at_most_total threeNodeCluster zeroNodeHealthStatus
           [readyNode "node-a"; readyNode "node-b"; pressedNode "node-c"]).
  - reflexivity.
  - reflexivity.
  - vm_compute. reflexivity.
  - repeat constructor.
Defined.

(** After [checkNodeHealth], the condition map binds the name of each
    listed node to the types of its true conditions, in order; a name
    listed twice keeps the conditions of its last node, and no other
    name is bound, whatever the status held before. *)
Theorem node_conditions_hold_true_types cs status nodes n :
  Nodes_List cs = Ok nodes ->
  NodeConditions (fst (checkNodeHealth cs status)) !! n
  = option_map (fun node => List.map cond_Type (trueConditions node))
               (lastNamed n nodes).
Proof.
  intros E.
  destruct (checkNodeHealth_run cs status nodes E) as (_ & _ & _ & _ & _ & _ & H).
  apply H.
Qed.

Lemma node_conditions_sample :
  NodeConditions (fst (checkNodeHealth threeNodeCluster zeroNodeHealthStatus))
    !! "node-c"
  = option_map (fun node => List.map cond_Type (trueConditions node))
               (lastNamed "node-c"
                  [readyNode "node-a"; readyNode "node-b"; pressedNode "node-c"]).
Proof.
  apply (node_conditions_hold_true_types threeNodeCluster zeroNodeHealthStatus
           [readyNode "node-a"; readyNode "node-b"; pressedNode "node-c"] "node-c").
  reflexivity.
Defined.

(** *** checkControlPlaneHealth *)

Lemma foldl_scanSystemPod items s :
  let s' := foldl scanSystemPod s items in
  APIServerHealthy s' = APIServerHealthy s
  /\ OverallHealthy s' = OverallHealthy s
  /\ APIServerLatency s' = APIServerLatency s
  /\ (ControllerHealthy s' = true
      <-> ControllerHealthy s = true
          /\ componentRunning "kube-controller-manager" items)
  /\ (SchedulerHealthy s' = true
      <-> SchedulerHealthy s = true /\ componentRunning "kube-scheduler" items)
  /\ (EtcdHealthy s' = true
      <-> EtcdHealthy s = true /\ componentRunning "etcd" items)
  /\ (CoreDNSHealthy s' = true
      <-> CoreDNSHealthy s = true /\ componentRunning "coredns" items).
Proof.
  unfold componentRunning.
  revert s. induction items as [|pod items IH]; intros s; cbn zeta.
  - simpl. repeat split; try tauto; intros; constructor.
  - simpl foldl. destruct (IH (scanSystemPod s pod)) as (H1 & H2 & H3 & H4 & H5 & H6 & H7).
    cbn zeta in *. rewrite H1, H2, H3, H4, H5, H6, H7, !Forall_cons.
    unfold scanSystemPod.
    cbn [APIServerHealthy OverallHealthy APIServerLatency ControllerHealthy
         SchedulerHealthy EtcdHealthy CoreDNSHealthy].
    assert (Hstep : forall part flag,
               (if Contains (pod_Name pod) part
                   && negb (String.eqb (pod_Phase pod) PodRunning)
                then false else flag) = true
               <-> flag = true
                   /\ (Contains (pod_Name pod) part = true -> pod_Phase pod = PodRunning)).
    { intros part flag. destruct (Contains (pod_Name pod) part); simpl.
      - destruct (String.eqb (pod_Phase pod) PodRunning) eqn:E; simpl.
        + apply String.eqb_eq in E. tauto.
        + apply String.eqb_neq in E. split; [discriminate|]. intros [_ H]. tauto.
      - split; [|tauto]. intros ->. split; [reflexivity|discriminate]. }
    rewrite !Hstep. repeat split; try tauto.
Qed.

(** When the pods of kube-system are listed, a component is reported
    healthy exactly when every listed pod whose name contains the
    name of the component is running (so a component without any pod
    is healthy), the overall flag is the conjunction of the five, and
    no error is returned. *)
Theorem control_plane_flags cs status items :
  Pods_List cs "kube-system" everything = Ok items ->
  let s := fst (checkControlPlaneHealth cs status) in
  snd (checkControlPlaneHealth cs status) = None
  /\ (APIServerHealthy s = true
      <-> isErr (Namespaces_List cs) = false /\ apiCallDuration cs < Second)
  /\ (ControllerHealthy s = true
      <-> componentRunning "kube-controller-manager" items)
  /\ (SchedulerHealthy s = true <-> componentRunning "kube-scheduler" items)
  /\ (EtcdHealthy s = true <-> componentRunning "etcd" items)
  /\ (CoreDNSHealthy s = true <-> componentRunning "coredns" items)
  /\ OverallHealthy s
     = APIServerHealthy s && ControllerHealthy s && SchedulerHealthy s
       && EtcdHealthy s && CoreDNSHealthy s.
Proof.
  intros E. cbn zeta. unfold checkControlPlaneHealth. rewrite E. cbn [fst snd].
  match goal with
  | |- context [foldl scanSystemPod ?s0 items] =>
      destruct (foldl_scanSystemPod items s0) as (H1 & H2 & H3 & H4 & H5 & H6 & H7)
  end.
  cbn zeta in *.
  cbn [APIServerHealthy OverallHealthy APIServerLatency ControllerHealthy
       SchedulerHealthy EtcdHealthy CoreDNSHealthy] in *.
  rewrite H1, H4, H5, H6, H7.
  split; [reflexivity|]. split.
  { rewrite andb_true_iff, negb_true_iff, Z.ltb_lt.
    change (1 * Second) with Second. tauto. }
  repeat split; tauto.
Qed.

Lemma control_plane_flags_sample :
  let s := fst (checkControlPlaneHealth emptyCluster zeroControlPlaneStatus) in
  snd (checkControlPlaneHealth emptyCluster zeroControlPlaneStatus) = None
  /\ (APIServerHealthy s = true
      <-> isErr (Namespaces_List emptyCluster) = false
          /\ apiCallDuration emptyCluster < Second)
  /\ (ControllerHealthy s = true
      <-> componentRunning "kube-controller-manager" [])
  /\ (SchedulerHealthy s = true <-> componentRunning "kube-scheduler" [])
  /\ (EtcdHealthy s = true <-> componentRunning "etcd" [])
  /\ (CoreDNSHealthy s = true <-> componentRunning "coredns" [])
  /\ OverallHealthy s
     = APIServerHealthy s && ControllerHealthy s && SchedulerHealthy s
       && EtcdHealthy s && CoreDNSHealthy s.
Proof.
  apply (control_plane_flags emptyCluster zeroControlPlaneStatus []).
  reflexivity.
Defined.

(** When the pods of kube-system cannot be listed, the probe of the
    API server is still recorded, but the four component flags and
    the overall flag keep the values the status came with: they are
    not recomputed. *)
Theorem control_plane_list_failure_keeps_flags cs status e :
  Pods_List cs "kube-system" everything = Err e ->
  let s := fst (checkControlPlaneHealth cs status) in
  snd (checkControlPlaneHealth cs status)
  = Some ("failed to list kube-system pods: " +:+ e)
  /\ APIServerHealthy s
     = negb (isErr (Namespaces_List cs)) && (apiCallDuration cs <? Second)
  /\ APIServerLatency s = inject_Z (Z.quot (apiCallDuration cs) 1000000)
  /\ ControllerHealthy s = ControllerHealthy status
  /\ SchedulerHealthy s = SchedulerHealthy status
  /\ EtcdHealthy s = EtcdHealthy status
  /\ CoreDNSHealthy s = CoreDNSHealthy status
  /\ OverallHealthy s = OverallHealthy status.
Proof.
  intros E. cbn zeta. unfold checkControlPlaneHealth. rewrite E.
  repeat split.
Qed.

Lemma control_plane_list_failure_sample :
  let s := fst (checkControlPlaneHealth degradedCluster zeroControlPlaneStatus) in
  snd (checkControlPlaneHealth degradedCluster zeroControlPlaneStatus)
  = Some ("failed to list kube-system pods: " +:+ "timeout")
  /\ APIServerHealthy s
     = negb (isErr (Namespaces_List degradedCluster))
       && (apiCallDuration degradedCluster <? Second)
  /\ APIServerLatency s = inject_Z (Z.quot (apiCallDuration degradedCluster) 1000000)
  /\ ControllerHealthy s = ControllerHealthy zeroControlPlaneStatus
  /\ SchedulerHealthy s = SchedulerHealthy zeroControlPlaneStatus
  /\ EtcdHealthy s = EtcdHealthy zeroControlPlaneStatus
  /\ CoreDNSHealthy s = CoreDNSHealthy zeroControlPlaneStatus
  /\ OverallHealthy s = OverallHealthy zeroControlPlaneStatus.
Proof.
  apply (control_plane_list_failure_keeps_flags degradedCluster
           zeroControlPlaneStatus "timeout").
  reflexivity.
Defined.

(** *** More on checkNetworkHealth *)

Lemma allRunning_Forall items :
  allRunning items = true <-> Forall (fun p => pod_Phase p = PodRunning) items.
Proof.
  induction items as [|pod items IH]; simpl.
  - split; [constructor|reflexivity].
  - rewrite Forall_cons. destruct (String.eqb (pod_Phase pod) PodRunning) eqn:E; simpl.
    + apply String.eqb_eq in E. tauto.
    + apply String.eqb_neq in E. split; [discriminate|tauto].
Qed.

Lemma len_zero {A} (l : list A) : (len l =? 0) = true <-> l = [].
Proof.
  unfold len. rewrite Z.eqb_eq. destruct l; simpl; split; try reflexivity;
    try discriminate; lia.
Qed.

Lemma allHaveEndpoints_Forall cs items :
  allHaveEndpoints cs items = true <-> Forall (served cs) items.
Proof.
  unfold served. induction items as [|svc items IH]; simpl.
  - split; [constructor|reflexivity].
  - rewrite Forall_cons.
    destruct (len (svc_Selector svc) =? 0) eqn:Esel.
    + apply len_zero in Esel. rewrite IH. tauto.
    + assert (svc_Selector svc <> []).
      { intros H. apply len_zero in H. congruence. }
      destruct (Endpoints_Get cs (svc_Namespace svc) (svc_Name svc)) as [ep|e].
      * destruct (len (ep_Subsets ep) =? 0) eqn:Esub.
        -- apply len_zero in Esub. split; [discriminate|].
           intros [[Hs|(ep' & [= <-] & Hne)] _]; contradiction.
        -- assert (ep_Subsets ep <> []).
           { intros H'. apply len_zero in H'. congruence. }
           rewrite IH. split; [|tauto]. intros Hall. split; [|exact Hall].
           right. exists ep. auto.
      * split; [discriminate|].
        intros [[Hs|(ep' & [=] & _)] _]. contradiction.
Qed.

Lemma allReplicasReady_true items log ready :
  fst (allReplicasReady items log) = Returns ready ->
  ready = true <-> Forall replicasReady items.
Proof.
  unfold replicasReady. revert ready.
  induction items as [|d items IH]; intros ready; simpl.
  - intros [= <-]. split; [constructor|reflexivity].
  - rewrite Forall_cons. destruct (dep_Replicas d) as [replicas|]; [|discriminate].
    destruct (dep_ReadyReplicas d <? replicas) eqn:E.
    + apply Z.ltb_lt in E. intros [= <-]. split; [discriminate|].
      intros [(r & [= <-] & Hle) _]. lia.
    + apply Z.ltb_ge in E. intros Hret. rewrite (IH ready Hret).
      split; [|tauto]. intros Hall. split; [eauto|exact Hall].
Qed.

(** When [checkNetworkHealth] returns, the CNI and the DNS flags say
    that the pods could be listed and are all running, the endpoint
    flag that the services could be listed and each one with a
    selector has endpoints with a subset, and the policy count is the
    number of listed policies, or what it was if they cannot be
    listed.  An empty list makes its flag true. *)
Theorem network_flags cs status log s err :
  fst (checkNetworkHealth cs status log) = Returns (s, err) ->
  (CNIHealthy s = true
   <-> exists items, Pods_List cs "kube-system" cniSelector = Ok items
                     /\ Forall (fun p => pod_Phase p = PodRunning) items)
  /\ (DNSResolutionOK s = true
      <-> exists items, Pods_List cs "kube-system" dnsSelector = Ok items
                        /\ Forall (fun p => pod_Phase p = PodRunning) items)
  /\ (ServiceEndpointsHealthy s = true
      <-> exists services, Services_List cs = Ok services
                           /\ Forall (served cs) services)
  /\ NetworkPoliciesCount s
     = match NetworkPolicies_List cs with
       | Ok netpols => len netpols
       | Err _ => NetworkPoliciesCount status
       end.
Proof.
  rewrite checkNetworkHealth_fst.
  destruct (fst (ingressStep cs [])) as [ingress|msg]; [|discriminate].
  intros [= <- <-]. unfold networkWith.
  cbn [CNIHealthy DNSResolutionOK ServiceEndpointsHealthy NetworkPoliciesCount].
  split; [|split; [|split]].
  - destruct (Pods_List cs "kube-system" cniSelector) as [items|e].
    + rewrite allRunning_Forall. split; [eauto|]. intros (x & [= <-] & H). exact H.
    + split; [discriminate|]. intros (x & [=] & _).
  - destruct (Pods_List cs "kube-system" dnsSelector) as [items|e].
    + rewrite allRunning_Forall. split; [eauto|]. intros (x & [= <-] & H). exact H.
    + split; [discriminate|]. intros (x & [=] & _).
  - destruct (Services_List cs) as [items|e].
    + rewrite allHaveEndpoints_Forall. split; [eauto|].
      intros (x & [= <-] & H). exact H.
    + split; [discriminate|]. intros (x & [=] & _).
  - destruct (NetworkPolicies_List cs); reflexivity.
Qed.

Lemma network_flags_sample :
  exists s,
    fst (checkNetworkHealth threeNodeCluster zeroNetworkStatus []) = Returns (s, None)
    /\ (CNIHealthy s = true
        <-> exists items,
              Pods_List threeNodeCluster "kube-system" cniSelector = Ok items
              /\ Forall (fun p => pod_Phase p = PodRunning) items)
    /\ (DNSResolutionOK s = true
        <-> exists items,
              Pods_List threeNodeCluster "kube-system" dnsSelector = Ok items
              /\ Forall (fun p => pod_Phase p = PodRunning) items)
    /\ (ServiceEndpointsHealthy s = true
        <-> exists services, Services_List threeNodeCluster = Ok services
                             /\ Forall (served threeNodeCluster) services)
    /\ NetworkPoliciesCount s
       = match NetworkPolicies_List threeNodeCluster with
         | Ok netpols => len netpols
         | Err _ => NetworkPoliciesCount zeroNetworkStatus
         end.
Proof.
  eexists. split; [vm_compute; reflexivity|].
  apply (network_flags threeNodeCluster zeroNetworkStatus [] _ None).
  vm_compute. reflexivity.
Defined.

(** When [checkNetworkHealth] returns, the ingress flag says that the
    ingress deployments could be listed and each has at least as many
    ready replicas as its specification asks for; with no ingress
    deployment at all the flag is true. *)
Theorem ingress_flag cs status log s err :
  fst (checkNetworkHealth cs status log) = Returns (s, err) ->
  IngressHealthy s = true
  <-> exists items, Deployments_List cs ingressSelector = Ok items
                    /\ Forall replicasReady items.
Proof.
  rewrite checkNetworkHealth_fst.
  destruct (fst (ingressStep cs [])) as [ingress|msg] eqn:E; [|discriminate].
  intros [= <- <-]. cbn [networkWith IngressHealthy].
  unfold ingressStep in E.
  destruct (Deployments_List cs ingressSelector) as [items|e].
  - assert (E' : fst (allReplicasReady items []) = Returns ingress).
    { destruct items; exact E. }
    rewrite (allReplicasReady_true items [] ingress E').
    split; [eauto|]. intros (x & [= <-] & H). exact H.
  - injection E as <-. split; [discriminate|]. intros (x & [=] & _).
Qed.

Lemma ingress_flag_sample :
  exists s,
    fst (checkNetworkHealth threeNodeCluster zeroNetworkStatus []) = Returns (s, None)
    /\ (IngressHealthy s = true
        <-> exists items,
              Deployments_List threeNodeCluster ingressSelector = Ok items
              /\ Forall replicasReady items).
Proof.
  eexists. split; [vm_compute; reflexivity|].
  apply (ingress_flag threeNodeCluster zeroNetworkStatus [] _ None).
  vm_compute. reflexivity.
Defined.

Lemma readOrLog_log {A B} (r : Result A) what (fallback : B) (f : A -> B) log :
  readOrLog r what fallback f log
  = (Returns (match r with Err _ => fallback | Ok x => f x end),
     log ++ failureLine r what).
Proof. destruct r; simpl; [rewrite app_nil_r|]; reflexivity. Qed.

Lemma ingressStep_log cs log ready log' :
  ingressStep cs log = (Returns ready, log') ->
  log' = log ++ failureLine (Deployments_List cs ingressSelector)
                  "Failed to check ingress controllers: ".
Proof.
  unfold ingressStep.
  destruct (Deployments_List cs ingressSelector) as [items|e]; simpl.
  - rewrite app_nil_r. destruct (len items =? 0).
    + intros [= _ <-]. reflexivity.
    + destruct (allReplicasReady_run items log) as (Hlog & _).
      intros E. rewrite E in Hlog. simpl in Hlog. exact Hlog.
  - intros [= _ <-]. reflexivity.
Qed.

(** When [checkNetworkHealth] returns, it has logged one line for each
    of its five list requests that failed, in the order of the
    requests, and nothing else; what was logged before is kept. *)
Theorem network_check_logs_each_failure cs status log r :
  fst (checkNetworkHealth cs status log) = Returns r ->
  snd (checkNetworkHealth cs status log) = log ++ networkFailureLines cs.
Proof.
  unfold checkNetworkHealth, networkFailureLines.
  rewrite (hbind_returns _ _ _ _ _ (readOrLog_log _ _ _ _ _)).
  rewrite (hbind_returns _ _ _ _ _ (readOrLog_log _ _ _ _ _)).
  rewrite (hbind_returns _ _ _ _ _ (readOrLog_log _ _ _ _ _)).
  match goal with
  | |- context [hbind (ingressStep cs) _ ?l] =>
      destruct (ingressStep cs l) as [[ingress|msg] l4] eqn:E4
  end.
  - rewrite (hbind_returns _ _ _ _ _ E4).
    rewrite (hbind_returns _ _ _ _ _ (readOrLog_log _ _ _ _ _)).
    apply ingressStep_log in E4. subst l4. intros _. cbn [snd hret].
    rewrite <- !app_assoc. reflexivity.
  - rewrite (hbind_panics _ _ _ _ _ E4). discriminate.
Qed.

Lemma network_check_logs_sample :
  snd (checkNetworkHealth degradedCluster zeroNetworkStatus ["earlier line"])
  = ["earlier line"] ++ networkFailureLines degradedCluster.
Proof.
  apply (network_check_logs_each_failure degradedCluster zeroNetworkStatus
           ["earlier line"]
           ({| CNIHealthy := false; DNSResolutionOK := false;
               ServiceEndpointsHealthy := false; IngressHealthy := false;
               NetworkPoliciesCount := 0 |}, None)).
  vm_compute. reflexivity.
Defined.

(** *** GetClusterHealth on a fatal failure *)

(** When the nodes cannot be listed, the evaluation returns their
    error wrapped twice, whether or not the pods can be listed, and
    logs nothing; when only the pods cannot be listed, it returns
    theirs.  No other request is made in either case. *)
Theorem enumeration_failure_is_returned
    (checkResourceUsage :
       Clientset -> MetricsClientset -> ResourceUsageStatus
       -> ResourceUsageStatus * option string)
    (checkComponentStatuses :
       Clientset -> list ComponentStatus -> list ComponentStatus * option string)
    (checkNamespaceHealth :
       Clientset -> MetricsClientset -> ClusterHealth
       -> ClusterHealth * option string)
    (identifyHealthIssues : ClusterHealth -> ClusterHealth)
    (score : ClusterHealth -> Z) now cs mc log :
  match Nodes_List cs, Pods_List cs NamespaceAll everything with
  | Err e, _ =>
      GetClusterHealth checkResourceUsage checkComponentStatuses
        checkNamespaceHealth identifyHealthIssues score now cs mc log
      = (Returns (Err ("node health check failed: failed to list nodes: " +:+ e)),
         log)
  | Ok _, Err e =>
      GetClusterHealth checkResourceUsage checkComponentStatuses
        checkNamespaceHealth identifyHealthIssues score now cs mc log
      = (Returns (Err ("pod health check failed: failed to list pods: " +:+ e)),
         log)
  | Ok _, Ok _ => True
  end.
Proof.
  destruct (Nodes_List cs) as [nodes|e] eqn:En.
  - destruct (Pods_List cs NamespaceAll everything) as [pods|e] eqn:Ep; [exact I|].
    rewrite (evaluate_pod_failure _ _ _ _ _ now cs mc log e);
      [reflexivity|rewrite En; reflexivity|exact Ep].
  - rewrite (evaluate_node_failure _ _ _ _ _ now cs mc log e En). reflexivity.
Qed.

End HealthFacts.

(** ** The kubernetes package *)

Module KubernetesFacts.
Import Kubernetes.

(** The namespace test of [GetPods] decides nothing: either branch
    lists the pods of the namespace given, the empty one standing for
    all namespaces. *)
Lemma GetPods_lists_the_namespace c namespace :
  GetPods c namespace = Health.Pods_List (clientset c) namespace everything.
Proof.
  unfold GetPods. destruct (String.eqb namespace EmptyString) eqn:E; simpl.
  - apply String.eqb_eq in E. subst namespace. reflexivity.
  - reflexivity.
Qed.

(** [GetClusterResources] reads the nodes, the pods, the node metrics
    and the pod metrics in that order and returns the error of the
    first list that fails, wrapped with the name of that list; it
    succeeds exactly when all four can be read. *)
Theorem cluster_resources_first_failure_wins c :
  match Health.Nodes_List (clientset c),
        Health.Pods_List (clientset c) NamespaceAll everything,
        NodeMetricses_List (metricsClient c),
        PodMetricses_List (metricsClient c) NamespaceAll with
  | Err e, _, _, _ => GetClusterResources c = Err ("failed to get nodes: " +:+ e)
  | Ok _, Err e, _, _ => GetClusterResources c = Err ("failed to get pods: " +:+ e)
  | Ok _, Ok _, Err e, _ =>
      GetClusterResources c = Err ("failed to get node metrics: " +:+ e)
  | Ok _, Ok _, Ok _, Err e =>
      GetClusterResources c = Err ("failed to get pod metrics: " +:+ e)
  | Ok _, Ok _, Ok _, Ok _ => exists resources, GetClusterResources c = Ok resources
  end.
Proof.
  unfold GetClusterResources. rewrite GetPods_lists_the_namespace. unfold GetNodes.
  destruct (Health.Nodes_List (clientset c)); [|reflexivity].
  destruct (Health.Pods_List (clientset c) _ _); [|reflexivity].
  destruct (NodeMetricses_List (metricsClient c)); [|reflexivity].
  destruct (PodMetricses_List (metricsClient c) NamespaceAll); [|reflexivity].
  eexists. reflexivity.
Qed.

(** A map returned by [GetClusterResources] holds the four lists that
    were read under the keys nodes, pods, nodeMetrics and podMetrics,
    and no other key. *)
Theorem cluster_resources_has_four_keys c resources :
  GetClusterResources c = Ok resources ->
  exists nodes pods nodeMetrics podMetrics,
    Health.Nodes_List (clientset c) = Ok nodes
    /\ Health.Pods_List (clientset c) NamespaceAll everything = Ok pods
    /\ NodeMetricses_List (metricsClient c) = Ok nodeMetrics
    /\ PodMetricses_List (metricsClient c) NamespaceAll = Ok podMetrics
    /\ resources !! "nodes" = Some (NodeItems nodes)
    /\ resources !! "pods" = Some (PodItems pods)
    /\ resources !! "nodeMetrics" = Some (NodeMetricsItems nodeMetrics)
    /\ resources !! "podMetrics" = Some (PodMetricsItems podMetrics)
    /\ dom resources
       = ({["nodes"; "pods"; "nodeMetrics"; "podMetrics"]} : gset string).
Proof.
  unfold GetClusterResources. rewrite GetPods_lists_the_namespace. unfold GetNodes.
  destruct (Health.Nodes_List (clientset c)) as [nodes|]; [|discriminate].
  destruct (Health.Pods_List (clientset c) _ _) as [pods|]; [|discriminate].
  destruct (NodeMetricses_List (metricsClient c)) as [nm|]; [|discriminate].
  destruct (PodMetricses_List (metricsClient c) NamespaceAll) as [pm|];
    [|discriminate].
  intros [= <-]. exists nodes, pods, nm, pm.
  repeat (split; [reflexivity|]).
  repeat (split; [by simplify_map_eq|]).
  rewrite !dom_insert_L, dom_empty_L. set_solver.
Qed.

Lemma cluster_resources_sample :
  exists nodes pods nodeMetrics podMetrics,
    Health.Nodes_List (clientset sampleClient) = Ok nodes
    /\ Health.Pods_List (clientset sampleClient) NamespaceAll everything = Ok pods
    /\ NodeMetricses_List (metricsClient sampleClient) = Ok nodeMetrics
    /\ PodMetricses_List (metricsClient sampleClient) NamespaceAll = Ok podMetrics
    /\ (<["podMetrics" := PodMetricsItems podMetrics]>
          (<["nodeMetrics" := NodeMetricsItems nodeMetrics]>
             (<["pods" := PodItems pods]>
                (<["nodes" := NodeItems nodes]> (∅ : gmap string Resource)))))
         !! "nodes"
       = Some (NodeItems nodes).
Proof.
  destruct (cluster_resources_has_four_keys sampleClient _ eq_refl)
    as (nodes & pods & nm & pm & H1 & H2 & H3 & H4 & H5 & _).
  exists nodes, pods, nm, pm.
  repeat (split; [assumption|]). by simplify_map_eq.
Defined.

(** A client that [NewClient] returns carries the configuration it
    was given, has both of its clients built from one and the same
    rest configuration, taken from the cluster when [InCluster] is
    set and from the kubeconfig file otherwise, and has no
    [metrics] client. *)
Theorem new_client_is_built_from_one_config env cfg c :
  NewClient env cfg = Ok c ->
  config c = cfg
  /\ metrics c = None
  /\ exists restConfig,
       (if InCluster cfg then InClusterConfig env
        else BuildConfigFromFlags env EmptyString (Kubeconfig cfg)) = Ok restConfig
       /\ kubernetes_NewForConfig env restConfig = Ok (clientset c)
       /\ metricsv_NewForConfig env restConfig = Ok (metricsClient c).
Proof.
  unfold NewClient.
  destruct (InCluster cfg).
  - destruct (InClusterConfig env) as [rc|]; [|discriminate].
    destruct (kubernetes_NewForConfig env rc) as [cs|] eqn:Ek; [|discriminate].
    destruct (metricsv_NewForConfig env rc) as [mc|] eqn:Em; [|discriminate].
    intros [= <-]. simpl. eauto 6.
  - destruct (BuildConfigFromFlags env EmptyString (Kubeconfig cfg)) as [rc|];
      [|discriminate].
    destruct (kubernetes_NewForConfig env rc) as [cs|] eqn:Ek; [|discriminate].
    destruct (metricsv_NewForConfig env rc) as [mc|] eqn:Em; [|discriminate].
    intros [= <-]. simpl. eauto 6.
Qed.

Lemma new_client_sample :
  config sampleClient = {| InCluster := true; Kubeconfig := "/home/me/.kube/config" |}
  /\ metrics sampleClient = None
  /\ exists restConfig,
       (if InCluster {| InCluster := true; Kubeconfig := "/home/me/.kube/config" |}
        then InClusterConfig inClusterOnly
        else BuildConfigFromFlags inClusterOnly EmptyString
               (Kubeconfig {| InCluster := true;
                              Kubeconfig := "/home/me/.kube/config" |}))
       = Ok restConfig
       /\ kubernetes_NewForConfig inClusterOnly restConfig = Ok (clientset sampleClient)
       /\ metricsv_NewForConfig inClusterOnly restConfig
          = Ok (metricsClient sampleClient).
Proof.
  apply (new_client_is_built_from_one_config inClusterOnly
           {| InCluster := true; Kubeconfig := "/home/me/.kube/config" |}
           sampleClient).
  reflexivity.
Defined.

End KubernetesFacts.
